(** * The API gateway: retry policy, load balancer, header filters, proxy
      pipeline and registration loop.

    A shallow embedding of [src/retry.ts], [src/load-balancer.ts] and of the
    latest [api-gateway.ts] (the one that defines [filterRequestHeaders],
    [filterResponseHeaders] and [ApiGatewayError.fromStatus]).

    Conventions of the embedding.
    - A JavaScript [number] that holds a count, an index, an HTTP status or a
      duration in milliseconds is a [Z]; the value of [Math.random()] and the
      sleep durations derived from it are rationals ([Q]).  Floating point
      rounding is not modelled.
    - A JavaScript object used as a dictionary (header maps, the round robin
      cursor [Map]) is a [gmap] with [string] keys, a [Set] is a [gset].
    - Header names are ASCII, so [toLowerCase] only moves [A-Z] to [a-z].
    - Logging ([this.log.*]) has no effect on the behaviour and is left out. *)

From stdpp Require Import gmap strings list pretty.
From Stdlib Require Import ZArith QArith Qround Lia.

Set Warnings "-register-all".
Open Scope Z_scope.

(** ** JavaScript values *)

(** The JSON-like values that travel in response bodies ([any] in the source). *)
Inductive JsValue : Type :=
| JUndefined
| JNull
| JBool (b : bool)
| JNum (n : Z)
| JStr (s : string)
| JArr (items : list JsValue)
| JObj (fields : list (string * JsValue)).

(** Truthiness, as used by [if (resData.error)] and [a && b]. *)
Definition truthy (v : JsValue) : bool :=
  match v with
  | JUndefined | JNull => false
  | JBool b => b
  | JNum n => negb (n =? 0)
  | JStr s => negb (String.eqb s "")
  | JArr _ | JObj _ => true
  end.

(** [typeof v === "string"]. *)
Definition isString (v : JsValue) : bool :=
  match v with JStr _ => true | _ => false end.

Fixpoint assoc (k : string) (fields : list (string * JsValue)) : JsValue :=
  match fields with
  | [] => JUndefined
  | (k', v) :: rest => if String.eqb k k' then v else assoc k rest
  end.

(** Property read [v.k] for the data properties the gateway reads ([data],
    [error], [code], [message]): [None] stands for the [TypeError] raised on
    [undefined] and [null]; primitives and arrays have no such property. *)
Definition getProp (v : JsValue) (k : string) : option JsValue :=
  match v with
  | JUndefined | JNull => None
  | JObj fields => Some (assoc k fields)
  | _ => Some JUndefined
  end.

(** ** Strings *)

Definition lowerAscii (c : Ascii.ascii) : Ascii.ascii :=
  let n := Ascii.N_of_ascii c in
  if ((65 <=? n) && (n <=? 90))%N then Ascii.ascii_of_N (n + 32) else c.

(** [String.prototype.toLowerCase] on ASCII text. *)
Fixpoint toLowerCase (s : string) : string :=
  match s with
  | EmptyString => EmptyString
  | String c rest => String (lowerAscii c) (toLowerCase rest)
  end.

(** [s.startsWith(p)]. *)
Definition startsWith (s p : string) : bool := String.prefix p s.

(** ** Header maps *)

(** [type Headers = { [key: string]: string | string[] | undefined }]. *)
Inductive HeaderValue : Type :=
| HStr (s : string)
| HArr (l : list string)
| HUndef.

Abbreviation Headers := (gmap string HeaderValue).

Definition EXCLUDED_REQUEST_HEADERS : gset string :=
  {[ "host"; "connection"; "content-length"; "transfer-encoding";
     "authorization" ]}.

Definition EXCLUDED_RESPONSE_HEADERS : gset string :=
  {[ "connection"; "keep-alive"; "proxy-authenticate"; "proxy-authorization";
     "te"; "trailer"; "transfer-encoding"; "upgrade"; "x-internal-" ]}.

(** The hop-by-hop header names of the specification (RFC 7230, 6.1). *)
Definition HOP_BY_HOP : gset string :=
  {[ "connection"; "keep-alive"; "proxy-authenticate"; "proxy-authorization";
     "te"; "trailer"; "transfer-encoding"; "upgrade" ]}.

Definition keepRequestHeader (k : string) : bool :=
  negb (bool_decide (toLowerCase k ∈ EXCLUDED_REQUEST_HEADERS)).

Definition keepResponseHeader (key : string) : bool :=
  negb (startsWith (toLowerCase key) "x-internal-")
  && negb (bool_decide (toLowerCase key ∈ EXCLUDED_RESPONSE_HEADERS)).

(** [Object.entries(headers ?? {}).forEach(([k, v]) => { if (...) filtered[k] = v })]:
    a fold over the entries that inserts the kept ones into a fresh object. *)
Definition filterRequestHeaders (headers : option Headers) : Headers :=
  map_fold (fun k v (filtered : Headers) =>
              if keepRequestHeader k then <[k := v]> filtered else filtered)
           ∅ (default ∅ headers).

Definition filterResponseHeaders (headers : option Headers) : Headers :=
  map_fold (fun key value (filtered : Headers) =>
              if keepResponseHeader key then <[key := value]> filtered
              else filtered)
           ∅ (default ∅ headers).

(** ** Errors *)

(** Axios' view of an HTTP response. *)
Record AxiosResponse : Type := mkAxiosResponse {
  resp_status : Z;
  resp_headers : option Headers;
  resp_data : JsValue
}.

(** [class ApiGatewayError extends Error]; [new Error(undefined).message] is
    the empty string. *)
Record ApiGatewayError : Type := mkApiGatewayError {
  gerr_status : Z;
  gerr_code : string;
  gerr_message : string;
  gerr_data : JsValue
}.

Definition newApiGatewayError (status : Z) (code : string)
    (message : option string) (data : JsValue) : ApiGatewayError :=
  mkApiGatewayError status code (default "" message) data.

(** The fields of an [AxiosError] the gateway looks at.  [axe_request] is
    [Some s] when a request object is attached, [s] being [String(err.request)]. *)
Record AxiosError : Type := mkAxiosError {
  axe_code : option string;
  axe_message : string;
  axe_request : option string;
  axe_response : option AxiosResponse
}.

(** What a [catch] clause can receive. *)
Inductive JsError : Type :=
| EAxios (e : AxiosError)            (* err instanceof AxiosError *)
| EGateway (e : ApiGatewayError)     (* err instanceof ApiGatewayError *)
| EError (name message : string)     (* any other Error: TypeError, ... *)
| EThrown (v : JsValue).             (* a thrown value that is not an Error *)

(** ** RetryStrategy ([src/retry.ts]) *)

Record RetryStrategy : Type := mkRetryStrategy {
  maxRetries : Z;
  baseDelay : Z;
  maxDelay : Z;
  retryableStatus : gset Z
}.

Record RetryStrategyOptions : Type := mkRetryStrategyOptions {
  opt_maxRetries : option Z;
  opt_baseDelay : option Z;
  opt_maxDelay : option Z;
  opt_retryableStatus : option (list Z)
}.

Definition newRetryStrategy (opts : option RetryStrategyOptions) : RetryStrategy :=
  {| maxRetries := default 3 (opts ≫= opt_maxRetries);
     baseDelay := default 1000 (opts ≫= opt_baseDelay);
     maxDelay := default 5000 (opts ≫= opt_maxDelay);
     retryableStatus :=
       match opts ≫= opt_retryableStatus with
       | Some statuses => list_to_set statuses
       | None => {[ 500; 502; 503; 504 ]}
       end |}.

Definition shouldRetry (rs : RetryStrategy) (err : JsError) (attempt : Z) : bool :=
  match err with
  | EAxios e =>
      if bool_decide (axe_code e = Some "ECONNABORTED") then
        attempt <? maxRetries rs
      else
        match axe_response e with
        | Some response =>
            (attempt <? maxRetries rs)
            && bool_decide (resp_status response ∈ retryableStatus rs)
        | None => false
        end
  | EGateway e =>
      (attempt <? maxRetries rs)
      && bool_decide (gerr_status e ∈ retryableStatus rs)
  | _ => false
  end.

(** [Math.min(this.maxDelay, this.baseDelay * Math.pow(2, attempt))], for a
    non-negative integer [attempt]. *)
Definition exponentialDelay (rs : RetryStrategy) (attempt : Z) : Z :=
  Z.min (maxDelay rs) (baseDelay rs * 2 ^ attempt).

(** [Math.random() * 10], [random] being the value of [Math.random()]. *)
Definition jitter (random : Q) : Q := (random * 10)%Q.

(** The duration handed to [setTimeout] by [delay(attempt)]. *)
Definition sleepDuration (rs : RetryStrategy) (attempt : Z) (random : Q) : Q :=
  (inject_Z (exponentialDelay rs attempt) + jitter random)%Q.

(** ** Load balancers ([src/load-balancer.ts]) *)

(** [Instance] of the registry package, with the fields the specification lists. *)
Record Instance : Type := mkInstance {
  inst_id : string;
  serviceType : string;
  host : string;
  port : Z;
  healthy : bool;
  created : Z;
  lastUpdated : Z
}.

(** The result of a synchronous call: a value or a thrown error. *)
Inductive Result (A : Type) : Type :=
| Ok (a : A)
| Raise (e : JsError).
Arguments Ok {A} a.
Arguments Raise {A} e.

(** [arr[i]] for an integer [i]: [None] is [undefined]. *)
Definition arrayGet {A : Type} (arr : list A) (i : Z) : option A :=
  if i <? 0 then None else arr !! Z.to_nat i.

Definition typeErrorRead (what : string) : JsError :=
  EError "TypeError" ("Cannot read properties of undefined (reading '" +:+ what +:+ "')").

Module RoundRobinBalancer.

(** The field [serviceTypes : Map<string, number>] is a [gmap string Z];
    [empty] is the constructor's [new Map()]. *)
Definition empty : gmap string Z := ∅.

(** Returns the picked instance ([None] is [undefined]) and the updated map. *)
Definition selectInstance (serviceTypes : gmap string Z)
    (instances : list Instance) : Result (option Instance * gmap string Z) :=
  match instances with
  | [] => Raise (typeErrorRead "serviceType")
  | first :: _ =>
      let type := serviceType first in
      let idx := default 0 (serviceTypes !! type) in
      let idx := if idx >? Z.of_nat (length instances) - 1 then 0 else idx in
      let instance := arrayGet instances idx in
      Ok (instance,
          <[type := Z.rem (idx + 1) (Z.of_nat (length instances))]> serviceTypes)
  end.

(** [k] successive calls with the same list: the picks in order and the
    final map ([None] if a call threw). *)
Fixpoint selectMany (k : nat) (serviceTypes : gmap string Z)
    (instances : list Instance) : option (list (option Instance) * gmap string Z) :=
  match k with
  | O => Some ([], serviceTypes)
  | S k' =>
      match selectInstance serviceTypes instances with
      | Raise _ => None
      | Ok (pick, serviceTypes') =>
          match selectMany k' serviceTypes' instances with
          | None => None
          | Some (picks, final) => Some (pick :: picks, final)
          end
      end
  end.

(** The maps a balancer can hold: the constructor's, and those left by
    [selectInstance] on any list it accepts. *)
Inductive reachable : gmap string Z -> Prop :=
| reachable_new : reachable empty
| reachable_select m instances pick m' :
    reachable m ->
    selectInstance m instances = Ok (pick, m') ->
    reachable m'.

End RoundRobinBalancer.

Module RandomBalancer.

(** [random] is the value [Math.random()] returns in the call. *)
Definition selectInstance (random : Q) (instances : list Instance)
    : option Instance :=
  let randomIdx := Qfloor (random * inject_Z (Z.of_nat (length instances))) in
  arrayGet instances randomIdx.

End RandomBalancer.

(** ** The gateway ([api-gateway.ts]) *)

Inductive ApiGatewayStatus : Type :=
| GATEWAY_STARTING
| REGISTRY_HEALTH_CHECK_FAIL
| GATEWAY_ACTIVE
| SHUTTING_DOWN
| ATTEMPTING_REREGISTRATION.

#[global] Instance ApiGatewayStatus_eq_dec : EqDecision ApiGatewayStatus.
Proof. solve_decision. Defined.

(** The status type is a union of string literals; this is the string. *)
Definition statusString (s : ApiGatewayStatus) : string :=
  match s with
  | GATEWAY_STARTING => "GATEWAY_STARTING"
  | REGISTRY_HEALTH_CHECK_FAIL => "REGISTRY_HEALTH_CHECK_FAIL"
  | GATEWAY_ACTIVE => "GATEWAY_ACTIVE"
  | SHUTTING_DOWN => "SHUTTING_DOWN"
  | ATTEMPTING_REREGISTRATION => "ATTEMPTING_REREGISTRATION"
  end.

Definition statusMessage (status : ApiGatewayStatus) : string :=
  match status with
  | ATTEMPTING_REREGISTRATION =>
      "Attempting to re-register with service registry. Check back shortly"
  | REGISTRY_HEALTH_CHECK_FAIL =>
      "Health check on service registry failed, attempting retry. Check back shortly"
  | SHUTTING_DOWN => "Gateway has encountered an error and is shutting down"
  | _ => "Gateway is starting. Please check back shortly"
  end.

(** [ApiGatewayError.fromStatus]. *)
Definition fromStatus (status : ApiGatewayStatus) : ApiGatewayError :=
  newApiGatewayError 503 (statusString status) (Some (statusMessage status))
                     JUndefined.

Record RegistryHeaders : Type := mkRegistryHeaders {
  x_service_id : string;
  x_service_token : string
}.

Record RegistrationResponse : Type := mkRegistrationResponse {
  serviceId : string;
  token : string
}.

(** [ApiResponse]: [data] is [JUndefined] and [error] is [None] when the
    property is absent. *)
Record ErrorResponse : Type := mkErrorResponse {
  err_code : JsValue;
  err_message : JsValue
}.

Record ApiResponse : Type := mkApiResponse {
  success : bool;
  timestamp : Z;
  data : JsValue;
  error : option ErrorResponse
}.

(** The part of the express [Request] the gateway reads. *)
Record Request : Type := mkRequest {
  req_method : string;
  req_headers : option Headers;
  req_body : JsValue
}.

Inductive FailStrategy : Type := TryAgain | Shutdown.

(** The fields of [ApiGateway] that only the constructor assigns. *)
Record Config : Type := mkConfig {
  registryUrl : string;
  timeout : Z;
  totalTimeout : Z;
  healthChecks : bool;
  healthCheckInterval : Z;
  healthCheckFailStrategy : FailStrategy;
  retryStrategy : RetryStrategy
}.

Inductive Balancer : Type :=
| RoundRobin (serviceTypes : gmap string Z)
| Random.

(** The fields of [ApiGateway] its methods assign, and how many times each
    source of outside input has been consulted so far. *)
Record World : Type := mkWorld {
  status : ApiGatewayStatus;
  gw_port : option Z;
  registryHeaders : option RegistryHeaders;
  healthCheckTimeout : option nat;
  loadBalancer : Balancer;
  clockReads : nat;
  randomDraws : nat;
  postCalls : nat;
  getCalls : nat;
  requestCalls : nat;
  timersSet : nat
}.

(** How an awaited axios call settles. *)
Inductive Outcome (A : Type) : Type :=
| Resolved (a : A)
| RejectedWith (e : JsError).
Arguments Resolved {A} a.
Arguments RejectedWith {A} e.

(** Everything the gateway obtains from outside: the environment variable,
    the URL parser, the clock, the random generator and, per kind of
    outbound call, how the n-th call settles.  [axiosPost] gives the [data]
    of the registration response ([None]: no object to destructure),
    [axiosGet] the [data.data] of the registry's envelope ([None]:
    [undefined]). *)
Record Env : Type := mkEnv {
  SERVICE_REGISTRATION_KEY : option string;
  newURL : string -> string -> option string;
  dateNow : nat -> Z;
  mathRandom : nat -> Q;
  axiosPost : nat -> Outcome (option RegistrationResponse);
  axiosGet : nat -> Outcome (option (list Instance));
  axiosRequest : nat -> Outcome AxiosResponse
}.

(** Outbound HTTP calls, with the arguments the source passes. *)
Inductive HttpCall : Type :=
| Post (url : string) (body_port : option Z) (body_serviceType : string)
       (authorization : string)
| Get (path : string) (baseURL : string) (headers : option RegistryHeaders)
| RequestCall (method : string) (url : string) (headers : Headers)
              (body : JsValue) (timeout : Z).

(** Calls on the express [Response]. *)
Inductive ResCall : Type :=
| ResSet (headers : Headers)
| ResStatus (code : Z)
| ResJson (body : ApiResponse).

(** What a run does to the outside, in order.  [EvEmit] records the gateway
    status a listener of the signal observes. *)
Inductive Event : Type :=
| EvHttp (c : HttpCall)
| EvSleep (ms : Q)
| EvSetTimeout (ms : Z)
| EvRes (c : ResCall)
| EvEmit (signal : string) (observed : ApiGatewayStatus).

(** *** The monad of gateway methods: state, trace, exceptions *)

Inductive Completion (A : Type) : Type :=
| Normal (a : A)
| Throw (e : JsError)
| OutOfFuel.
Arguments Normal {A} a.
Arguments Throw {A} e.
Arguments OutOfFuel {A}.

Definition M (A : Type) : Type := World -> Completion A * World * list Event.

Definition ret {A} (a : A) : M A := fun w => (Normal a, w, []).

Definition bind {A B} (m : M A) (k : A -> M B) : M B :=
  fun w =>
    match m w with
    | (Normal a, w1, t1) =>
        match k a w1 with (c, w2, t2) => (c, w2, t1 ++ t2) end
    | (Throw e, w1, t1) => (Throw e, w1, t1)
    | (OutOfFuel, w1, t1) => (OutOfFuel, w1, t1)
    end.

Definition throw {A} (e : JsError) : M A := fun w => (Throw e, w, []).

Definition outOfFuel {A} : M A := fun w => (OutOfFuel, w, []).

(** [try { body } catch (e) { handler e }]. *)
Definition tryCatch {A} (body : M A) (handler : JsError -> M A) : M A :=
  fun w =>
    match body w with
    | (Throw e, w1, t1) =>
        match handler e w1 with (c, w2, t2) => (c, w2, t1 ++ t2) end
    | r => r
    end.

Definition getWorld : M World := fun w => (Normal w, w, []).
Definition setWorld (f : World -> World) : M unit := fun w => (Normal tt, f w, []).
Definition emit (e : Event) : M unit := fun w => (Normal tt, w, [e]).

Declare Scope gw_scope.
Delimit Scope gw_scope with gw.
Notation "x <- m ;; k" := (bind m (fun x => k))
  (at level 100, m at next level, right associativity) : gw_scope.
Notation "m ;; k" := (bind m (fun _ => k))
  (at level 100, right associativity) : gw_scope.
Open Scope gw_scope.

(** A promise that has settled.  Calling an [async] function never throws:
    it hands back a promise; only [await] turns a rejection into a throw. *)
Inductive Promise (A : Type) : Type :=
| Fulfilled (a : A)
| Rejected (e : JsError).
Arguments Fulfilled {A} a.
Arguments Rejected {A} e.

(** Call of an [async] function, run up to the settlement of its promise. *)
Definition callAsync {A} (m : M A) : M (Promise A) :=
  fun w =>
    match m w with
    | (Normal a, w1, t1) => (Normal (Fulfilled a), w1, t1)
    | (Throw e, w1, t1) => (Normal (Rejected e), w1, t1)
    | (OutOfFuel, w1, t1) => (OutOfFuel, w1, t1)
    end.

(** [await p]; also how the promise of an [async] function settles when its
    body returns the promise [p]. *)
Definition await {A} (p : Promise A) : M A :=
  match p with
  | Fulfilled a => ret a
  | Rejected e => throw e
  end.

Definition settle {A} (o : Outcome A) : M A :=
  match o with
  | Resolved a => ret a
  | RejectedWith e => throw e
  end.

(** *** Field updates of [World] *)

Definition withStatus (s : ApiGatewayStatus) (w : World) : World :=
  mkWorld s (gw_port w) (registryHeaders w) (healthCheckTimeout w)
          (loadBalancer w) (clockReads w) (randomDraws w) (postCalls w)
          (getCalls w) (requestCalls w) (timersSet w).

Definition withRegistration (p : option Z) (h : RegistryHeaders) (w : World)
    : World :=
  mkWorld GATEWAY_ACTIVE p (Some h) (healthCheckTimeout w)
          (loadBalancer w) (clockReads w) (randomDraws w) (postCalls w)
          (getCalls w) (requestCalls w) (timersSet w).

Definition withTimer (w : World) : World :=
  mkWorld (status w) (gw_port w) (registryHeaders w) (Some (timersSet w))
          (loadBalancer w) (clockReads w) (randomDraws w) (postCalls w)
          (getCalls w) (requestCalls w) (S (timersSet w)).

Definition withBalancer (b : Balancer) (w : World) : World :=
  mkWorld (status w) (gw_port w) (registryHeaders w) (healthCheckTimeout w)
          b (clockReads w) (randomDraws w) (postCalls w)
          (getCalls w) (requestCalls w) (timersSet w).

Definition tickClock (w : World) : World :=
  mkWorld (status w) (gw_port w) (registryHeaders w) (healthCheckTimeout w)
          (loadBalancer w) (S (clockReads w)) (randomDraws w) (postCalls w)
          (getCalls w) (requestCalls w) (timersSet w).

Definition tickRandom (w : World) : World :=
  mkWorld (status w) (gw_port w) (registryHeaders w) (healthCheckTimeout w)
          (loadBalancer w) (clockReads w) (S (randomDraws w)) (postCalls w)
          (getCalls w) (requestCalls w) (timersSet w).

Definition tickPost (w : World) : World :=
  mkWorld (status w) (gw_port w) (registryHeaders w) (healthCheckTimeout w)
          (loadBalancer w) (clockReads w) (randomDraws w) (S (postCalls w))
          (getCalls w) (requestCalls w) (timersSet w).

Definition tickGet (w : World) : World :=
  mkWorld (status w) (gw_port w) (registryHeaders w) (healthCheckTimeout w)
          (loadBalancer w) (clockReads w) (randomDraws w) (postCalls w)
          (S (getCalls w)) (requestCalls w) (timersSet w).

Definition tickRequest (w : World) : World :=
  mkWorld (status w) (gw_port w) (registryHeaders w) (healthCheckTimeout w)
          (loadBalancer w) (clockReads w) (randomDraws w) (postCalls w)
          (getCalls w) (S (requestCalls w)) (timersSet w).

(** Loop control of a [while (true)] body: [return] or fall through. *)
Inductive LoopStep : Type := Returned | Continue.

Definition GATEWAY_TIMEOUT_ERROR : ApiGatewayError :=
  newApiGatewayError 504 "GATEWAY_TIMEOUT" (Some "Request timed out") JUndefined.

Section Gateway.

Variable cfg : Config.
Variable env : Env.

(** **** Outside input *)

Definition Date_now : M Z :=
  fun w => (Normal (dateNow env (clockReads w)), tickClock w, []).

Definition Math_random : M Q :=
  fun w => (Normal (mathRandom env (randomDraws w)), tickRandom w, []).

Definition axios_post (url : string) (port : option Z) (authorization : string)
    : M (option RegistrationResponse) :=
  fun w =>
    match settle (axiosPost env (postCalls w)) (tickPost w) with
    | (c, w1, t) => (c, w1, EvHttp (Post url port "api-gateway" authorization) :: t)
    end.

Definition axios_get (path baseURL : string) (headers : option RegistryHeaders)
    : M (option (list Instance)) :=
  fun w =>
    match settle (axiosGet env (getCalls w)) (tickGet w) with
    | (c, w1, t) => (c, w1, EvHttp (Get path baseURL headers) :: t)
    end.

Definition axios_request (method url : string) (headers : Headers)
    (body : JsValue) (timeout : Z) : M AxiosResponse :=
  fun w =>
    match settle (axiosRequest env (requestCalls w)) (tickRequest w) with
    | (c, w1, t) =>
        (c, w1, EvHttp (RequestCall method url headers body timeout) :: t)
    end.

(** [this.healthCheckTimeout = setTimeout(() => this.checkRegistryHealth(), ms)]. *)
Definition scheduleHealthCheck (ms : Z) : M unit :=
  emit (EvSetTimeout ms) ;; setWorld withTimer.

(** [process.emit(signal)]; what the listeners do is outside the model. *)
Definition process_emit (signal : string) : M unit :=
  w <- getWorld ;; emit (EvEmit signal (status w)).

(** **** [RetryStrategy.delay] *)

Definition delay (attempt : Z) : M unit :=
  random <- Math_random ;;
  emit (EvSleep (sleepDuration (retryStrategy cfg) attempt random)).

(** **** [register] *)

Definition keyIsSet (key : option string) : option string :=
  match key with
  | Some k => if String.eqb k "" then None else Some k
  | None => None
  end.

Definition register (port : option Z) : M bool :=
  match keyIsSet (SERVICE_REGISTRATION_KEY env) with
  | None => throw (EError "Error" "SERVICE_REGISTRATION_KEY is required to be set")
  | Some key =>
      match newURL env "/service" (registryUrl cfg) with
      | None =>
          throw (EError "Error" ("Invalid registryUrl value: " +:+ registryUrl cfg))
      | Some url =>
          tryCatch
            (data <- axios_post url port ("Bearer " +:+ key) ;;
             match data with
             | None => throw (typeErrorRead "serviceId")
             | Some d =>
                 setWorld (withRegistration port
                             (mkRegistryHeaders (serviceId d) (token d))) ;;
                 (if healthChecks cfg
                  then scheduleHealthCheck (healthCheckInterval cfg)
                  else ret tt) ;;
                 ret true
             end)
            (fun error => ret false)
      end
  end.

(** **** Response shaping *)

Definition handleSuccessResponse (status : Z) (data : JsValue)
    (headers : option Headers) : M unit :=
  now <- Date_now ;;
  let response := mkApiResponse true now data None in
  emit (EvRes (ResSet (filterResponseHeaders headers))) ;;
  emit (EvRes (ResStatus status)) ;;
  emit (EvRes (ResJson response)).

Definition getPropM (v : JsValue) (k : string) : M JsValue :=
  match getProp v k with
  | Some x => ret x
  | None => throw (typeErrorRead k)
  end.

(** The classification part of [handleErrResponse]: status, data, code,
    message. *)
Definition classifyError (err : JsError) : M (Z * JsValue * JsValue * JsValue) :=
  match err with
  | EAxios e =>
      match axe_response e with
      | Some response =>
          let s := resp_status response in
          let resData := resp_data response in
          match resp_headers response with
          | Some headers => emit (EvRes (ResSet headers))
          | None => ret tt
          end ;;
          data <- getPropM resData "data" ;;
          resError <- getPropM resData "error" ;;
          if truthy resError && isString resError then
            ret (s, data, JStr "SERVICE_ERROR", resError)
          else if truthy resError then
            code <- getPropM resError "code" ;;
            message <- getPropM resError "message" ;;
            ret (s, data, code, message)
          else
            ret (s, data, JStr "SERVICE_ERROR", JStr "Unknown error occured")
      | None =>
          match axe_request e with
          | Some request => ret (502, JUndefined, JStr "GATEWAY_ERROR", JStr request)
          | None => ret (500, JUndefined, JStr "GATEWAY_ERROR", JStr (axe_message e))
          end
      end
  | EGateway e =>
      ret (gerr_status e, gerr_data e, JStr (gerr_code e), JStr (gerr_message e))
  | EError _ message => ret (500, JUndefined, JStr "UNKNOWN_ERROR", JStr message)
  | EThrown v => ret (500, JUndefined, JStr "UNKNOWN_ERROR", v)
  end.

Definition handleErrResponse (err : JsError) : M unit :=
  r <- classifyError err ;;
  let '(status, data, code, message) := r in
  now <- Date_now ;;
  let response :=
    mkApiResponse false now data (Some (mkErrorResponse code message)) in
  emit (EvRes (ResStatus status)) ;;
  emit (EvRes (ResJson response)).

(** **** The proxy pipeline *)

Definition getServices (serviceType : string) : M (option (list Instance)) :=
  w <- getWorld ;;
  axios_get ("/services/" +:+ serviceType) (registryUrl cfg) (registryHeaders w).

(** [this.loadBalancer.selectInstance(instances)]; [instances] is [None]
    when the registry's envelope carried no [data]. *)
Definition loadBalancer_selectInstance (instances : option (list Instance))
    : M (option Instance) :=
  w <- getWorld ;;
  match loadBalancer w with
  | RoundRobin serviceTypes =>
      match instances with
      | None => throw (typeErrorRead "0")
      | Some l =>
          match RoundRobinBalancer.selectInstance serviceTypes l with
          | Raise e => throw e
          | Ok (instance, serviceTypes') =>
              setWorld (withBalancer (RoundRobin serviceTypes')) ;;
              ret instance
          end
      end
  | Random =>
      random <- Math_random ;;
      match instances with
      | None => throw (typeErrorRead "length")
      | Some l => ret (RandomBalancer.selectInstance random l)
      end
  end.

(** The [while (true)] of [getServiceResponse]; [fuel] bounds the number of
    iterations. *)
Fixpoint getServiceResponseLoop (fuel : nat) (req : Request) (url : string)
    (startTime : Z) (filteredHeaders : Headers) (attempt : Z) : M unit :=
  match fuel with
  | O => outOfFuel
  | S fuel' =>
      step <- tryCatch
        (response <- axios_request (req_method req) url filteredHeaders
                                   (req_body req) (timeout cfg) ;;
         payload <- getPropM (resp_data response) "data" ;;
         handleSuccessResponse (resp_status response) payload
                               (resp_headers response) ;;
         ret Returned)
        (fun error =>
           if negb (shouldRetry (retryStrategy cfg) error attempt) then
             handleErrResponse error ;; ret Returned
           else
             now <- Date_now ;;
             if now - startTime >=? totalTimeout cfg then
               throw (EGateway GATEWAY_TIMEOUT_ERROR)
             else ret Continue) ;;
      match step with
      | Returned => ret tt
      | Continue =>
          let attempt := attempt + 1 in
          delay attempt ;;
          getServiceResponseLoop fuel' req url startTime filteredHeaders attempt
      end
  end.

(** Iterations the loop can need: [shouldRetry] is false once
    [attempt >= maxRetries]. *)
Definition retryFuel : nat := S (Z.to_nat (maxRetries (retryStrategy cfg))).

Definition getServiceResponse (req : Request) (url : string) : M unit :=
  startTime <- Date_now ;;
  let attempt := 0 in
  let filteredHeaders := filterRequestHeaders (req_headers req) in
  getServiceResponseLoop retryFuel req url startTime filteredHeaders attempt.

(** [handleRequest].  The [try] block ends with
    [return this.getServiceResponse(req, res, targetUrl)]: the promise is
    returned, not awaited, so [handleRequest] settles as that promise does
    and the [catch] clause sees only what is thrown before that point. *)
Definition handleRequest (req : Request) (serviceName remaining : string)
    : M unit :=
  p <- tryCatch
    (w <- getWorld ;;
     if bool_decide (status w <> GATEWAY_ACTIVE) then
       throw (EGateway (fromStatus (status w)))
     else
       instances <- getServices serviceName ;;
       service <- loadBalancer_selectInstance instances ;;
       match service with
       | None => throw (typeErrorRead "host")
       | Some service =>
           let targetUrl :=
             "https://" +:+ host service +:+ ":" +:+ pretty (port service)
                        +:+ "/" +:+ remaining in
           callAsync (getServiceResponse req targetUrl)
       end)
    (fun e => handleErrResponse e ;; ret (Fulfilled tt)) ;;
  await p.

(** **** Re-registration *)

(** The [while (true)] of [attemptReregister], [attempts] being its counter. *)
Fixpoint attemptReregisterLoop (fuel : nat) (attempts : Z) : M unit :=
  match fuel with
  | O => outOfFuel
  | S fuel' =>
      w <- getWorld ;;
      registered <- register (gw_port w) ;;
      if registered : bool then
        setWorld (withStatus GATEWAY_ACTIVE)
      else if attempts >=? 3 then
        setWorld (withStatus SHUTTING_DOWN) ;;
        process_emit "SIGTERM"
      else
        let attempts := attempts + 1 in
        delay attempts ;;
        attemptReregisterLoop fuel' attempts
  end.

Definition attemptReregister (fuel : nat) : M unit :=
  attemptReregisterLoop fuel 0.

End Gateway.

(** *** Reading a trace *)

Definition isBackendRequest (e : Event) : bool :=
  match e with EvHttp (RequestCall _ _ _ _ _) => true | _ => false end.

Definition isHttp (e : Event) : bool :=
  match e with EvHttp _ => true | _ => false end.

Definition isRegisterPost (e : Event) : bool :=
  match e with EvHttp (Post _ _ _ _) => true | _ => false end.

Definition isRes (e : Event) : bool :=
  match e with EvRes _ => true | _ => false end.

(** The header maps of the backend requests of a trace. *)
Definition backendHeaders (t : list Event) : list Headers :=
  omap (fun e => match e with
                 | EvHttp (RequestCall _ _ h _ _) => Some h
                 | _ => None
                 end) t.

(** The header maps handed to [res.set] in a trace. *)
Definition clientHeaders (t : list Event) : list Headers :=
  omap (fun e => match e with EvRes (ResSet h) => Some h | _ => None end) t.

(** ** Vocabulary of the specification *)

(** "A transport timeout": axios reports it with the code [ECONNABORTED]. *)
Definition isTransportTimeout (e : JsError) : Prop :=
  exists a, e = EAxios a /\ axe_code a = Some "ECONNABORTED".

(** "An HTTP error whose response status is in retryableStatuses". *)
Definition isRetryableHttpError (rs : RetryStrategy) (e : JsError) : Prop :=
  exists a r, e = EAxios a /\ axe_response a = Some r
              /\ resp_status r ∈ retryableStatus rs.

(** A gateway-originated [ApiGatewayError] whose status is retryable. *)
Definition isRetryableGatewayError (rs : RetryStrategy) (e : JsError) : Prop :=
  exists g, e = EGateway g /\ gerr_status g ∈ retryableStatus rs.

(** "Resets it to 0 if it is >= the list length": the cursor a round robin
    call works with, for a list of [n] instances. *)
Definition clampCursor (n : nat) (c : Z) : Z :=
  if Z.of_nat n <=? c then 0 else c.

(** A value [Math.random()] can return. *)
Definition unitInterval (r : Q) : Prop := (0 <= r /\ r < 1)%Q.

(** The registration POST did not deliver a credential. *)
Definition postFails (o : Outcome (option RegistrationResponse)) : Prop :=
  match o with
  | Resolved (Some _) => False
  | _ => True
  end.

(** A run whose trace is preceded by the events [t0]. *)
Definition prefixed {A} (t0 : list Event)
    (r : Completion A * World * list Event) : Completion A * World * list Event :=
  match r with (c, w, t) => (c, w, t0 ++ t) end.

(** The header names [filterRequestHeaders] and the hop-by-hop set share. *)
Definition STRIPPED_HOP_BY_HOP : gset string :=
  {[ "connection"; "transfer-encoding" ]}.

(** The hop-by-hop names [filterRequestHeaders] lets through. *)
Definition FORWARDED_HOP_BY_HOP : gset string :=
  {[ "keep-alive"; "proxy-authenticate"; "proxy-authorization"; "te";
     "trailer"; "upgrade" ]}.

(** A run from [w] that ends, issues no HTTP call and leaves the fields of
    the gateway alone. *)
Definition quiet {A} (w : World) (r : Completion A * World * list Event) : Prop :=
  r.1.1 <> OutOfFuel
  /\ requestCalls r.1.2 = requestCalls w
  /\ status r.1.2 = status w
  /\ Forall (fun ev => isHttp ev = false) r.2.

(** The outbound call [getServiceResponse] issues at every attempt. *)
Definition backendCall (cfg : Config) (req : Request) (url : string) : Event :=
  EvHttp (RequestCall (req_method req) url
            (filterRequestHeaders (req_headers req)) (req_body req)
            (timeout cfg)).

(** What the client is sent for a backend response [resp] whose body carries
    [payload] under [data], the clock reading [now]. *)
Definition successEvents (resp : AxiosResponse) (payload : JsValue) (now : Z)
    : list Event :=
  [EvRes (ResSet (filterResponseHeaders (resp_headers resp)));
   EvRes (ResStatus (resp_status resp));
   EvRes (ResJson (mkApiResponse true now payload None))].

(** What the client is sent when the gateway is in the non-active status [s]. *)
Definition gateEvents (s : ApiGatewayStatus) (now : Z) : list Event :=
  [EvRes (ResStatus 503);
   EvRes (ResJson (mkApiResponse false now JUndefined
                     (Some (mkErrorResponse (JStr (statusString s))
                                            (JStr (statusMessage s))))))].

(** The URL [handleRequest] builds for an instance. *)
Definition targetUrl (service : Instance) (remaining : string) : string :=
  "https://" +:+ host service +:+ ":" +:+ pretty (port service)
             +:+ "/" +:+ remaining.

(** The registry lookup [getServices] issues in the world [w]. *)
Definition registryCall (cfg : Config) (serviceName : string) (w : World) : Event :=
  EvHttp (Get ("/services/" +:+ serviceName) (registryUrl cfg) (registryHeaders w)).

(** The registration call [register] issues. *)
Definition registerCall (url : string) (port : option Z) (key : string) : Event :=
  EvHttp (Post url port "api-gateway" ("Bearer " +:+ key)).

(** The number of registration calls in a trace. *)
Definition registerAttempts (t : list Event) : nat :=
  length (List.filter isRegisterPost t).

(** The fields of the gateway object that [register] may assign. *)
Definition gatewayFields (w : World)
    : ApiGatewayStatus * option Z * option RegistryHeaders * option nat :=
  (status w, gw_port w, registryHeaders w, healthCheckTimeout w).

(** The world [register] leaves after a successful POST that delivered [d]. *)
Definition registered (cfg : Config) (port : option Z)
    (d : RegistrationResponse) (w : World) : World :=
  let w1 := withRegistration port (mkRegistryHeaders (serviceId d) (token d))
                             (tickPost w) in
  if healthChecks cfg then withTimer w1 else w1.

(** Every run of [m] is quiet. *)
Definition Quiet {A} (m : M A) : Prop := forall w, quiet w (m w).

(** Sample data used by the examples below. *)
Module Sample.

Definition strategy : RetryStrategy := newRetryStrategy None.

Definition config : Config :=
  mkConfig "http://localhost:3002" 5000 10000 true 10000 TryAgain strategy.

Definition products (n : Z) : Instance :=
  mkInstance "id" "products" "localhost" (3000 + n) true 0 0.

Definition world (s : ApiGatewayStatus) : World :=
  mkWorld s (Some 3001) (Some (mkRegistryHeaders "gw" "secret")) None
          Random 0 0 0 0 0 0.

Definition request : Request :=
  mkRequest "GET"
    (Some {[ "authorization" := HStr "Bearer client";
             "upgrade" := HStr "websocket";
             "accept" := HStr "*/*" ]})
    JUndefined.

Definition backendHeaders : Headers :=
  {[ "keep-alive" := HStr "timeout=5";
     "x-internal-trace" := HStr "t-1";
     "x-request-id" := HStr "r-1" ]}.

(** A backend 500 with an error envelope. *)
Definition backend500 : JsError :=
  EAxios (mkAxiosError (Some "ERR_BAD_RESPONSE")
            "Request failed with status code 500" (Some "[object Object]")
            (Some (mkAxiosResponse 500 (Some backendHeaders)
                     (JObj [("success", JBool false);
                            ("error", JObj [("code", JStr "BOOM");
                                            ("message", JStr "it broke")])])))).

Definition backend200 : AxiosResponse :=
  mkAxiosResponse 200 (Some backendHeaders)
    (JObj [("success", JBool true); ("timestamp", JNum 1);
           ("data", JObj [("message", JStr "ok")])]).

(** The registry refuses every registration and lists one instance; the
    backend answers the n-th request as [backend n]; the clock reads
    [clock n] at its n-th reading. *)
Definition env (clock : nat -> Z) (backend : nat -> Outcome AxiosResponse) : Env :=
  mkEnv (Some "abc123") (fun path base => Some (base +:+ path)) clock
        (fun _ => 0%Q)
        (fun _ => RejectedWith (EError "Error" "connect ECONNREFUSED"))
        (fun _ => Resolved (Some [products 1]))
        backend.

End Sample.

(** ** The health check loop ([checkRegistryHealth]) *)

(** What a health check does to the outside: the probe
    [axios.get(url, {headers, timeout})], or anything the gateway does
    elsewhere. *)
Inductive HealthEvent : Type :=
| HvProbe (url : string) (headers : option RegistryHeaders) (timeout : Z)
| HvBase (e : Event).

Definition MH (A : Type) : Type :=
  World -> Completion A * World * list HealthEvent.

Definition retH {A} (a : A) : MH A := fun w => (Normal a, w, []).

Definition bindH {A B} (m : MH A) (k : A -> MH B) : MH B :=
  fun w =>
    match m w with
    | (Normal a, w1, t1) =>
        match k a w1 with (c, w2, t2) => (c, w2, t1 ++ t2) end
    | (Throw e, w1, t1) => (Throw e, w1, t1)
    | (OutOfFuel, w1, t1) => (OutOfFuel, w1, t1)
    end.

Definition throwH {A} (e : JsError) : MH A := fun w => (Throw e, w, []).

(** A gateway method run inside a health check. *)
Definition liftH {A} (m : M A) : MH A :=
  fun w => match m w with (c, w1, t) => (c, w1, HvBase <$> t) end.

Declare Scope hv_scope.
Delimit Scope hv_scope with hv.
Notation "x <- m ;; k" := (bindH m (fun x => k))
  (at level 100, m at next level, right associativity) : hv_scope.
Notation "m ;; k" := (bindH m (fun _ => k))
  (at level 100, right associativity) : hv_scope.

(** [v === "UP"]. *)
Definition isUp (v : JsValue) : bool :=
  match v with JStr s => String.eqb s "UP" | _ => false end.

(** [data.data?.status], [data] being the body of the probe's response:
    [None] is the [TypeError] of reading [data] off [undefined] or [null]. *)
Definition healthStatusField (data : JsValue) : option JsValue :=
  match getProp data "data" with
  | None => None
  | Some inner =>
      match getProp inner "status" with
      | None => Some JUndefined          (* optional chaining *)
      | Some st => Some st
      end
  end.

(** The [try] block of a probe: the status it assigns, or what it throws. *)
Definition healthTry (o : Outcome JsValue) : Result ApiGatewayStatus :=
  match o with
  | RejectedWith error => Raise error
  | Resolved data =>
      match healthStatusField data with
      | None => Raise (typeErrorRead "data")
      | Some st =>
          if isUp st then Ok GATEWAY_ACTIVE else Ok REGISTRY_HEALTH_CHECK_FAIL
      end
  end.

(** The [catch] block of a probe: the status it leaves. *)
Definition healthCatch (error : JsError) : ApiGatewayStatus :=
  match error with
  | EAxios e =>
      match axe_response e with
      | Some response =>
          if resp_status response =? 401 then ATTEMPTING_REREGISTRATION
          else REGISTRY_HEALTH_CHECK_FAIL
      | None => REGISTRY_HEALTH_CHECK_FAIL
      end
  | _ => REGISTRY_HEALTH_CHECK_FAIL
  end.

(** The process start-up of [index.ts] ends by leaving the server listening
    or by calling [shutdown()]. *)
Inductive StartupOutcome : Type := Listening | ShutdownCalled.

Section Liveness.

Variable cfg : Config.
Variable env : Env.

(** How the n-th [axios.get] settles when it is a health probe: the body of
    the response. *)
Variable health : nat -> Outcome JsValue.

(** The [try]/[catch] of one probe: the call and the status it leaves. *)
Definition probeRegistry (url : string) : MH unit :=
  fun w =>
    let verdict :=
      match healthTry (health (getCalls w)) with
      | Ok s => s
      | Raise error => healthCatch error
      end in
    (Normal tt, withStatus verdict (tickGet w),
     [HvProbe url (registryHeaders w) (timeout cfg)]).

Definition rescheduleH : MH unit :=
  liftH (if healthChecks cfg
         then scheduleHealthCheck (healthCheckInterval cfg)
         else ret tt).

(** The [while (true)] of [checkRegistryHealth]; the [finally] block decides
    how the iteration ends. *)
Fixpoint checkRegistryHealthLoop (fuel : nat) (url : string) (attempts : Z)
    : MH unit :=
  match fuel with
  | O => fun w => (OutOfFuel, w, [])
  | S fuel' =>
      (probeRegistry url ;;
       w <- (fun w => (Normal w, w, [])) ;;
       if bool_decide (status w = GATEWAY_ACTIVE) then
         rescheduleH
       else if bool_decide (status w = REGISTRY_HEALTH_CHECK_FAIL)
               && (attempts <? 3) then
         liftH (delay cfg env attempts) ;;
         checkRegistryHealthLoop fuel' url (attempts + 1)
       else if bool_decide (status w = ATTEMPTING_REREGISTRATION) then
         liftH (attemptReregister cfg env 4)
       else if attempts >=? 3 then
         match healthCheckFailStrategy cfg with
         | Shutdown =>
             liftH (setWorld (withStatus SHUTTING_DOWN) ;;
                    process_emit "SIGTERM")%gw
         | TryAgain =>
             liftH (setWorld (withStatus REGISTRY_HEALTH_CHECK_FAIL))%gw ;;
             rescheduleH
         end
       else throwH (EError "Error" "unreachable"))%hv
  end.

Definition checkRegistryHealth (fuel : nat) : MH unit :=
  match newURL env "/service" (registryUrl cfg) with
  | None =>
      throwH (EError "Error" ("Invalid registryUrl value: " +:+ registryUrl cfg))
  | Some url => checkRegistryHealthLoop fuel url 0
  end.

(** The [while (true)] of the [app.listen] callback of [index.ts]. *)
Fixpoint startupLoop (fuel : nat) (port : Z) (attempts : Z)
    : M StartupOutcome :=
  match fuel with
  | O => outOfFuel
  | S fuel' =>
      let attempts := attempts + 1 in
      step <- tryCatch
        (registered <- register cfg env (Some port) ;;
         ret (if registered : bool then Some Listening else None))
        (fun error => ret (Some ShutdownCalled)) ;;
      match step with
      | Some outcome => ret outcome
      | None =>
          if attempts >=? 3 then ret ShutdownCalled
          else startupLoop fuel' port attempts
      end
  end.

Definition startup (fuel : nat) (port : Z) : M StartupOutcome :=
  startupLoop fuel port 0.

End Liveness.

(** *** Reading a trace, continued *)

(** The calls made on the express [Response], in order. *)
Definition resCalls (t : list Event) : list ResCall :=
  omap (fun e => match e with EvRes c => Some c | _ => None end) t.

(** The durations slept, in order. *)
Definition sleeps (t : list Event) : list Q :=
  omap (fun e => match e with EvSleep ms => Some ms | _ => None end) t.

(** The URLs of the backend requests, in order. *)
Definition backendUrls (t : list Event) : list string :=
  omap (fun e => match e with
                 | EvHttp (RequestCall _ url _ _ _) => Some url
                 | _ => None
                 end) t.

(** The events of a health check that are not probes. *)
Definition baseEvents (t : list HealthEvent) : list Event :=
  omap (fun e => match e with HvBase ev => Some ev | _ => None end) t.

Definition probeCount (t : list HealthEvent) : nat :=
  length (List.filter (fun e => match e with HvProbe _ _ _ => true | _ => false end) t).

Definition timersScheduled (t : list Event) : nat :=
  length (List.filter (fun e => match e with EvSetTimeout _ => true | _ => false end) t).

(** The statuses the listeners of the emitted signals observe. *)
Definition emitted (t : list Event) : list (string * ApiGatewayStatus) :=
  omap (fun e => match e with EvEmit sig st => Some (sig, st) | _ => None end) t.

(** An envelope has the shape of the wire format: a success carries no
    [error], a failure carries one. *)
Definition wellShaped (b : ApiResponse) : Prop :=
  if success b then error b = None else is_Some (error b).

(** The calls on [res] that answer a request once: headers, then one status
    and one body. *)
Definition answeredOnce (rc : list ResCall) : Prop :=
  exists hs s b, rc = (ResSet <$> hs) ++ [ResStatus s; ResJson b] /\ wellShaped b.

(** No status and no body was sent. *)
Definition unanswered (rc : list ResCall) : Prop :=
  exists hs, rc = ResSet <$> hs.

(** A health probe found the registry up. *)
Definition probeUp (o : Outcome JsValue) : Prop :=
  healthTry o = Ok GATEWAY_ACTIVE.

(** A health probe failed without a 401. *)
Definition probeDown (o : Outcome JsValue) : Prop :=
  match healthTry o with
  | Ok s => s = REGISTRY_HEALTH_CHECK_FAIL
  | Raise error => healthCatch error = REGISTRY_HEALTH_CHECK_FAIL
  end.

(** *** Vocabulary of the further properties *)

(** How a run has answered the client when it settles: once when it
    completes, not at all when it throws. *)
Definition settledAnswer (r : Completion unit * World * list Event) : Prop :=
  match r.1.1 with
  | Normal _ => answeredOnce (resCalls r.2)
  | Throw _ => unanswered (resCalls r.2)
  | OutOfFuel => False
  end.

(** The events the request path may produce: calls on [res], sleeps, the
    registry lookup and backend requests. *)
Definition proxyEvent (e : Event) : bool :=
  match e with
  | EvRes _ | EvSleep _ => true
  | EvHttp (Get _ _ _) | EvHttp (RequestCall _ _ _ _ _) => true
  | EvHttp (Post _ _ _ _) | EvSetTimeout _ | EvEmit _ _ => false
  end.

(** The body of an error response is [null] or [undefined]. *)
Definition nullBody (err : JsError) : Prop :=
  exists a r, err = EAxios a /\ axe_response a = Some r
              /\ getProp (resp_data r) "data" = None.

(** [res.set] calls as events. *)
Definition setEvents (hs : list Headers) : list Event :=
  (fun h => EvRes (ResSet h)) <$> hs.

(** A health-check run whose trace is preceded by the events [t0]. *)
Definition prefixedH {A} (t0 : list HealthEvent)
    (r : Completion A * World * list HealthEvent)
    : Completion A * World * list HealthEvent :=
  match r with (c, w, t) => (c, w, t0 ++ t) end.

(** The status a probe leaves. *)
Definition probeVerdict (o : Outcome JsValue) : ApiGatewayStatus :=
  match healthTry o with
  | Ok s => s
  | Raise error => healthCatch error
  end.

(** A health probe was answered 401. *)
Definition probeUnauthorized (o : Outcome JsValue) : Prop :=
  probeVerdict o = ATTEMPTING_REREGISTRATION.

(** The world after a probe that found the registry down and the sleep that
    follows it. *)
Definition afterDown (w : World) : World :=
  tickRandom (withStatus REGISTRY_HEALTH_CHECK_FAIL (tickGet w)).

(** The world after a refused registration and the sleep that follows it. *)
Definition afterRefusal (w : World) : World := tickRandom (tickPost w).

(** The [k] sleeps of a backoff whose first attempt number is [first] and
    whose first random draw is the [draw]-th. *)
Definition backoffs (cfg : Config) (env : Env) (first : Z) (draw k : nat)
    : list Q :=
  (fun i => sleepDuration (retryStrategy cfg) (first + Z.of_nat i)
              (mathRandom env (draw + i)%nat)) <$> seq 0 k.

(** Sample registries used by the examples below. *)
Module Registry.

Definition up : Outcome JsValue :=
  Resolved (JObj [("success", JBool true);
                  ("data", JObj [("status", JStr "UP")])]).

Definition down : Outcome JsValue :=
  Resolved (JObj [("success", JBool true);
                  ("data", JObj [("status", JStr "DOWN")])]).

Definition timedOut : Outcome JsValue :=
  RejectedWith (EAxios (mkAxiosError (Some "ECONNABORTED")
                          "timeout of 5000ms exceeded" (Some "[object Object]")
                          None)).

Definition unauthorized : Outcome JsValue :=
  RejectedWith (EAxios (mkAxiosError (Some "ERR_BAD_REQUEST")
                          "Request failed with status code 401"
                          (Some "[object Object]")
                          (Some (mkAxiosResponse 401 None JUndefined)))).

Definition refused : Outcome (option RegistrationResponse) :=
  RejectedWith (EError "Error" "connect ECONNREFUSED").

Definition accepted : Outcome (option RegistrationResponse) :=
  Resolved (Some (mkRegistrationResponse "gw-2" "fresh")).

(** [first] for the calls before the [k]-th, [next] from then on. *)
Definition after {A} (k : nat) (first next : A) : nat -> A :=
  fun n => if (n <? k)%nat then first else next.

(** A registry that answers the n-th registration as [post n]. *)
Definition env (post : nat -> Outcome (option RegistrationResponse)) : Env :=
  mkEnv (Some "abc123") (fun path base => Some (base +:+ path)) (fun _ => 0)
        (fun _ => 0%Q) post (fun _ => Resolved (Some []))
        (fun _ => RejectedWith (EError "Error" "connect ECONNREFUSED")).

Definition shutdownConfig : Config :=
  mkConfig "http://localhost:3002" 5000 10000 true 10000 Shutdown
           Sample.strategy.

End Registry.

(** * Properties *)

(** ** RetryStrategy *)

Lemma shouldRetry_attempt rs e a :
  shouldRetry rs e a = true -> a < maxRetries rs.
Proof.
  destruct e as [x|g|?|?]; simpl; try discriminate.
  - case_bool_decide as Hcode.
    + intros Hlt. apply Z.ltb_lt, Hlt.
    + destruct (axe_response x); [|discriminate].
      intros [Hlt _]%andb_prop. apply Z.ltb_lt, Hlt.
  - intros [Hlt _]%andb_prop. apply Z.ltb_lt, Hlt.
Qed.

(** C2, as the specification words it, fails on the gateway's own errors:
    an [ApiGatewayError] with status 500 is neither a transport timeout nor
    an HTTP error with a response, and [shouldRetry] accepts it. *)
Lemma shouldRetry_gateway_error_retried :
  let rs := newRetryStrategy None in
  let e := EGateway (newApiGatewayError 500 "err" None JUndefined) in
  ~ (shouldRetry rs e 1 = true <->
     1 < maxRetries rs /\ (isTransportTimeout e \/ isRetryableHttpError rs e)).
Proof.
  intros rs e [H _].
  assert (Hr : shouldRetry rs e 1 = true) by (vm_compute; reflexivity).
  destruct (H Hr) as [_ [(a & Ha & _) | (a & r & Ha & _)]]; discriminate Ha.
Qed.

(** C2 (amended): [shouldRetry(e, a)] is true exactly when [a < maxRetries]
    and [e] is a transport timeout, an HTTP error whose response status is
    retryable, or an [ApiGatewayError] whose status is retryable; for an
    error of none of these three shapes it is false at every attempt. *)
Theorem shouldRetry_iff (rs : RetryStrategy) (e : JsError) :
  (forall a, shouldRetry rs e a = true <->
             a < maxRetries rs
             /\ (isTransportTimeout e \/ isRetryableHttpError rs e
                 \/ isRetryableGatewayError rs e))
  /\ (~ (isTransportTimeout e \/ isRetryableHttpError rs e
         \/ isRetryableGatewayError rs e) ->
      forall a, shouldRetry rs e a = false).
Proof.
  assert (Hiff : forall a, shouldRetry rs e a = true <->
             a < maxRetries rs
             /\ (isTransportTimeout e \/ isRetryableHttpError rs e
                 \/ isRetryableGatewayError rs e)).
  { intros a. split.
    - intros H. split; [eapply shouldRetry_attempt, H|].
      destruct e as [x|g|?|?]; simpl in H; try discriminate.
      + case_bool_decide as Hc.
        * left. exists x. auto.
        * destruct (axe_response x) as [r|] eqn:Hr; [|discriminate].
          apply andb_prop in H as [_ H]. apply bool_decide_eq_true in H.
          right; left. exists x, r. auto.
      + apply andb_prop in H as [_ H]. apply bool_decide_eq_true in H.
        right; right. exists g. auto.
    - intros [Ha [(x & -> & Hc) | [(x & r & -> & Hr & Hs) | (g & -> & Hs)]]];
        simpl.
      + rewrite bool_decide_eq_true_2 by done. apply Z.ltb_lt, Ha.
      + case_bool_decide; [apply Z.ltb_lt, Ha|].
        rewrite Hr. apply andb_true_intro. split; [apply Z.ltb_lt, Ha|].
        apply bool_decide_eq_true_2, Hs.
      + apply andb_true_intro. split; [apply Z.ltb_lt, Ha|].
        apply bool_decide_eq_true_2, Hs. }
  split; [exact Hiff|].
  intros Hn a. destruct (shouldRetry rs e a) eqn:H; [|reflexivity].
  apply Hiff in H as [_ H]. contradiction.
Qed.

Lemma shouldRetry_iff_witness :
  shouldRetry Sample.strategy (EError "Error" "unknown") 1 = false.
Proof.
  destruct (shouldRetry_iff Sample.strategy (EError "Error" "unknown"))
    as [_ Hother].
  apply Hother.
  intros [(a & Ha & _) | [(a & r & Ha & _) | (g & Hg & _)]]; discriminate.
Defined.









(** ** Round robin *)

Section RoundRobin.

Import RoundRobinBalancer.

Variable first : Instance.
Variable rest : list Instance.

Let instances := first :: rest.
Let n := length instances.
Let T := serviceType first.

Let clamped := clampCursor n.

Lemma selectInstance_step (m : gmap string Z) :
  selectInstance m instances
  = Ok (arrayGet instances (clamped (default 0 (m !! T))),
        <[T := Z.rem (clamped (default 0 (m !! T)) + 1) (Z.of_nat n)]> m).
Proof.
  unfold selectInstance, clamped, clampCursor. subst instances n T. cbn [length].
  set (c := default 0 (m !! serviceType first)).
  replace (c >? Z.of_nat (S (length rest)) - 1) with (Z.of_nat (S (length rest)) <=? c)
    by lia.
  reflexivity.
Qed.

Lemma arrayGet_nat {A} (l : list A) (i : nat) : arrayGet l (Z.of_nat i) = l !! i.
Proof.
  unfold arrayGet. destruct (Z.ltb_spec (Z.of_nat i) 0); [lia|].
  by rewrite Nat2Z.id.
Qed.

(** From a cursor [c < n], [k] calls pick the elements [c, c+1, ...]
    modulo [n]. *)
Lemma selectMany_from (k : nat) : forall (m : gmap string Z) (c : nat),
  (c < n)%nat -> default 0 (m !! T) = Z.of_nat c ->
  exists final,
    selectMany k m instances
    = Some (map (fun j => instances !! ((c + j) mod n)%nat) (seq 0 k), final).
Proof.
  induction k as [|k IH]; intros m c Hc Hm.
  - exists m. reflexivity.
  - cbn [selectMany]. rewrite selectInstance_step, Hm.
    assert (Hcl : clamped (Z.of_nat c) = Z.of_nat c).
    { unfold clamped, clampCursor.
      destruct (Z.leb_spec (Z.of_nat n) (Z.of_nat c)); lia. }
    rewrite Hcl.
    assert (Hrem : Z.rem (Z.of_nat c + 1) (Z.of_nat n)
                   = Z.of_nat ((c + 1) mod n)%nat).
    { rewrite Z.rem_mod_nonneg by lia.
      rewrite Nat2Z.inj_mod. f_equal. lia. }
    rewrite Hrem.
    destruct (IH (<[T := Z.of_nat ((c + 1) mod n)%nat]> m) ((c + 1) mod n)%nat)
      as [final Hfinal].
    + apply Nat.mod_upper_bound. lia.
    + by rewrite lookup_insert_eq.
    + rewrite Hfinal. exists final. f_equal. f_equal.
      cbn [seq map]. f_equal.
      * rewrite arrayGet_nat, Nat.add_0_r, Nat.mod_small by exact Hc.
        reflexivity.
      * rewrite <- seq_shift, map_map. apply map_ext. intros j.
        f_equal. rewrite Nat.Div0.add_mod_idemp_l. f_equal. lia.
Qed.

Lemma reachable_nonneg (m : gmap string Z) :
  reachable m -> forall ty c, m !! ty = Some c -> 0 <= c.
Proof.
  induction 1 as [|m l pick m' Hreach IH Hsel]; intros ty c Hlook.
  - unfold empty in Hlook. by rewrite lookup_empty in Hlook.
  - destruct l as [|x l]; [discriminate Hsel|].
    unfold selectInstance in Hsel. injection Hsel as _ Hm'. subst m'.
    destruct (decide (serviceType x = ty)) as [Heq|Hne].
    + subst ty. rewrite lookup_insert_eq in Hlook. injection Hlook as Hc.
      subst c. set (c0 := default 0 (m !! serviceType x)).
      assert (H0 : 0 <= c0).
      { subst c0. destruct (m !! serviceType x) as [c1|] eqn:Hc1; simpl;
          [eauto|lia]. }
      apply Z.rem_nonneg; cbn [length]; [lia | destruct (_ >? _); lia].
    + rewrite lookup_insert_ne in Hlook by done. eauto.
Qed.

End RoundRobin.

(** C4: on a non-empty list whose first instance has service type [T], a
    [selectInstance] call of a round robin balancer reads the cursor of [T]
    (0 when absent), resets it to 0 when it is at least the list length,
    returns the instance at that index and stores [(index + 1) mod length],
    which lies in [[0, n)]; and [k] calls in a row with the same list,
    started at cursor [c], make the j-th pick element [(c + j - 1) mod n],
    that is element [(j - 1) mod n] for a new balancer or a type not served
    before. *)
Theorem roundRobin_rotation (first : Instance) (rest : list Instance) :
  let instances := first :: rest in
  let n := length instances in
  let T := serviceType first in
  (forall m, RoundRobinBalancer.reachable m ->
     let index := clampCursor n (default 0 (m !! T)) in
     let stored := (index + 1) `mod` Z.of_nat n in
     RoundRobinBalancer.selectInstance m instances
     = Ok (arrayGet instances index, <[T := stored]> m)
     /\ 0 <= index < Z.of_nat n
     /\ 0 <= stored < Z.of_nat n
     /\ RoundRobinBalancer.reachable (<[T := stored]> m))
  /\ (forall m k c, (c < n)%nat -> default 0 (m !! T) = Z.of_nat c ->
      exists picks final,
        RoundRobinBalancer.selectMany k m instances = Some (picks, final)
        /\ length picks = k
        /\ forall j, (1 <= j <= k)%nat ->
             picks !! (j - 1)%nat
             = Some (instances !! ((c + (j - 1)) mod n)%nat))
  /\ (forall k,
      exists picks final,
        RoundRobinBalancer.selectMany k RoundRobinBalancer.empty instances
        = Some (picks, final)
        /\ forall j, (1 <= j <= k)%nat ->
             picks !! (j - 1)%nat = Some (instances !! ((j - 1) mod n)%nat)).
Proof.
  intros instances n T.
  assert (Hmany : forall m k c, (c < n)%nat -> default 0 (m !! T) = Z.of_nat c ->
      exists picks final,
        RoundRobinBalancer.selectMany k m instances = Some (picks, final)
        /\ length picks = k
        /\ forall j, (1 <= j <= k)%nat ->
             picks !! (j - 1)%nat
             = Some (instances !! ((c + (j - 1)) mod n)%nat)).
  { intros m k c Hc Hm.
    destruct (selectMany_from first rest k m c Hc Hm) as [final Hfinal].
    fold instances in Hfinal. fold n in Hfinal.
    eexists _, final. split; [exact Hfinal|].
    split; [by rewrite length_map, length_seq|].
    intros j Hj.
    change (map ?f ?l) with (f <$> l).
    rewrite list_lookup_fmap, lookup_seq_lt by lia.
    reflexivity. }
  split; [|split; [exact Hmany|]].
  - intros m Hreach index stored.
    assert (Hc : 0 <= default 0 (m !! T)).
    { destruct (m !! T) as [c|] eqn:Hl; simpl; [|lia].
      eapply reachable_nonneg; eauto. }
    assert (Hn : 0 < Z.of_nat n) by (subst n instances; cbn [length]; lia).
    assert (Hidx : 0 <= index < Z.of_nat n).
    { subst index. unfold clampCursor.
      destruct (Z.leb_spec (Z.of_nat n) (default 0 (m !! T))); lia. }
    assert (Hsel : RoundRobinBalancer.selectInstance m instances
                   = Ok (arrayGet instances index, <[T := stored]> m)).
    { subst instances. rewrite selectInstance_step. subst stored index n T.
      rewrite Z.rem_mod_nonneg by lia. reflexivity. }
    split; [exact Hsel|]. split; [exact Hidx|].
    split; [apply Z.mod_pos_bound, Hn|].
    eapply RoundRobinBalancer.reachable_select; eauto.
  - intros k.
    destruct (Hmany RoundRobinBalancer.empty k 0%nat)
      as (picks & final & Hrun & _ & Hj).
    + subst n instances. cbn [length]. lia.
    + reflexivity.
    + exists picks, final. split; [exact Hrun|exact Hj].
Qed.

Lemma roundRobin_rotation_witness :
  let l := [Sample.products 0; Sample.products 1; Sample.products 2] in
  RoundRobinBalancer.selectInstance RoundRobinBalancer.empty l
  = Ok (Some (Sample.products 0), {[ "products" := 1 ]})
  /\ exists picks final,
       RoundRobinBalancer.selectMany 4 {[ "products" := 2 ]} l
       = Some (picks, final)
       /\ picks !! 1%nat = Some (Some (Sample.products 0)).
Proof.
  intros l.
  destruct (roundRobin_rotation (Sample.products 0)
              [Sample.products 1; Sample.products 2]) as (Hone & Hmany & _).
  split.
  - destruct (Hone RoundRobinBalancer.empty RoundRobinBalancer.reachable_new)
      as (Hsel & _).
    exact Hsel.
  - destruct (Hmany {[ "products" := 2 ]} 4%nat 2%nat)
      as (picks & final & Hrun & _ & Hj).
    + simpl. lia.
    + reflexivity.
    + exists picks, final. split; [exact Hrun|].
      apply (Hj 2%nat). lia.
Defined.

(** ** Header filters *)

Lemma fold_keep_lookup (keep : string -> bool) (h : Headers) (k : string) :
  map_fold (fun k v (filtered : Headers) =>
              if keep k then <[k := v]> filtered else filtered) ∅ h !! k
  = if keep k then h !! k else None.
Proof.
  revert k.
  apply (map_fold_weak_ind
           (fun (r : Headers) (m : Headers) =>
              forall k, r !! k = if keep k then m !! k else None)).
  - intros k. rewrite !lookup_empty. by destruct (keep k).
  - intros i x m r Hi IH k.
    destruct (decide (i = k)) as [->|Hne].
    + destruct (keep k) eqn:Hk.
      * by rewrite !lookup_insert_eq.
      * rewrite IH, Hk. reflexivity.
    + destruct (keep i).
      * rewrite !lookup_insert_ne by done. apply IH.
      * rewrite IH, lookup_insert_ne by done. reflexivity.
Qed.

Lemma filterRequestHeaders_lookup (headers : option Headers) (k : string) :
  filterRequestHeaders headers !! k
  = if keepRequestHeader k then default ∅ headers !! k else None.
Proof. apply fold_keep_lookup. Qed.

Lemma filterResponseHeaders_lookup (headers : option Headers) (k : string) :
  filterResponseHeaders headers !! k
  = if keepResponseHeader k then default ∅ headers !! k else None.
Proof. apply fold_keep_lookup. Qed.

(** The fold builds the inbound map restricted to the kept keys. *)
Lemma filterRequestHeaders_filter (headers : option Headers) :
  filterRequestHeaders headers
  = filter (fun kv => keepRequestHeader kv.1 = true) (default ∅ headers).
Proof.
  apply map_eq. intros k. rewrite filterRequestHeaders_lookup.
  destruct (keepRequestHeader k) eqn:Hk.
  - destruct (default ∅ headers !! k) as [v|] eqn:Hv.
    + symmetry. apply map_lookup_filter_Some. auto.
    + symmetry. apply map_lookup_filter_None. left. exact Hv.
  - symmetry. apply map_lookup_filter_None. right. intros v _. simpl.
    rewrite Hk. discriminate.
Qed.


Example filterRequestHeaders_ignores_case :
  filterRequestHeaders (Some {[ "Authorization" := HStr "Bearer client";
                                "Content-Length" := HStr "12";
                                "X-Trace" := HStr "abc" ]})
  = {[ "X-Trace" := HStr "abc" ]}.
Proof. vm_compute. reflexivity. Qed.

Example filterResponseHeaders_drops_internal :
  filterResponseHeaders (Some Sample.backendHeaders)
  = {[ "x-request-id" := HStr "r-1" ]}.
Proof. vm_compute. reflexivity. Qed.

(** ** The proxy pipeline *)

Section GatewayFacts.

Variable cfg : Config.
Variable env : Env.

Lemma Quiet_ret {A} (a : A) : Quiet (ret a).
Proof. intros w. repeat split; [discriminate | constructor]. Qed.

Lemma Quiet_throw {A} (e : JsError) : Quiet (@throw A e).
Proof. intros w. repeat split; [discriminate | constructor]. Qed.

Lemma Quiet_emit (ev : Event) : isHttp ev = false -> Quiet (emit ev).
Proof. intros H w. repeat split; [discriminate | by repeat constructor]. Qed.

Lemma Quiet_Date_now : Quiet (Date_now env).
Proof. intros w. repeat split; [discriminate | constructor]. Qed.

Lemma Quiet_Math_random : Quiet (Math_random env).
Proof. intros w. repeat split; [discriminate | constructor]. Qed.

Lemma Quiet_bind {A B} (m : M A) (k : A -> M B) :
  Quiet m -> (forall a, Quiet (k a)) -> Quiet (bind m k).
Proof.
  intros Hm Hk w. specialize (Hm w). unfold quiet, bind in *.
  destruct (m w) as [[[a|e|] w1] t1]; simpl in *.
  - specialize (Hk a w1). unfold quiet in Hk.
    destruct (k a w1) as [[c w2] t2]; simpl in *.
    destruct Hm as (_ & Hr & Hs & Ht). destruct Hk as (Hc & Hr2 & Hs2 & Ht2).
    repeat split; [exact Hc | congruence | congruence | by apply Forall_app].
  - destruct Hm as (_ & Hr & Hs & Ht). repeat split; [discriminate|..]; done.
  - destruct Hm as (Hc & _). by destruct Hc.
Qed.

Ltac quiet_tac :=
  repeat first
    [ apply Quiet_ret
    | apply Quiet_throw
    | apply Quiet_emit; reflexivity
    | apply Quiet_Date_now
    | apply Quiet_Math_random
    | apply Quiet_bind; [|intros]
    | match goal with
      | |- Quiet (match ?x with _ => _ end) => destruct x
      end ].

Lemma Quiet_handleErrResponse (e : JsError) : Quiet (handleErrResponse env e).
Proof.
  unfold handleErrResponse, classifyError, getPropM. quiet_tac.
Qed.

Lemma handleSuccessResponse_run s d h w :
  handleSuccessResponse env s d h w
  = (Normal tt, tickClock w,
     [EvRes (ResSet (filterResponseHeaders h)); EvRes (ResStatus s);
      EvRes (ResJson (mkApiResponse true (dateNow env (clockReads w)) d None))]).
Proof. reflexivity. Qed.

Lemma loop_unfold fuel req url startTime attempt w :
  getServiceResponseLoop cfg env (S fuel) req url startTime
    (filterRequestHeaders (req_headers req)) attempt w
  = prefixed [backendCall cfg req url]
      match axiosRequest env (requestCalls w) with
      | Resolved response =>
          match getProp (resp_data response) "data" with
          | Some payload =>
              handleSuccessResponse env (resp_status response) payload
                (resp_headers response) (tickRequest w)
          | None => handleErrResponse env (typeErrorRead "data") (tickRequest w)
          end
      | RejectedWith error =>
          if shouldRetry (retryStrategy cfg) error attempt then
            if dateNow env (clockReads w) - startTime >=? totalTimeout cfg then
              (Throw (EGateway GATEWAY_TIMEOUT_ERROR), tickClock (tickRequest w), [])
            else
              prefixed
                [EvSleep (sleepDuration (retryStrategy cfg) (attempt + 1)
                            (mathRandom env (randomDraws w)))]
                (getServiceResponseLoop cfg env fuel req url startTime
                   (filterRequestHeaders (req_headers req)) (attempt + 1)
                   (tickRandom (tickClock (tickRequest w))))
          else handleErrResponse env error (tickRequest w)
      end.
Proof.
  cbn [getServiceResponseLoop].
  unfold prefixed, backendCall, bind, tryCatch, axios_request, getPropM, delay,
    Date_now, Math_random, emit, ret, throw.
  destruct (axiosRequest env (requestCalls w)) as [response|error];
    cbn [settle ret throw].
  - destruct (getProp (resp_data response) "data") as [payload|].
    + rewrite handleSuccessResponse_run. reflexivity.
    + cbn [shouldRetry typeErrorRead negb].
      destruct (handleErrResponse env _ (tickRequest w)) as [[[[]|e|] w1] t1];
        cbn; rewrite ?app_nil_r; reflexivity.
  - destruct (shouldRetry (retryStrategy cfg) error attempt); cbn [negb].
    + cbn [tickRequest tickClock clockReads].
      destruct (_ >=? _).
      * reflexivity.
      * cbn.
        destruct (getServiceResponseLoop cfg env fuel req url startTime _ _ _)
          as [[c w1] t1]. reflexivity.
    + destruct (handleErrResponse env error (tickRequest w)) as [[[[]|e|] w1] t1];
        cbn; rewrite ?app_nil_r; reflexivity.
Qed.

Lemma prefixed_completion {A} t0 (r : Completion A * World * list Event) :
  (prefixed t0 r).1.1 = r.1.1.
Proof. by destruct r as [[c w] t]. Qed.

Lemma prefixed_trace {A} t0 (r : Completion A * World * list Event) :
  (prefixed t0 r).2 = t0 ++ r.2.
Proof. by destruct r as [[c w] t]. Qed.

(** [retryFuel] iterations are enough: the loop never runs out of fuel. *)
Lemma loop_terminates req url startTime fuel : forall attempt w,
  (Z.to_nat (maxRetries (retryStrategy cfg) - attempt) < fuel)%nat ->
  (getServiceResponseLoop cfg env fuel req url startTime
     (filterRequestHeaders (req_headers req)) attempt w).1.1 <> OutOfFuel.
Proof.
  induction fuel as [|fuel IH]; intros attempt w Hfuel; [lia|].
  rewrite loop_unfold, prefixed_completion.
  destruct (axiosRequest env (requestCalls w)) as [response|error].
  - destruct (getProp (resp_data response) "data").
    + discriminate.
    + apply Quiet_handleErrResponse.
  - destruct (shouldRetry (retryStrategy cfg) error attempt) eqn:Hretry.
    + apply shouldRetry_attempt in Hretry.
      destruct (_ >=? _); [discriminate|].
      rewrite prefixed_completion. apply IH. lia.
    + apply Quiet_handleErrResponse.
Qed.

Lemma backendHeaders_quiet t :
  Forall (fun ev => isHttp ev = false) t -> backendHeaders t = [].
Proof.
  induction 1 as [|ev t Hev _ IH]; [reflexivity|].
  unfold backendHeaders in *. cbn [omap list_omap]. rewrite IH.
  destruct ev as [[]| | | |]; try discriminate Hev; reflexivity.
Qed.

Lemma backendHeaders_app t1 t2 :
  backendHeaders (t1 ++ t2) = backendHeaders t1 ++ backendHeaders t2.
Proof. apply omap_app. Qed.

(** Every attempt of the loop carries the filtered inbound headers. *)
Lemma loop_backendHeaders req url startTime fuel : forall attempt w,
  Forall (fun h => h = filterRequestHeaders (req_headers req))
    (backendHeaders
       (getServiceResponseLoop cfg env fuel req url startTime
          (filterRequestHeaders (req_headers req)) attempt w).2).
Proof.
  induction fuel as [|fuel IH]; intros attempt w; [constructor|].
  rewrite loop_unfold, prefixed_trace, backendHeaders_app.
  apply Forall_app. split; [repeat constructor|].
  destruct (axiosRequest env (requestCalls w)) as [response|error].
  - destruct (getProp (resp_data response) "data").
    + constructor.
    + rewrite backendHeaders_quiet; [constructor|apply Quiet_handleErrResponse].
  - destruct (shouldRetry (retryStrategy cfg) error attempt).
    + destruct (_ >=? _); [constructor|].
      rewrite prefixed_trace, backendHeaders_app. apply Forall_app.
      split; [constructor|apply IH].
    + rewrite backendHeaders_quiet; [constructor|apply Quiet_handleErrResponse].
Qed.

(** When an attempt of the loop is answered, the loop returns after sending
    the re-wrapped payload, and nothing else, to the client. *)
Lemma loop_success req url startTime fuel : forall attempt w c w' t,
  getServiceResponseLoop cfg env fuel req url startTime
    (filterRequestHeaders (req_headers req)) attempt w = (c, w', t) ->
  forall k resp payload,
    (requestCalls w <= k < requestCalls w')%nat ->
    axiosRequest env k = Resolved resp ->
    getProp (resp_data resp) "data" = Some payload ->
    c = Normal tt
    /\ exists t0,
        t = t0 ++ successEvents resp payload (dateNow env (pred (clockReads w')))
        /\ Forall (fun ev => isRes ev = false) t0.
Proof.
  induction fuel as [|fuel IH]; intros attempt w c w' t Hrun k resp payload Hk Hresp Hdata.
  { injection Hrun as _ <- _. lia. }
  rewrite loop_unfold in Hrun.
  destruct (axiosRequest env (requestCalls w)) as [response|error] eqn:Hout.
  - destruct (getProp (resp_data response) "data") as [payload'|] eqn:Hp.
    + rewrite handleSuccessResponse_run in Hrun. injection Hrun as <- <- <-.
      cbn in Hk. assert (k = requestCalls w) by lia. subst k.
      rewrite Hout in Hresp. injection Hresp as <-.
      rewrite Hp in Hdata. injection Hdata as <-.
      split; [reflexivity|]. exists [backendCall cfg req url].
      split; [reflexivity|repeat constructor].
    + pose proof (Quiet_handleErrResponse (typeErrorRead "data") (tickRequest w))
        as (_ & Hcalls & _).
      destruct (handleErrResponse env _ (tickRequest w)) as [[c1 w1] t1].
      injection Hrun as <- <- <-. cbn in Hcalls. rewrite Hcalls in Hk.
      assert (k = requestCalls w) by lia. subst k.
      rewrite Hout in Hresp. injection Hresp as <-. congruence.
  - assert (Hne : k <> requestCalls w) by (intros ->; congruence).
    destruct (shouldRetry (retryStrategy cfg) error attempt).
    + destruct (_ >=? _).
      * injection Hrun as <- <- <-. cbn in Hk. lia.
      * destruct (getServiceResponseLoop cfg env fuel req url startTime _ _ _)
          as [[c1 w1] t1] eqn:Hrec.
        injection Hrun as <- <- <-.
        destruct (IH _ _ _ _ _ Hrec k resp payload) as (Hc & t0 & Ht & Hres);
          [cbn; lia|assumption|assumption|].
        split; [exact Hc|].
        eexists (_ :: _ :: t0). split; [rewrite Ht; reflexivity|].
        repeat constructor. exact Hres.
    + pose proof (Quiet_handleErrResponse error (tickRequest w))
        as (_ & Hcalls & _).
      destruct (handleErrResponse env _ (tickRequest w)) as [[c1 w1] t1].
      injection Hrun as <- <- <-. cbn in Hcalls. rewrite Hcalls in Hk. lia.
Qed.


Lemma getServiceResponse_run req url w :
  getServiceResponse cfg env req url w
  = getServiceResponseLoop cfg env (retryFuel cfg) req url
      (dateNow env (clockReads w)) (filterRequestHeaders (req_headers req)) 0
      (tickClock w).
Proof.
  unfold getServiceResponse, bind, Date_now.
  destruct (getServiceResponseLoop _ _ _ _ _ _ _ _ _) as [[c w1] t1].
  reflexivity.
Qed.

Lemma getServiceResponse_terminates req url w :
  (getServiceResponse cfg env req url w).1.1 <> OutOfFuel.
Proof.
  rewrite getServiceResponse_run. apply loop_terminates.
  unfold retryFuel. lia.
Qed.

(** The balancer call is silent and consults neither the clock nor axios. *)
Lemma selectInstance_run instances w :
  exists c w1,
    loadBalancer_selectInstance env instances w = (c, w1, [])
    /\ c <> OutOfFuel
    /\ requestCalls w1 = requestCalls w
    /\ clockReads w1 = clockReads w
    /\ status w1 = status w.
Proof.
  unfold loadBalancer_selectInstance, bind, getWorld, Math_random, setWorld,
    ret, throw.
  destruct (loadBalancer w) as [m|].
  - destruct instances as [l|]; [|by eexists _, _].
    destruct (RoundRobinBalancer.selectInstance m l) as [[inst m']|e];
      by eexists _, _.
  - destruct instances as [l|]; by eexists _, _.
Qed.

Lemma handleRequest_inactive req serviceName remaining w :
  status w <> GATEWAY_ACTIVE ->
  handleRequest cfg env req serviceName remaining w
  = (Normal tt, tickClock w,
     gateEvents (status w) (dateNow env (clockReads w))).
Proof.
  intros Hs. unfold handleRequest, bind, tryCatch, getWorld.
  rewrite bool_decide_eq_true_2 by exact Hs. reflexivity.
Qed.

Lemma handleRequest_active req serviceName remaining w :
  status w = GATEWAY_ACTIVE ->
  handleRequest cfg env req serviceName remaining w
  = prefixed [registryCall cfg serviceName w]
      match axiosGet env (getCalls w) with
      | RejectedWith e => handleErrResponse env e (tickGet w)
      | Resolved instances =>
          match loadBalancer_selectInstance env instances (tickGet w) with
          | (Normal (Some service), w1, _) =>
              getServiceResponse cfg env req (targetUrl service remaining) w1
          | (Normal None, w1, _) =>
              handleErrResponse env (typeErrorRead "host") w1
          | (Throw e, w1, _) => handleErrResponse env e w1
          | (OutOfFuel, w1, t1) => (OutOfFuel, w1, t1)
          end
      end.
Proof.
  intros Hs. unfold handleRequest, getServices.
  unfold bind, tryCatch, getWorld, axios_get, callAsync, registryCall, prefixed.
  rewrite bool_decide_eq_false_2 by (rewrite Hs; auto).
  destruct (axiosGet env (getCalls w)) as [instances|e]; cbn [settle ret throw].
  - destruct (selectInstance_run instances (tickGet w))
      as (c & w1 & -> & Hc & _).
    destruct c as [[service|]|e|]; [| | |done].
    + fold (targetUrl service remaining).
      destruct (getServiceResponse cfg env req _ w1) as [[[[]|e|] w2] t2];
        cbn; rewrite ?app_nil_r; reflexivity.
    + cbn -[handleErrResponse typeErrorRead].
      destruct (handleErrResponse env _ w1) as [[[[]|e|] w2] t2];
        cbn; rewrite ?app_nil_r; reflexivity.
    + cbn -[handleErrResponse].
      destruct (handleErrResponse env e w1) as [[[[]|e'|] w2] t2];
        cbn; rewrite ?app_nil_r; reflexivity.
  - cbn -[handleErrResponse].
    destruct (handleErrResponse env e (tickGet w)) as [[[[]|e'|] w2] t2];
      cbn; rewrite ?app_nil_r; reflexivity.
Qed.


(** **** Registration *)

Lemma register_run port w key url :
  keyIsSet (SERVICE_REGISTRATION_KEY env) = Some key ->
  newURL env "/service" (registryUrl cfg) = Some url ->
  register cfg env port w
  = prefixed [registerCall url port key]
      match axiosPost env (postCalls w) with
      | Resolved (Some d) =>
          (Normal true, registered cfg port d w,
           if healthChecks cfg then [EvSetTimeout (healthCheckInterval cfg)]
           else [])
      | _ => (Normal false, tickPost w, [])
      end.
Proof.
  intros Hkey Hurl. unfold register. rewrite Hkey, Hurl.
  unfold tryCatch, bind, axios_post, registerCall, prefixed, registered,
    scheduleHealthCheck, bind, emit, setWorld.
  destruct (axiosPost env (postCalls w)) as [[d|]|e]; cbn [settle ret throw];
    try reflexivity.
  destruct (healthChecks cfg); reflexivity.
Qed.

Lemma register_no_key port w :
  keyIsSet (SERVICE_REGISTRATION_KEY env) = None ->
  register cfg env port w
  = (Throw (EError "Error" "SERVICE_REGISTRATION_KEY is required to be set"),
     w, []).
Proof. intros Hkey. unfold register. rewrite Hkey. reflexivity. Qed.

Lemma register_bad_url port w key :
  keyIsSet (SERVICE_REGISTRATION_KEY env) = Some key ->
  newURL env "/service" (registryUrl cfg) = None ->
  exists e, register cfg env port w = (Throw e, w, []).
Proof. intros Hkey Hurl. unfold register. rewrite Hkey, Hurl. by eexists. Qed.

Lemma register_terminates port w :
  (register cfg env port w).1.1 <> OutOfFuel.
Proof.
  destruct (keyIsSet (SERVICE_REGISTRATION_KEY env)) as [key|] eqn:Hkey.
  - destruct (newURL env "/service" (registryUrl cfg)) as [url|] eqn:Hurl.
    + rewrite (register_run _ _ key url) by assumption.
      rewrite prefixed_completion.
      by destruct (axiosPost env (postCalls w)) as [[d|]|e].
    + destruct (register_bad_url port w key) as [e ->]; done.
  - by rewrite register_no_key.
Qed.

Lemma reregister_unfold fuel attempts w :
  attemptReregisterLoop cfg env (S fuel) attempts w
  = match register cfg env (gw_port w) w with
    | (Normal true, w1, t1) => (Normal tt, withStatus GATEWAY_ACTIVE w1, t1)
    | (Normal false, w1, t1) =>
        if attempts >=? 3 then
          (Normal tt, withStatus SHUTTING_DOWN w1,
           t1 ++ [EvEmit "SIGTERM" SHUTTING_DOWN])
        else
          prefixed
            (t1 ++ [EvSleep (sleepDuration (retryStrategy cfg) (attempts + 1)
                               (mathRandom env (randomDraws w1)))])
            (attemptReregisterLoop cfg env fuel (attempts + 1) (tickRandom w1))
    | (Throw e, w1, t1) => (Throw e, w1, t1)
    | (OutOfFuel, w1, t1) => (OutOfFuel, w1, t1)
    end.
Proof.
  cbn [attemptReregisterLoop].
  unfold bind at 1. unfold getWorld. unfold bind at 1.
  destruct (register cfg env (gw_port w) w) as [[[[]|e|] w1] t1];
    try reflexivity.
  - cbn. rewrite app_nil_r. reflexivity.
  - destruct (attempts >=? 3).
    + cbn. reflexivity.
    + unfold delay, process_emit, bind, Math_random, emit, prefixed.
      destruct (attemptReregisterLoop cfg env fuel (attempts + 1) (tickRandom w1))
        as [[c w2] t2].
      cbn. rewrite <- app_assoc. reflexivity.
Qed.

(** Four iterations are enough, whatever the registry answers. *)
Lemma reregister_terminates fuel : forall attempts w,
  (Z.to_nat (3 - attempts) < fuel)%nat ->
  (attemptReregisterLoop cfg env fuel attempts w).1.1 <> OutOfFuel.
Proof.
  induction fuel as [|fuel IH]; intros attempts w Hfuel; [lia|].
  rewrite reregister_unfold.
  pose proof (register_terminates (gw_port w) w) as Hreg.
  destruct (register cfg env (gw_port w) w) as [[[[]|e|] w1] t1];
    try discriminate; [|done].
  destruct (Z.geb_spec attempts 3); [discriminate|].
  rewrite prefixed_completion. apply IH. lia.
Qed.

End GatewayFacts.

(** ** The claims about the proxy pipeline *)

Lemma statusMessage_specific (s1 s2 : ApiGatewayStatus) :
  s1 <> GATEWAY_ACTIVE -> s2 <> GATEWAY_ACTIVE ->
  statusMessage s1 = statusMessage s2 -> s1 = s2.
Proof. destruct s1, s2; intros H1 H2 H; try reflexivity; try discriminate H; congruence. Qed.

Lemma handleRequest_http_active cfg env req serviceName remaining w :
  Exists (fun ev => isHttp ev = true)
         (handleRequest cfg env req serviceName remaining w).2 ->
  status w = GATEWAY_ACTIVE.
Proof.
  intros Hex. destruct (decide (status w = GATEWAY_ACTIVE)) as [|Hs]; [assumption|].
  rewrite handleRequest_inactive in Hex by exact Hs.
  cbn in Hex.
  repeat (apply Exists_cons in Hex as [Hex|Hex]; [discriminate Hex|]).
  by apply Exists_nil in Hex.
Qed.

(** C1: when the status is not [GATEWAY_ACTIVE] as [handleRequest] is called,
    the client is sent status 503 and the envelope with [success = false],
    [error.code] the status string and the message of that status, nothing
    else happens (no call to the registry or to a backend); an outbound call
    in a run of [handleRequest] implies that the status was
    [GATEWAY_ACTIVE]; and the messages of the four non-active statuses
    differ. *)
Theorem gate_on_status (cfg : Config) (env : Env) (req : Request)
    (serviceName remaining : string) (w : World) :
  (status w <> GATEWAY_ACTIVE ->
   handleRequest cfg env req serviceName remaining w
   = (Normal tt, tickClock w,
      [EvRes (ResStatus 503);
       EvRes (ResJson
                {| success := false;
                   timestamp := dateNow env (clockReads w);
                   data := JUndefined;
                   error := Some {| err_code := JStr (statusString (status w));
                                    err_message := JStr (statusMessage (status w)) |}
                |})]))
  /\ (Exists (fun ev => isHttp ev = true)
             (handleRequest cfg env req serviceName remaining w).2 ->
      status w = GATEWAY_ACTIVE)
  /\ (forall s1 s2, s1 <> GATEWAY_ACTIVE -> s2 <> GATEWAY_ACTIVE ->
        statusMessage s1 = statusMessage s2 -> s1 = s2).
Proof.
  split; [|split].
  - apply handleRequest_inactive.
  - apply handleRequest_http_active.
  - apply statusMessage_specific.
Qed.

Lemma gate_on_status_witness :
  let env := Sample.env (fun _ => 42) (fun _ => Resolved Sample.backend200) in
  handleRequest Sample.config env Sample.request "products" "all"
                (Sample.world GATEWAY_STARTING)
  = (Normal tt, tickClock (Sample.world GATEWAY_STARTING),
     [EvRes (ResStatus 503);
      EvRes (ResJson
               {| success := false; timestamp := 42; data := JUndefined;
                  error := Some {| err_code := JStr "GATEWAY_STARTING";
                                   err_message :=
                                     JStr "Gateway is starting. Please check back shortly" |}
               |})]).
Proof.
  intros env.
  destruct (gate_on_status Sample.config env Sample.request "products" "all"
              (Sample.world GATEWAY_STARTING)) as [Hgate _].
  apply Hgate. simpl. discriminate.
Defined.

(** C3: when a backend request issued by [handleRequest] is answered with
    status [s] and a body [b], the run completes and the client is sent the
    backend's filtered headers, the status [s] and exactly the envelope
    [{success: true, timestamp: t, data: b.data}], [t] being the gateway's
    own last clock reading; nothing else is sent to the client, and no field
    of [b] other than [data] reaches it. *)
Theorem success_rewraps (cfg : Config) (env : Env) (req : Request)
    (serviceName remaining : string) (w w' : World) (c : Completion unit)
    (t : list Event) (k : nat) (resp : AxiosResponse) (payload : JsValue) :
  handleRequest cfg env req serviceName remaining w = (c, w', t) ->
  (requestCalls w <= k < requestCalls w')%nat ->
  axiosRequest env k = Resolved resp ->
  getProp (resp_data resp) "data" = Some payload ->
  c = Normal tt
  /\ exists t0,
      t = t0 ++
          [EvRes (ResSet (filterResponseHeaders (resp_headers resp)));
           EvRes (ResStatus (resp_status resp));
           EvRes (ResJson {| success := true;
                             timestamp := dateNow env (pred (clockReads w'));
                             data := payload;
                             error := None |})]
      /\ Forall (fun ev => isRes ev = false) t0.
Proof.
  intros Hrun Hk Hresp Hdata.
  destruct (decide (status w = GATEWAY_ACTIVE)) as [Hs|Hs].
  2:{ rewrite handleRequest_inactive in Hrun by exact Hs.
      injection Hrun as _ <- _. cbn in Hk. lia. }
  rewrite handleRequest_active in Hrun by exact Hs.
  destruct (axiosGet env (getCalls w)) as [instances|e].
  - destruct (selectInstance_run env instances (tickGet w))
      as (c1 & w1 & Hsel & Hc1 & Hcalls & _).
    rewrite Hsel in Hrun.
    destruct c1 as [[service|]|e|]; [| | |done].
    + rewrite getServiceResponse_run in Hrun.
      destruct (getServiceResponseLoop _ _ _ _ _ _ _ _ _) as [[c2 w2] t2] eqn:Hloop.
      injection Hrun as <- <- <-.
      destruct (loop_success _ _ _ _ _ _ _ _ _ _ _ Hloop k resp payload)
        as (Hc & t0 & Ht & Hres); [cbn in *; lia|assumption|assumption|].
      split; [exact Hc|]. exists (registryCall cfg serviceName w :: t0).
      split; [rewrite Ht; reflexivity|]. constructor; [reflexivity|exact Hres].
    + pose proof (Quiet_handleErrResponse env (typeErrorRead "host") w1)
        as (_ & Hq & _).
      destruct (handleErrResponse env _ w1) as [[c2 w2] t2].
      injection Hrun as <- <- <-. cbn in *. lia.
    + pose proof (Quiet_handleErrResponse env e w1) as (_ & Hq & _).
      destruct (handleErrResponse env _ w1) as [[c2 w2] t2].
      injection Hrun as <- <- <-. cbn in *. lia.
  - pose proof (Quiet_handleErrResponse env e (tickGet w)) as (_ & Hq & _).
    destruct (handleErrResponse env _ (tickGet w)) as [[c2 w2] t2].
    injection Hrun as <- <- <-. cbn in *. lia.
Qed.

Lemma success_rewraps_witness :
  let env := Sample.env (fun n => Z.of_nat n) (fun _ => Resolved Sample.backend200) in
  exists t0,
    (handleRequest Sample.config env Sample.request "products" "all"
                   (Sample.world GATEWAY_ACTIVE)).2
    = t0 ++
      [EvRes (ResSet {[ "x-request-id" := HStr "r-1" ]});
       EvRes (ResStatus 200);
       EvRes (ResJson {| success := true; timestamp := 1;
                         data := JObj [("message", JStr "ok")];
                         error := None |})].
Proof.
  intros env.
  destruct (handleRequest Sample.config env Sample.request "products" "all"
              (Sample.world GATEWAY_ACTIVE)) as [[c w1] t] eqn:Hrun.
  assert (Hw : w1 = mkWorld GATEWAY_ACTIVE (Some 3001)
                      (Some (mkRegistryHeaders "gw" "secret")) None Random
                      2 1 0 1 1 0).
  { vm_compute in Hrun. injection Hrun as _ <- _. reflexivity. }
  destruct (success_rewraps Sample.config env Sample.request "products" "all"
              (Sample.world GATEWAY_ACTIVE) w1 c t 0 Sample.backend200
              (JObj [("message", JStr "ok")]) Hrun)
    as (_ & t0 & Ht & _).
  - rewrite Hw. simpl. lia.
  - reflexivity.
  - reflexivity.
  - exists t0. subst w1. exact Ht.
Defined.

(** ** Header hygiene *)

Lemma handleRequest_backendHeaders cfg env req serviceName remaining w :
  Forall (fun h => h = filterRequestHeaders (req_headers req))
    (backendHeaders (handleRequest cfg env req serviceName remaining w).2).
Proof.
  destruct (decide (status w = GATEWAY_ACTIVE)) as [Hs|Hs].
  2:{ rewrite handleRequest_inactive by exact Hs. constructor. }
  rewrite handleRequest_active by exact Hs.
  rewrite prefixed_trace, backendHeaders_app. apply Forall_app.
  split; [constructor|].
  destruct (axiosGet env (getCalls w)) as [instances|e].
  - destruct (selectInstance_run env instances (tickGet w))
      as (c1 & w1 & -> & Hc1 & _).
    destruct c1 as [[service|]|e|]; [| | |done].
    + rewrite getServiceResponse_run. apply loop_backendHeaders.
    + rewrite backendHeaders_quiet; [constructor|apply Quiet_handleErrResponse].
    + rewrite backendHeaders_quiet; [constructor|apply Quiet_handleErrResponse].
  - rewrite backendHeaders_quiet; [constructor|apply Quiet_handleErrResponse].
Qed.

Lemma handleRequest_terminates cfg env req serviceName remaining w :
  (handleRequest cfg env req serviceName remaining w).1.1 <> OutOfFuel.
Proof.
  destruct (decide (status w = GATEWAY_ACTIVE)) as [Hs|Hs].
  2:{ rewrite handleRequest_inactive by exact Hs. discriminate. }
  rewrite handleRequest_active by exact Hs.
  rewrite prefixed_completion.
  destruct (axiosGet env (getCalls w)) as [instances|e].
  - destruct (selectInstance_run env instances (tickGet w))
      as (c1 & w1 & -> & Hc1 & _).
    destruct c1 as [[service|]|e|]; [| | |done].
    + apply getServiceResponse_terminates.
    + apply Quiet_handleErrResponse.
    + apply Quiet_handleErrResponse.
  - apply Quiet_handleErrResponse.
Qed.

(** C5, as the specification words it, fails on the hop-by-hop headers that
    are not in [EXCLUDED_REQUEST_HEADERS]: an inbound [upgrade] header is
    sent on to the backend. *)
Lemma request_filter_forwards_upgrade :
  let env := Sample.env (fun _ => 0) (fun _ => Resolved Sample.backend200) in
  let t := (handleRequest Sample.config env Sample.request "products" "all"
              (Sample.world GATEWAY_ACTIVE)).2 in
  ~ (forall h k, h ∈ backendHeaders t ->
       toLowerCase k ∈ ({[ "authorization" ]} ∪ HOP_BY_HOP : gset string) ->
       h !! k = None).
Proof.
  intros env t H.
  specialize (H {[ "upgrade" := HStr "websocket"; "accept" := HStr "*/*" ]} "upgrade").
  assert (Hsome : ({[ "upgrade" := HStr "websocket"; "accept" := HStr "*/*" ]} : Headers)
                    !! "upgrade" = Some (HStr "websocket")) by reflexivity.
  rewrite H in Hsome; [discriminate| |].
  - assert (Ht : backendHeaders t
                 = [{[ "upgrade" := HStr "websocket"; "accept" := HStr "*/*" ]}])
      by (vm_compute; reflexivity).
    rewrite Ht. apply list_elem_of_singleton. reflexivity.
  - vm_compute. reflexivity.
Qed.

(** C5 (amended): every backend request [handleRequest] issues carries the
    inbound header map with the keys [host], [connection], [content-length],
    [transfer-encoding] and [authorization] removed under case-insensitive
    comparison, the kept keys with their casing and values; in particular
    [authorization], [connection] and [transfer-encoding] are absent from
    every outbound backend request, while the other hop-by-hop headers pass
    as the client sent them. *)
Theorem outbound_headers_filtered (cfg : Config) (env : Env) (req : Request)
    (serviceName remaining : string) (w : World) :
  let run := handleRequest cfg env req serviceName remaining w in
  let inbound := default ∅ (req_headers req) in
  let sent := filterRequestHeaders (req_headers req) in
  run.1.1 <> OutOfFuel
  /\ Forall (fun h => h = sent) (backendHeaders run.2)
  /\ (forall k, sent !! k
                = if bool_decide (toLowerCase k ∈ EXCLUDED_REQUEST_HEADERS)
                  then None else inbound !! k)
  /\ (forall h k, h ∈ backendHeaders run.2 ->
        toLowerCase k ∈ ({[ "authorization" ]} ∪ STRIPPED_HOP_BY_HOP : gset string) ->
        h !! k = None)
  /\ (forall h k, h ∈ backendHeaders run.2 ->
        toLowerCase k ∈ FORWARDED_HOP_BY_HOP ->
        h !! k = inbound !! k).
Proof.
  intros run inbound sent.
  assert (Hall : Forall (fun h => h = sent) (backendHeaders run.2))
    by apply handleRequest_backendHeaders.
  assert (Hlook : forall k, sent !! k
                = if bool_decide (toLowerCase k ∈ EXCLUDED_REQUEST_HEADERS)
                  then None else inbound !! k).
  { intros k. subst sent. rewrite filterRequestHeaders_lookup.
    unfold keepRequestHeader. by destruct (bool_decide _). }
  split; [apply handleRequest_terminates|].
  split; [exact Hall|]. split; [exact Hlook|].
  rewrite Forall_forall in Hall. split.
  - intros h k Hh Hk. rewrite (Hall h Hh), Hlook.
    rewrite bool_decide_eq_true_2; [reflexivity|].
    unfold EXCLUDED_REQUEST_HEADERS, STRIPPED_HOP_BY_HOP in *.
    rewrite !elem_of_union, !elem_of_singleton in Hk.
    rewrite !elem_of_union, !elem_of_singleton. tauto.
  - intros h k Hh Hk. rewrite (Hall h Hh), Hlook.
    rewrite bool_decide_eq_false_2; [reflexivity|].
    unfold EXCLUDED_REQUEST_HEADERS, FORWARDED_HOP_BY_HOP in *.
    rewrite !elem_of_union, !elem_of_singleton in Hk.
    rewrite !elem_of_union, !elem_of_singleton.
    intros Hex.
    repeat match goal with
           | H : _ \/ _ |- _ => destruct H
           end; congruence.
Qed.

Lemma outbound_headers_filtered_witness :
  let env := Sample.env (fun _ => 0) (fun _ => Resolved Sample.backend200) in
  let t := (handleRequest Sample.config env Sample.request "products" "all"
              (Sample.world GATEWAY_ACTIVE)).2 in
  Forall (fun h : Headers => h !! "authorization" = None) (backendHeaders t).
Proof.
  intros env t.
  destruct (outbound_headers_filtered Sample.config env Sample.request
              "products" "all" (Sample.world GATEWAY_ACTIVE))
    as (_ & _ & _ & Habsent & _).
  apply Forall_forall. intros h Hh.
  apply Habsent; [exact Hh|]. vm_compute. reflexivity.
Defined.

(** C6 fails on the code: for a backend 500 that carries [keep-alive] and
    [x-internal-trace], the error shaper hands the backend's header map to
    [res.set] as it is, where [filterResponseHeaders] would have kept
    [x-request-id] only. *)
Theorem error_path_forwards_raw_headers :
  let env := Sample.env (fun _ => 0) (fun _ => RejectedWith Sample.backend500) in
  let t := (handleRequest Sample.config env Sample.request "products" "all"
              (Sample.world GATEWAY_ACTIVE)).2 in
  clientHeaders t = [Sample.backendHeaders]
  /\ Sample.backendHeaders !! "keep-alive" = Some (HStr "timeout=5")
  /\ Sample.backendHeaders !! "x-internal-trace" = Some (HStr "t-1")
  /\ filterResponseHeaders (Some Sample.backendHeaders)
     = {[ "x-request-id" := HStr "r-1" ]}.
Proof. intros env t. repeat split; vm_compute; reflexivity. Qed.

(** The error shaper in general: the headers of an error response go to
    [res.set] unfiltered. *)
Lemma handleErrResponse_raw_headers env a response headers w :
  axe_response a = Some response ->
  resp_headers response = Some headers ->
  exists t, (handleErrResponse env (EAxios a) w).2 = EvRes (ResSet headers) :: t.
Proof.
  intros Hr Hh.
  assert (Hc : exists t, (classifyError (EAxios a) w).2 = EvRes (ResSet headers) :: t).
  { unfold classifyError. rewrite Hr, Hh. unfold bind at 1. unfold emit at 1.
    destruct (bind _ _ w) as [[c1 w1] t1]. by eexists. }
  destruct Hc as [t Hc]. unfold handleErrResponse. unfold bind at 1.
  destruct (classifyError (EAxios a) w) as [[[r|e|] w1] t1]; simpl in Hc; subst t1.
  - destruct (_ w1) as [[c2 w2] t2]. by eexists.
  - by eexists.
  - by eexists.
Qed.

(** C7 fails on the code: two attempts are refused with a retryable 500 and
    the clock has passed [totalTimeout] at the second check;
    [getServiceResponse] throws the 504 error, [handleRequest] rejects with
    it, and nothing is sent to the client, although the error shaper, had it
    been given that error, would have sent the 504 envelope. *)
Theorem total_timeout_rejects_without_response :
  let clock := fun n => match n with O => 0 | S O => 4000 | _ => 10500 end in
  let env := Sample.env clock (fun _ => RejectedWith Sample.backend500) in
  let w := Sample.world GATEWAY_ACTIVE in
  let run := handleRequest Sample.config env Sample.request "products" "all" w in
  shouldRetry Sample.strategy Sample.backend500 1 = true
  /\ run.1.1 = Throw (EGateway GATEWAY_TIMEOUT_ERROR)
  /\ List.filter isRes run.2 = []
  /\ length (List.filter isBackendRequest run.2) = 2%nat
  /\ (handleErrResponse env (EGateway GATEWAY_TIMEOUT_ERROR) w).2
     = [EvRes (ResStatus 504);
        EvRes (ResJson {| success := false; timestamp := 0; data := JUndefined;
                          error := Some {| err_code := JStr "GATEWAY_TIMEOUT";
                                           err_message := JStr "Request timed out" |}
                       |})].
Proof. intros clock env w run. repeat split; vm_compute; reflexivity. Qed.

(** ** Registration *)

(** C10: [register] is atomic on failure.  With the key set and the registry
    URL well formed, a registration POST that fails for any reason makes
    [register] return [false] after that one call, with [status], [port],
    [registryHeaders] and the health-check timer as they were; conversely a
    call of [register] that changes any of these fields is one whose POST
    succeeded, and it then returns [true] with [status = GATEWAY_ACTIVE] and
    the credential of the response installed. *)
Theorem register_atomic_on_failure (cfg : Config) (env : Env)
    (port : option Z) (w : World) :
  (forall key url,
     keyIsSet (SERVICE_REGISTRATION_KEY env) = Some key ->
     newURL env "/service" (registryUrl cfg) = Some url ->
     postFails (axiosPost env (postCalls w)) ->
     exists w',
       register cfg env port w = (Normal false, w', [registerCall url port key])
       /\ gatewayFields w' = gatewayFields w
       /\ loadBalancer w' = loadBalancer w)
  /\ (forall c w' t,
        register cfg env port w = (c, w', t) ->
        gatewayFields w' <> gatewayFields w ->
        exists d,
          axiosPost env (postCalls w) = Resolved (Some d)
          /\ c = Normal true
          /\ status w' = GATEWAY_ACTIVE
          /\ gw_port w' = port
          /\ registryHeaders w'
             = Some (mkRegistryHeaders (serviceId d) (token d))).
Proof.
  split.
  - intros key url Hkey Hurl Hfail.
    rewrite (register_run cfg env port w key url Hkey Hurl).
    exists (tickPost w).
    destruct (axiosPost env (postCalls w)) as [[d|]|e]; [destruct Hfail| |];
      repeat split.
  - intros c w' t Hrun Hchanged.
    destruct (keyIsSet (SERVICE_REGISTRATION_KEY env)) as [key|] eqn:Hkey.
    2:{ rewrite register_no_key in Hrun by exact Hkey.
        injection Hrun as _ <- _. by destruct Hchanged. }
    destruct (newURL env "/service" (registryUrl cfg)) as [url|] eqn:Hurl.
    2:{ destruct (register_bad_url cfg env port w key Hkey Hurl) as [e He].
        rewrite He in Hrun. injection Hrun as _ <- _. by destruct Hchanged. }
    rewrite (register_run cfg env port w key url Hkey Hurl) in Hrun.
    destruct (axiosPost env (postCalls w)) as [[d|]|e].
    + exists d. injection Hrun as <- <- _. unfold registered.
      destruct (healthChecks cfg); repeat split.
    + injection Hrun as _ <- _. by destruct Hchanged.
    + injection Hrun as _ <- _. by destruct Hchanged.
Qed.

Lemma register_atomic_on_failure_witness :
  let env := Sample.env (fun _ => 0) (fun _ => Resolved Sample.backend200) in
  let w := Sample.world GATEWAY_STARTING in
  exists w',
    register Sample.config env (Some 3001) w
    = (Normal false, w',
       [registerCall "http://localhost:3002/service" (Some 3001) "abc123"])
    /\ gatewayFields w' = gatewayFields w
    /\ loadBalancer w' = loadBalancer w.
Proof.
  intros env w.
  destruct (register_atomic_on_failure Sample.config env (Some 3001) w)
    as [Hfail _].
  apply Hfail; [reflexivity | reflexivity | exact I].
Defined.




(** * Further properties *)

(** ** Header filters *)

(** X1: [filterResponseHeaders] drops every hop-by-hop header and every
    header whose name starts with [x-internal-], whatever the casing of the
    name, and keeps every other header with its name and value. *)
Theorem filterResponseHeaders_spec (headers : option Headers) :
  let out := filterResponseHeaders headers in
  (forall k, toLowerCase k ∈ HOP_BY_HOP -> out !! k = None)
  /\ (forall k, startsWith (toLowerCase k) "x-internal-" = true -> out !! k = None)
  /\ (forall k, toLowerCase k ∉ HOP_BY_HOP ->
        startsWith (toLowerCase k) "x-internal-" = false ->
        out !! k = default ∅ headers !! k).
Proof.
  intros out. subst out. repeat split; intros k.
  - intros Hk. rewrite filterResponseHeaders_lookup. unfold keepResponseHeader.
    rewrite (bool_decide_eq_true_2 (toLowerCase k ∈ EXCLUDED_RESPONSE_HEADERS)).
    + by rewrite andb_false_r.
    + unfold EXCLUDED_RESPONSE_HEADERS, HOP_BY_HOP in *.
      rewrite !elem_of_union, !elem_of_singleton in Hk.
      rewrite !elem_of_union, !elem_of_singleton. tauto.
  - intros Hk. rewrite filterResponseHeaders_lookup. unfold keepResponseHeader.
    by rewrite Hk.
  - intros Hk Hp. rewrite filterResponseHeaders_lookup. unfold keepResponseHeader.
    rewrite Hp. rewrite bool_decide_eq_false_2; [reflexivity|].
    unfold EXCLUDED_RESPONSE_HEADERS, HOP_BY_HOP in *.
    rewrite !elem_of_union, !elem_of_singleton in Hk.
    rewrite !elem_of_union, !elem_of_singleton.
    intros Hex.
    assert (Hi : toLowerCase k = "x-internal-" -> False).
    { intros Heq. rewrite Heq in Hp. discriminate Hp. }
    tauto.
Qed.

Lemma filterResponseHeaders_spec_witness :
  filterResponseHeaders (Some Sample.backendHeaders) !! "keep-alive" = None
  /\ filterResponseHeaders (Some Sample.backendHeaders) !! "x-request-id"
     = Some (HStr "r-1").
Proof.
  destruct (filterResponseHeaders_spec (Some Sample.backendHeaders))
    as (Hhop & _ & Hkeep).
  split.
  - apply Hhop. vm_compute. reflexivity.
  - rewrite Hkeep; [reflexivity | vm_compute; discriminate | reflexivity].
Defined.

(** X2: both header filters only remove entries (the output is a sub-map of
    the input) and are idempotent. *)
Theorem header_filters_idempotent (headers : option Headers) :
  filterRequestHeaders headers ⊆ default ∅ headers
  /\ filterResponseHeaders headers ⊆ default ∅ headers
  /\ filterRequestHeaders (Some (filterRequestHeaders headers))
     = filterRequestHeaders headers
  /\ filterResponseHeaders (Some (filterResponseHeaders headers))
     = filterResponseHeaders headers.
Proof.
  repeat split.
  - apply map_subseteq_spec. intros k v.
    rewrite filterRequestHeaders_lookup. by destruct (keepRequestHeader k).
  - apply map_subseteq_spec. intros k v.
    rewrite filterResponseHeaders_lookup. by destruct (keepResponseHeader k).
  - apply map_eq. intros k. rewrite !filterRequestHeaders_lookup. simpl.
    rewrite filterRequestHeaders_lookup. by destruct (keepRequestHeader k).
  - apply map_eq. intros k. rewrite !filterResponseHeaders_lookup. simpl.
    rewrite filterResponseHeaders_lookup. by destruct (keepResponseHeader k).
Qed.

(** ** Retry policy *)



(** ** Load balancers *)

Lemma arrayGet_member {A} (l : list A) (i : Z) (x : A) :
  arrayGet l i = Some x -> x ∈ l.
Proof.
  unfold arrayGet. destruct (i <? 0); [discriminate|].
  intros H. eapply list_elem_of_lookup_2, H.
Qed.

Lemma arrayGet_in_range {A} (l : list A) (i : Z) :
  0 <= i < Z.of_nat (length l) -> exists x, arrayGet l i = Some x.
Proof.
  intros Hi. unfold arrayGet. destruct (Z.ltb_spec i 0); [lia|].
  apply lookup_lt_is_Some_2. lia.
Qed.

Lemma arrayGet_of_nat {A} (l : list A) (i : nat) :
  arrayGet l (Z.of_nat i) = l !! i.
Proof.
  unfold arrayGet. destruct (Z.ltb_spec (Z.of_nat i) 0); [lia|].
  by rewrite Nat2Z.id.
Qed.

Lemma clampCursor_range (n : nat) (c : Z) :
  (0 < n)%nat -> 0 <= c -> 0 <= clampCursor n c < Z.of_nat n.
Proof.
  intros Hn Hc. unfold clampCursor.
  destruct (Z.leb_spec (Z.of_nat n) c); lia.
Qed.

Lemma reachable_cursor_nonneg (m : gmap string Z) :
  RoundRobinBalancer.reachable m -> forall T, 0 <= default 0 (m !! T).
Proof.
  induction 1 as [|m l pick m' Hreach IH Hsel]; intros T.
  - unfold RoundRobinBalancer.empty. rewrite lookup_empty. simpl. lia.
  - destruct l as [|x l]; [discriminate Hsel|].
    rewrite selectInstance_step in Hsel. injection Hsel as _ <-.
    destruct (decide (serviceType x = T)) as [<-|Hne].
    + rewrite lookup_insert_eq. simpl.
      apply Z.rem_nonneg; [cbn [length]; lia|].
      pose proof (clampCursor_range (S (length l))
                    (default 0 (m !! serviceType x)) ltac:(lia)
                    (IH (serviceType x))).
      lia.
    + rewrite lookup_insert_ne by done. apply IH.
Qed.

(** X4: a round robin balancer never returns [undefined] for a non-empty
    list: the pick is a member of the list, also when the list has shrunk
    below the stored cursor; on an empty list the call throws a
    [TypeError]. *)
Theorem roundRobin_picks_member (m : gmap string Z) (instances : list Instance) :
  RoundRobinBalancer.reachable m ->
  (instances = [] ->
   RoundRobinBalancer.selectInstance m instances
   = Raise (typeErrorRead "serviceType"))
  /\ (instances <> [] ->
      exists inst m',
        RoundRobinBalancer.selectInstance m instances = Ok (Some inst, m')
        /\ inst ∈ instances
        /\ RoundRobinBalancer.reachable m').
Proof.
  intros Hreach. split; [intros ->; reflexivity|].
  intros Hne. destruct instances as [|first rest]; [done|].
  pose proof (selectInstance_step first rest m) as Hsel.
  destruct (arrayGet_in_range (first :: rest)
              (clampCursor (length (first :: rest))
                 (default 0 (m !! serviceType first)))) as [inst Hinst].
  { apply clampCursor_range; [cbn [length]; lia|].
    apply reachable_cursor_nonneg, Hreach. }
  rewrite Hinst in Hsel. eexists _, _. split; [exact Hsel|].
  split; [eapply arrayGet_member, Hinst|].
  eapply RoundRobinBalancer.reachable_select; eauto.
Qed.

Lemma sample_reachable :
  RoundRobinBalancer.reachable {[ "products" := 2 ]}.
Proof.
  apply (RoundRobinBalancer.reachable_select
           {[ "products" := 1 ]}
           [Sample.products 0; Sample.products 1; Sample.products 2]
           (Some (Sample.products 1))); [|reflexivity].
  apply (RoundRobinBalancer.reachable_select
           RoundRobinBalancer.empty
           [Sample.products 0; Sample.products 1; Sample.products 2]
           (Some (Sample.products 0))); [|reflexivity].
  apply RoundRobinBalancer.reachable_new.
Defined.

Lemma roundRobin_picks_member_witness :
  let l := [Sample.products 0; Sample.products 1] in
  exists inst m',
    RoundRobinBalancer.selectInstance {[ "products" := 2 ]} l = Ok (Some inst, m')
    /\ inst ∈ l
    /\ RoundRobinBalancer.reachable m'.
Proof.
  intros l.
  destruct (roundRobin_picks_member {[ "products" := 2 ]} l sample_reachable)
    as [_ Hpick].
  apply Hpick. discriminate.
Defined.

(** [k] calls in a row from a cursor [c < n]: the picks, and the map left. *)
Lemma selectMany_cursor (first : Instance) (rest : list Instance) (k : nat) :
  forall (m : gmap string Z) (c : nat),
    (c < length (first :: rest))%nat ->
    default 0 (m !! serviceType first) = Z.of_nat c ->
    RoundRobinBalancer.selectMany k m (first :: rest)
    = Some (map (fun j => (first :: rest) !! ((c + j) mod length (first :: rest))%nat)
                (seq 0 k),
            match k with
            | O => m
            | S _ => <[serviceType first :=
                         Z.of_nat ((c + k) mod length (first :: rest))%nat]> m
            end).
Proof.
  assert (Hn : (0 < length (first :: rest))%nat) by (cbn [length]; lia).
  set (n := length (first :: rest)) in *.
  induction k as [|k IH]; intros m c Hc Hm; [reflexivity|].
  cbn [RoundRobinBalancer.selectMany].
  rewrite (selectInstance_step first rest m). fold n. rewrite Hm.
  assert (Hcl : clampCursor n (Z.of_nat c) = Z.of_nat c).
  { unfold clampCursor. destruct (Z.leb_spec (Z.of_nat n) (Z.of_nat c)); lia. }
  rewrite Hcl.
  assert (Hrem : Z.rem (Z.of_nat c + 1) (Z.of_nat n) = Z.of_nat ((c + 1) mod n)%nat).
  { rewrite Z.rem_mod_nonneg by lia. rewrite Nat2Z.inj_mod. f_equal. lia. }
  rewrite Hrem.
  rewrite (IH (<[serviceType first := Z.of_nat ((c + 1) mod n)%nat]> m)
              ((c + 1) mod n)%nat).
  - f_equal. f_equal.
    + cbn [seq map]. f_equal.
      * rewrite arrayGet_of_nat, Nat.add_0_r, Nat.mod_small by exact Hc.
        reflexivity.
      * rewrite <- seq_shift, map_map. apply map_ext. intros j.
        f_equal. rewrite Nat.Div0.add_mod_idemp_l. f_equal. lia.
    + destruct k as [|k'].
      * reflexivity.
      * rewrite insert_insert_eq. do 2 f_equal.
        rewrite Nat.Div0.add_mod_idemp_l. f_equal. lia.
  - apply Nat.mod_upper_bound. lia.
  - by rewrite lookup_insert_eq.
Qed.

Lemma rotation_picks {A} (l : list A) (c : nat) :
  (c < length l)%nat ->
  map (fun j => l !! ((c + j) mod length l)%nat) (seq 0 (length l))
  = Some <$> (drop c l ++ take c l).
Proof.
  intros Hc. apply list_eq. intros i.
  change (map ?f ?x) with (f <$> x).
  rewrite !list_lookup_fmap.
  destruct (decide (i < length l)%nat) as [Hi|Hi].
  - rewrite lookup_seq_lt by lia. simpl.
    assert (Hrot : (drop c l ++ take c l) !! i = l !! ((c + i) mod length l)%nat).
    { destruct (decide (i < length l - c)%nat) as [Hlt|Hge].
      - rewrite lookup_app_l by (rewrite length_drop; lia).
        rewrite lookup_drop. f_equal. rewrite Nat.mod_small; lia.
      - rewrite lookup_app_r by (rewrite length_drop; lia).
        rewrite length_drop, lookup_take_lt by lia. f_equal.
        assert (Hsum : (c + i = (i - (length l - c)) + 1 * length l)%nat) by lia.
        rewrite Hsum, Nat.Div0.mod_add, Nat.mod_small; lia. }
    rewrite Hrot.
    destruct (l !! ((c + i) mod length l)%nat) eqn:Hl; [reflexivity|].
    apply lookup_ge_None in Hl.
    pose proof (Nat.mod_upper_bound (c + i) (length l)). lia.
  - rewrite lookup_seq_ge by lia. simpl.
    rewrite lookup_ge_None_2; [reflexivity|].
    rewrite length_app, length_drop, length_take. lia.
Qed.

(** X5: a full cycle is fair.  From any state a balancer can be in, as many
    calls as the list has instances pick every instance exactly once, in the
    order of the list rotated to the cursor, and leave the cursor where the
    cycle started. *)
Theorem roundRobin_full_cycle (first : Instance) (rest : list Instance)
    (m : gmap string Z) :
  let instances := first :: rest in
  let n := length instances in
  let T := serviceType first in
  let c := Z.to_nat (clampCursor n (default 0 (m !! T))) in
  RoundRobinBalancer.reachable m ->
  exists picks,
    RoundRobinBalancer.selectMany n m instances
    = Some (picks, <[T := Z.of_nat c]> m)
    /\ picks = Some <$> (drop c instances ++ take c instances)
    /\ picks ≡ₚ Some <$> instances.
Proof.
  intros instances n T c Hreach.
  assert (Hrange : 0 <= clampCursor n (default 0 (m !! T)) < Z.of_nat n).
  { apply clampCursor_range; [subst n instances; cbn; lia|].
    apply reachable_cursor_nonneg, Hreach. }
  assert (Hc : (c < n)%nat) by lia.
  (* the first call clamps, the others run from a cursor in range *)
  assert (Hrun : RoundRobinBalancer.selectMany n m instances
                 = Some (map (fun j => instances !! ((c + j) mod n)%nat) (seq 0 n),
                         <[T := Z.of_nat ((c + n) mod n)%nat]> m)).
  { subst n instances. cbn [length RoundRobinBalancer.selectMany].
    rewrite (selectInstance_step first rest m).
    fold T. change (length (first :: rest)) with (S (length rest)) in *.
    replace (clampCursor (S (length rest)) (default 0 (m !! T)))
      with (Z.of_nat c) by lia.
    assert (Hrem : Z.rem (Z.of_nat c + 1) (Z.of_nat (S (length rest)))
                   = Z.of_nat ((c + 1) mod S (length rest))%nat).
    { rewrite Z.rem_mod_nonneg by lia. rewrite Nat2Z.inj_mod. f_equal. lia. }
    rewrite Hrem.
    rewrite (selectMany_cursor first rest (length rest)
               (<[T := Z.of_nat ((c + 1) mod S (length rest))%nat]> m)
               ((c + 1) mod S (length rest))%nat).
    - change (length (first :: rest)) with (S (length rest)).
      f_equal. f_equal.
      + cbn [seq map]. f_equal.
        * rewrite arrayGet_of_nat, Nat.add_0_r, Nat.mod_small by exact Hc.
          reflexivity.
        * rewrite <- seq_shift, map_map. apply map_ext. intros j.
          f_equal. rewrite Nat.Div0.add_mod_idemp_l. f_equal. lia.
      + destruct (length rest) as [|k'] eqn:Hlen.
        * reflexivity.
        * rewrite insert_insert_eq. do 2 f_equal.
          rewrite Nat.Div0.add_mod_idemp_l. f_equal. lia.
    - apply Nat.mod_upper_bound. cbn. lia.
    - fold T. by rewrite lookup_insert_eq. }
  assert (Hback : ((c + n) mod n = c)%nat).
  { replace (c + n)%nat with (c + 1 * n)%nat by lia.
    rewrite Nat.Div0.mod_add. apply Nat.mod_small, Hc. }
  rewrite Hback in Hrun.
  eexists. split; [exact Hrun|].
  assert (Hpicks : map (fun j => instances !! ((c + j) mod n)%nat) (seq 0 n)
                   = Some <$> (drop c instances ++ take c instances))
    by (apply rotation_picks; exact Hc).
  split; [exact Hpicks|].
  rewrite Hpicks. apply fmap_Permutation.
  rewrite Permutation_app_comm, take_drop. reflexivity.
Qed.

Lemma roundRobin_full_cycle_witness :
  exists picks,
    RoundRobinBalancer.selectMany 3 {[ "products" := 2 ]}
      [Sample.products 0; Sample.products 1; Sample.products 2]
    = Some (picks, {[ "products" := 2 ]})
    /\ picks = [Some (Sample.products 2); Some (Sample.products 0);
                Some (Sample.products 1)].
Proof.
  destruct (roundRobin_full_cycle (Sample.products 0)
              [Sample.products 1; Sample.products 2] {[ "products" := 2 ]}
              sample_reachable) as (picks & Hrun & Hpicks & _).
  exists picks. split; [exact Hrun|exact Hpicks].
Defined.

(** X6: the cursors of different service types do not interfere: two calls
    for lists of different types give the same picks and leave the same map
    in either order. *)
Theorem roundRobin_types_commute (m : gmap string Z)
    (f1 f2 : Instance) (r1 r2 : list Instance) :
  serviceType f1 <> serviceType f2 ->
  exists p1 p2 m1 m2 m12,
    RoundRobinBalancer.selectInstance m (f1 :: r1) = Ok (p1, m1)
    /\ RoundRobinBalancer.selectInstance m1 (f2 :: r2) = Ok (p2, m12)
    /\ RoundRobinBalancer.selectInstance m (f2 :: r2) = Ok (p2, m2)
    /\ RoundRobinBalancer.selectInstance m2 (f1 :: r1) = Ok (p1, m12)
    /\ m1 !! serviceType f2 = m !! serviceType f2
    /\ m2 !! serviceType f1 = m !! serviceType f1.
Proof.
  intros Hne.
  eexists _, _, _, _, _.
  split; [apply selectInstance_step|].
  split; [rewrite selectInstance_step, lookup_insert_ne by done; reflexivity|].
  split; [apply selectInstance_step|].
  split.
  - rewrite selectInstance_step, lookup_insert_ne by done.
    f_equal. f_equal. apply insert_insert_ne. done.
  - split; by rewrite lookup_insert_ne.
Qed.

Lemma roundRobin_types_commute_witness :
  let orders := mkInstance "o" "orders" "localhost" 4000 true 0 0 in
  let m := RoundRobinBalancer.empty in
  exists p1 p2 m1 m2 m12,
    RoundRobinBalancer.selectInstance m [Sample.products 0; Sample.products 1]
    = Ok (p1, m1)
    /\ RoundRobinBalancer.selectInstance m1 [orders] = Ok (p2, m12)
    /\ RoundRobinBalancer.selectInstance m [orders] = Ok (p2, m2)
    /\ RoundRobinBalancer.selectInstance m2 [Sample.products 0; Sample.products 1]
       = Ok (p1, m12)
    /\ m1 !! "orders" = m !! "orders"
    /\ m2 !! "products" = m !! "products".
Proof.
  intros orders m.
  apply (roundRobin_types_commute m (Sample.products 0) orders
           [Sample.products 1] []).
  discriminate.
Defined.

(** X7: for a draw in [[0, 1)] the random balancer returns a member of a
    non-empty list; for an empty list it returns [undefined] without
    throwing. *)
Theorem random_picks_member (random : Q) (instances : list Instance) :
  unitInterval random ->
  (instances = [] -> RandomBalancer.selectInstance random instances = None)
  /\ (instances <> [] ->
      exists inst,
        RandomBalancer.selectInstance random instances = Some inst
        /\ inst ∈ instances).
Proof.
  intros [H0 H1]. unfold RandomBalancer.selectInstance. split.
  - intros ->. cbn [length]. unfold arrayGet.
    destruct (_ <? 0); [reflexivity|]. apply lookup_nil.
  - intros Hne.
    set (n := Z.of_nat (length instances)).
    assert (Hn : 0 < n) by (destruct instances; [done|subst n; cbn; lia]).
    assert (Hlo : 0 <= Qfloor (random * inject_Z n)).
    { change 0 with (Qfloor 0). apply Qfloor_resp_le.
      apply Qmult_le_0_compat; [exact H0|].
      change 0%Q with (inject_Z 0). rewrite <- Zle_Qle. lia. }
    assert (Hhi : Qfloor (random * inject_Z n) < n).
    { rewrite Zlt_Qlt. eapply Qle_lt_trans; [apply Qfloor_le|].
      apply Qlt_le_trans with (1 * inject_Z n)%Q.
      - apply Qmult_lt_compat_r; [|exact H1].
        change 0%Q with (inject_Z 0). rewrite <- Zlt_Qlt. lia.
      - rewrite Qmult_1_l. apply Qle_refl. }
    destruct (arrayGet_in_range instances (Qfloor (random * inject_Z n)))
      as [inst Hinst]; [subst n; lia|].
    exists inst. split; [exact Hinst|eapply arrayGet_member, Hinst].
Qed.

Lemma random_picks_member_witness :
  exists inst,
    RandomBalancer.selectInstance (2 # 3)
      [Sample.products 0; Sample.products 1; Sample.products 2] = Some inst
    /\ inst ∈ [Sample.products 0; Sample.products 1; Sample.products 2].
Proof.
  destruct (random_picks_member (2 # 3)
              [Sample.products 0; Sample.products 1; Sample.products 2])
    as [_ Hpick].
  - split; [discriminate|reflexivity].
  - apply Hpick. discriminate.
Defined.

(** ** The error shaper *)

Lemma classifyError_run (err : JsError) (w : World) :
  exists c hs,
    classifyError err w = (c, w, setEvents hs)
    /\ c <> OutOfFuel
    /\ ((exists e, c = Throw e) <-> nullBody err).
Proof.
  unfold nullBody.
  destruct err as [a|g|n msg|v].
  - unfold classifyError.
    destruct (axe_response a) as [r|] eqn:Hr.
    + unfold getPropM, bind, emit, ret, throw.
      destruct (getProp (resp_data r) "data") as [d|] eqn:Hd.
      * assert (Herr : exists re, getProp (resp_data r) "error" = Some re).
        { unfold getProp in *. destruct (resp_data r); try discriminate; eauto. }
        destruct Herr as [re Hre]. rewrite Hre.
        assert (Hnothrow : forall (c : Completion (Z * JsValue * JsValue * JsValue)),
                   (exists x, c = Normal x) ->
                   c <> OutOfFuel /\
                   ((exists e, c = Throw e) <->
                    exists a0 r0, EAxios a = EAxios a0 /\ axe_response a0 = Some r0
                                  /\ getProp (resp_data r0) "data" = None)).
        { intros c [x ->]. split; [discriminate|]. split.
          - intros [e He]. discriminate.
          - intros (a0 & r0 & Ha & Hr0 & Hn). injection Ha as <-. congruence. }
        destruct (truthy re && isString re) eqn:Hts.
        { destruct (resp_headers r) as [h|];
            [exists (Normal (resp_status r, d, JStr "SERVICE_ERROR", re)), [h]
            |exists (Normal (resp_status r, d, JStr "SERVICE_ERROR", re)), []];
            (split; [reflexivity|apply Hnothrow; eauto]). }
        destruct (truthy re) eqn:Ht.
        { assert (Hc : exists x, getProp re "code" = Some x)
            by (destruct re; try discriminate; simpl; eauto).
          assert (Hm : exists x, getProp re "message" = Some x)
            by (destruct re; try discriminate; simpl; eauto).
          destruct Hc as [code Hc], Hm as [message Hm]. rewrite Hc, Hm.
          destruct (resp_headers r) as [h|];
            [exists (Normal (resp_status r, d, code, message)), [h]
            |exists (Normal (resp_status r, d, code, message)), []];
            (split; [reflexivity|apply Hnothrow; eauto]). }
        destruct (resp_headers r) as [h|];
          [exists (Normal (resp_status r, d, JStr "SERVICE_ERROR",
                           JStr "Unknown error occured")), [h]
          |exists (Normal (resp_status r, d, JStr "SERVICE_ERROR",
                           JStr "Unknown error occured")), []];
          (split; [reflexivity|apply Hnothrow; eauto]).
      * destruct (resp_headers r) as [h|];
          [exists (Throw (typeErrorRead "data")), [h]
          |exists (Throw (typeErrorRead "data")), []];
          (split; [reflexivity|]; split; [discriminate|]; split; eauto 10).
    + destruct (axe_request a); eexists _, []; (split; [reflexivity|]);
        (split; [discriminate|]); (split; [intros [e He]; discriminate|]);
        intros (a0 & r0 & Ha & Hr0 & _); injection Ha as <-; congruence.
  - eexists _, []. split; [reflexivity|]. split; [discriminate|].
    split; [intros [e He]; discriminate|intros (a0 & r0 & Ha & _); discriminate].
  - eexists _, []. split; [reflexivity|]. split; [discriminate|].
    split; [intros [e He]; discriminate|intros (a0 & r0 & Ha & _); discriminate].
  - eexists _, []. split; [reflexivity|]. split; [discriminate|].
    split; [intros [e He]; discriminate|intros (a0 & r0 & Ha & _); discriminate].
Qed.

Lemma handleErrResponse_unfold env err w :
  handleErrResponse env err w
  = match classifyError err w with
    | (Normal (s, d, c, m), w1, t1) =>
        (Normal tt, tickClock w1,
         t1 ++ [EvRes (ResStatus s);
                EvRes (ResJson (mkApiResponse false (dateNow env (clockReads w1)) d
                                  (Some (mkErrorResponse c m))))])
    | (Throw e, w1, t1) => (Throw e, w1, t1)
    | (OutOfFuel, w1, t1) => (OutOfFuel, w1, t1)
    end.
Proof.
  unfold handleErrResponse. unfold bind at 1.
  destruct (classifyError err w) as [[[[[[s d] c] m]|e|] w1] t1]; reflexivity.
Qed.

(** The two ways the error shaper ends. *)
Lemma handleErrResponse_cases env err w :
  exists hs,
    (~ nullBody err /\
     exists s b,
       handleErrResponse env err w
       = (Normal tt, tickClock w,
          setEvents hs ++ [EvRes (ResStatus s); EvRes (ResJson b)])
       /\ success b = false /\ is_Some (error b)
       /\ timestamp b = dateNow env (clockReads w))
    \/ (nullBody err /\
        handleErrResponse env err w
        = (Throw (typeErrorRead "data"), w, setEvents hs)).
Proof.
  rewrite handleErrResponse_unfold.
  destruct (classifyError_run err w) as (c & hs & Hrun & Hfuel & Hthrow).
  rewrite Hrun. exists hs.
  destruct c as [[[[s d] code] m]|e|]; [left|right|done].
  - split.
    + intros Hn. apply Hthrow in Hn as [e He]. discriminate.
    + eexists _, _. split; [reflexivity|]. simpl. eauto.
  - assert (Hn : nullBody err) by (apply Hthrow; eauto).
    split; [exact Hn|].
    destruct Hn as (a & r & -> & Hr & Hd).
    unfold classifyError in Hrun. rewrite Hr in Hrun.
    unfold getPropM, bind, emit, ret, throw in Hrun. rewrite Hd in Hrun.
    destruct (resp_headers r); injection Hrun as -> _; reflexivity.
Qed.

Lemma resCalls_app t1 t2 : resCalls (t1 ++ t2) = resCalls t1 ++ resCalls t2.
Proof. apply omap_app. Qed.

Lemma resCalls_setEvents hs : resCalls (setEvents hs) = ResSet <$> hs.
Proof. induction hs as [|h hs IH]; [reflexivity|]. cbn. by rewrite <- IH. Qed.



(** ** The proxy pipeline, continued *)

Lemma settledAnswer_prefixed t0 r :
  resCalls t0 = [] -> settledAnswer r -> settledAnswer (prefixed t0 r).
Proof.
  intros Ht0. destruct r as [[c w] t]. unfold settledAnswer. simpl.
  by rewrite resCalls_app, Ht0.
Qed.

Lemma settledAnswer_handleErrResponse env err w :
  settledAnswer (handleErrResponse env err w).
Proof.
  unfold settledAnswer.
  destruct (handleErrResponse_cases env err w)
    as [hs [(Hnn & s & b & -> & Hs & He & _) | (Hn & ->)]]; simpl.
  - exists hs, s, b. rewrite resCalls_app, resCalls_setEvents.
    split; [reflexivity|]. unfold wellShaped. by rewrite Hs.
  - exists hs. apply resCalls_setEvents.
Qed.

Lemma settledAnswer_loop cfg env req url startTime fuel : forall attempt w,
  (Z.to_nat (maxRetries (retryStrategy cfg) - attempt) < fuel)%nat ->
  settledAnswer
    (getServiceResponseLoop cfg env fuel req url startTime
       (filterRequestHeaders (req_headers req)) attempt w).
Proof.
  induction fuel as [|fuel IH]; intros attempt w Hfuel; [lia|].
  rewrite loop_unfold. apply settledAnswer_prefixed; [reflexivity|].
  destruct (axiosRequest env (requestCalls w)) as [response|error].
  - destruct (getProp (resp_data response) "data") as [payload|].
    + rewrite handleSuccessResponse_run. unfold settledAnswer. simpl.
      eexists [filterResponseHeaders (resp_headers response)], _, _.
      split; [reflexivity|]. reflexivity.
    + apply settledAnswer_handleErrResponse.
  - destruct (shouldRetry (retryStrategy cfg) error attempt) eqn:Hretry.
    + apply shouldRetry_attempt in Hretry.
      destruct (_ >=? _).
      * unfold settledAnswer. simpl. by exists [].
      * apply settledAnswer_prefixed; [reflexivity|]. apply IH. lia.
    + apply settledAnswer_handleErrResponse.
Qed.

(** X9: [handleRequest] never answers twice.  A run that completes has
    sent, after any [res.set], exactly one status followed by exactly one
    envelope, and the envelope is well shaped (a success without [error], a
    failure with one); a run that throws has sent neither status nor
    envelope. *)
Theorem handleRequest_answers_once (cfg : Config) (env : Env) (req : Request)
    (serviceName remaining : string) (w : World) :
  let run := handleRequest cfg env req serviceName remaining w in
  match run.1.1 with
  | Normal _ =>
      exists hs s b,
        resCalls run.2 = (ResSet <$> hs) ++ [ResStatus s; ResJson b]
        /\ (if success b then error b = None else is_Some (error b))
  | Throw _ => exists hs, resCalls run.2 = ResSet <$> hs
  | OutOfFuel => False
  end.
Proof.
  intros run. change (settledAnswer run). subst run.
  destruct (decide (status w = GATEWAY_ACTIVE)) as [Hs|Hs].
  2:{ rewrite handleRequest_inactive by exact Hs. unfold settledAnswer. simpl.
      eexists [], _, _. split; [reflexivity|]. unfold wellShaped. simpl. eauto. }
  rewrite handleRequest_active by exact Hs.
  apply settledAnswer_prefixed; [reflexivity|].
  destruct (axiosGet env (getCalls w)) as [instances|e].
  - destruct (selectInstance_run env instances (tickGet w))
      as (c1 & w1 & -> & Hc1 & _).
    destruct c1 as [[service|]|e|]; [| | |done].
    + rewrite getServiceResponse_run. apply settledAnswer_loop.
      unfold retryFuel. lia.
    + apply settledAnswer_handleErrResponse.
    + apply settledAnswer_handleErrResponse.
  - apply settledAnswer_handleErrResponse.
Qed.

Lemma handleErrResponse_resOnly env err w :
  Forall (fun e => isRes e = true) (handleErrResponse env err w).2.
Proof.
  assert (Hset : forall hs, Forall (fun e => isRes e = true) (setEvents hs)).
  { intros hs. apply Forall_fmap, Forall_true. reflexivity. }
  destruct (handleErrResponse_cases env err w)
    as [hs [(Hnn & s & b & -> & _) | (Hn & ->)]]; simpl.
  - apply Forall_app. split; [apply Hset|repeat constructor].
  - apply Hset.
Qed.

Lemma handleErrResponse_world env err w :
  (handleErrResponse env err w).1.2 = w
  \/ (handleErrResponse env err w).1.2 = tickClock w.
Proof.
  destruct (handleErrResponse_cases env err w)
    as [hs [(Hnn & s & b & -> & _) | (Hn & ->)]]; simpl; auto.
Qed.

Lemma resOnly_sleeps t : Forall (fun e => isRes e = true) t -> sleeps t = [].
Proof.
  induction 1 as [|e t He _ IH]; [reflexivity|].
  destruct e; try discriminate He. exact IH.
Qed.

Lemma resOnly_backendUrls t :
  Forall (fun e => isRes e = true) t -> backendUrls t = [].
Proof.
  induction 1 as [|e t He _ IH]; [reflexivity|].
  destruct e; try discriminate He. exact IH.
Qed.

Lemma resOnly_backendRequests t :
  Forall (fun e => isRes e = true) t -> List.filter isBackendRequest t = [].
Proof.
  induction 1 as [|e t He _ IH]; [reflexivity|].
  destruct e; try discriminate He. exact IH.
Qed.

Lemma resOnly_proxy t :
  Forall (fun e => isRes e = true) t -> Forall (fun e => proxyEvent e = true) t.
Proof.
  intros Ht. eapply Forall_impl; [exact Ht|].
  intros e He. destruct e; try discriminate He. reflexivity.
Qed.

Lemma sleeps_app t1 t2 : sleeps (t1 ++ t2) = sleeps t1 ++ sleeps t2.
Proof. apply omap_app. Qed.

Lemma backendUrls_app t1 t2 :
  backendUrls (t1 ++ t2) = backendUrls t1 ++ backendUrls t2.
Proof. apply omap_app. Qed.

(** How often and how long the loop sleeps, and how many requests it sends. *)
Lemma loop_schedule cfg env req url startTime fuel : forall attempt w,
  (Z.to_nat (maxRetries (retryStrategy cfg) - attempt) < fuel)%nat ->
  let t := (getServiceResponseLoop cfg env fuel req url startTime
              (filterRequestHeaders (req_headers req)) attempt w).2 in
  length (backendUrls t) = S (length (sleeps t))
  /\ (length (sleeps t) <= Z.to_nat (maxRetries (retryStrategy cfg) - attempt))%nat
  /\ forall j d, sleeps t !! j = Some d ->
       exists i, d = sleepDuration (retryStrategy cfg)
                       (attempt + 1 + Z.of_nat j) (mathRandom env i).
Proof.
  induction fuel as [|fuel IH]; intros attempt w Hfuel; [lia|].
  cbv zeta. rewrite loop_unfold, prefixed_trace.
  rewrite backendUrls_app, sleeps_app. cbn [backendCall backendUrls sleeps omap list_omap app].
  assert (Hquiet : forall err w0,
             let t0 := (handleErrResponse env err w0).2 in
             length (url :: backendUrls t0) = S (length (sleeps t0))
             /\ (length (sleeps t0)
                 <= Z.to_nat (maxRetries (retryStrategy cfg) - attempt))%nat
             /\ forall j d, sleeps t0 !! j = Some d ->
                  exists i, d = sleepDuration (retryStrategy cfg)
                                  (attempt + 1 + Z.of_nat j) (mathRandom env i)).
  { intros err w0 t0. subst t0.
    rewrite resOnly_backendUrls, resOnly_sleeps
      by apply handleErrResponse_resOnly.
    split; [reflexivity|]. split; [simpl; lia|]. intros j d Hj. discriminate Hj. }
  destruct (axiosRequest env (requestCalls w)) as [response|error].
  - destruct (getProp (resp_data response) "data") as [payload|].
    + rewrite handleSuccessResponse_run. simpl.
      split; [reflexivity|]. split; [lia|]. intros j d Hj. discriminate Hj.
    + apply Hquiet.
  - destruct (shouldRetry (retryStrategy cfg) error attempt) eqn:Hretry.
    + apply shouldRetry_attempt in Hretry.
      destruct (_ >=? _).
      * simpl. split; [reflexivity|]. split; [lia|]. intros j d Hj. discriminate Hj.
      * rewrite prefixed_trace, backendUrls_app, sleeps_app.
        cbn [backendUrls sleeps omap list_omap app].
        destruct (IH (attempt + 1) (tickRandom (tickClock (tickRequest w))))
          as (Hlen & Hbound & Hsleep); [lia|].
        cbv zeta in Hlen, Hbound, Hsleep.
        split; [cbn [length]; rewrite Hlen; reflexivity|].
        split; [cbn [length]; lia|].
        intros [|j] d Hj.
        -- injection Hj as <-. eexists. f_equal. lia.
        -- destruct (Hsleep j d Hj) as [i ->]. exists i. f_equal. lia.
    + apply Hquiet.
Qed.

(** X10: the retry schedule of a request.  [handleRequest] sends at most
    [maxRetries + 1] backend requests, sleeps exactly once between two
    consecutive requests, and the j-th sleep is that of [delay(j)]:
    [min(maxDelay, baseDelay * 2^j)] plus a jitter, so the first retry
    already waits twice [baseDelay]. *)
Theorem retry_schedule (cfg : Config) (env : Env) (req : Request)
    (serviceName remaining : string) (w : World) :
  let rs := retryStrategy cfg in
  let t := (handleRequest cfg env req serviceName remaining w).2 in
  (length (backendUrls t) <= S (Z.to_nat (maxRetries rs)))%nat
  /\ length (sleeps t) = pred (length (backendUrls t))
  /\ forall j d, sleeps t !! j = Some d ->
       exists i, (d == inject_Z (Z.min (maxDelay rs)
                                   (baseDelay rs * 2 ^ (Z.of_nat j + 1)))
                      + mathRandom env i * 10)%Q.
Proof.
  intros rs t. subst t.
  assert (Hnone : forall t0, Forall (fun e => isRes e = true) t0 ->
             (length (backendUrls t0) <= S (Z.to_nat (maxRetries rs)))%nat
             /\ length (sleeps t0) = pred (length (backendUrls t0))
             /\ forall j d, sleeps t0 !! j = Some d ->
                  exists i, (d == inject_Z (Z.min (maxDelay rs)
                                   (baseDelay rs * 2 ^ (Z.of_nat j + 1)))
                      + mathRandom env i * 10)%Q).
  { intros t0 Ht0. rewrite resOnly_backendUrls, resOnly_sleeps by exact Ht0.
    split; [simpl; lia|]. split; [reflexivity|]. intros j d Hj. discriminate Hj. }
  destruct (decide (status w = GATEWAY_ACTIVE)) as [Hs|Hs].
  2:{ rewrite handleRequest_inactive by exact Hs. apply Hnone. repeat constructor. }
  rewrite handleRequest_active by exact Hs. rewrite prefixed_trace.
  rewrite backendUrls_app, sleeps_app. cbn [registryCall backendUrls sleeps omap list_omap app].
  destruct (axiosGet env (getCalls w)) as [instances|e].
  - destruct (selectInstance_run env instances (tickGet w))
      as (c1 & w1 & -> & Hc1 & _).
    destruct c1 as [[service|]|e|]; [| | |done].
    + rewrite getServiceResponse_run.
      destruct (loop_schedule cfg env req (targetUrl service remaining)
                  (dateNow env (clockReads w1)) (retryFuel cfg) 0 (tickClock w1))
        as (Hlen & Hbound & Hsleep); [unfold retryFuel; lia|].
      cbv zeta in Hlen, Hbound, Hsleep.
      split; [rewrite Hlen; fold rs in Hbound; lia|].
      split; [rewrite Hlen; reflexivity|].
      intros j d Hj. destruct (Hsleep j d Hj) as [i ->]. exists i.
      unfold sleepDuration, exponentialDelay, jitter. fold rs.
      replace (0 + 1 + Z.of_nat j) with (Z.of_nat j + 1) by lia. reflexivity.
    + apply Hnone, handleErrResponse_resOnly.
    + apply Hnone, handleErrResponse_resOnly.
  - apply Hnone, handleErrResponse_resOnly.
Qed.

Lemma backendRequests_app t1 t2 :
  List.filter isBackendRequest (t1 ++ t2)
  = List.filter isBackendRequest t1 ++ List.filter isBackendRequest t2.
Proof. apply List.filter_app. Qed.

(** Every attempt of the loop is the same call. *)
Lemma loop_same_call cfg env req url startTime fuel : forall attempt w,
  (Z.to_nat (maxRetries (retryStrategy cfg) - attempt) < fuel)%nat ->
  exists n,
    List.filter isBackendRequest
      (getServiceResponseLoop cfg env fuel req url startTime
         (filterRequestHeaders (req_headers req)) attempt w).2
    = replicate (S n) (backendCall cfg req url).
Proof.
  induction fuel as [|fuel IH]; intros attempt w Hfuel; [lia|].
  rewrite loop_unfold, prefixed_trace, backendRequests_app.
  change (List.filter isBackendRequest [backendCall cfg req url])
    with [backendCall cfg req url].
  destruct (axiosRequest env (requestCalls w)) as [response|error].
  - destruct (getProp (resp_data response) "data") as [payload|].
    + rewrite handleSuccessResponse_run. by exists 0%nat.
    + rewrite resOnly_backendRequests by apply handleErrResponse_resOnly.
      by exists 0%nat.
  - destruct (shouldRetry (retryStrategy cfg) error attempt) eqn:Hretry.
    + apply shouldRetry_attempt in Hretry.
      destruct (_ >=? _); [by exists 0%nat|].
      rewrite prefixed_trace, backendRequests_app.
      destruct (IH (attempt + 1) (tickRandom (tickClock (tickRequest w))))
        as [n Hn]; [lia|].
      rewrite Hn. by exists (S n).
    + rewrite resOnly_backendRequests by apply handleErrResponse_resOnly.
      by exists 0%nat.
Qed.

Lemma selectInstance_member env instances w service w1 t :
  loadBalancer_selectInstance env instances w = (Normal (Some service), w1, t) ->
  exists l, instances = Some l /\ service ∈ l.
Proof.
  unfold loadBalancer_selectInstance, bind, getWorld, Math_random, setWorld,
    ret, throw.
  destruct (loadBalancer w) as [m|].
  - destruct instances as [l|]; [|discriminate].
    destruct l as [|first rest]; [discriminate|].
    rewrite selectInstance_step. intros H. injection H as H _ _.
    exists (first :: rest). split; [reflexivity|].
    eapply arrayGet_member, H.
  - destruct instances as [l|]; [|discriminate].
    intros H. injection H as H _ _. exists l. split; [reflexivity|].
    eapply arrayGet_member, H.
Qed.

(** X11: retries do not re-select.  All backend requests of one
    [handleRequest] run are the same call (method, URL, filtered headers,
    body, timeout), and its URL is [https://host:port/remaining] of an
    instance that the registry listed for this request. *)
Theorem retries_hit_one_instance (cfg : Config) (env : Env) (req : Request)
    (serviceName remaining : string) (w : World) :
  let t := (handleRequest cfg env req serviceName remaining w).2 in
  List.filter isBackendRequest t = []
  \/ exists l inst n,
       axiosGet env (getCalls w) = Resolved (Some l)
       /\ inst ∈ l
       /\ List.filter isBackendRequest t
          = replicate (S n)
              (EvHttp (RequestCall (req_method req)
                         ("https://" +:+ host inst +:+ ":" +:+ pretty (port inst)
                                     +:+ "/" +:+ remaining)
                         (filterRequestHeaders (req_headers req))
                         (req_body req) (timeout cfg))).
Proof.
  intros t. subst t.
  destruct (decide (status w = GATEWAY_ACTIVE)) as [Hs|Hs].
  2:{ rewrite handleRequest_inactive by exact Hs. by left. }
  rewrite handleRequest_active by exact Hs.
  rewrite prefixed_trace, backendRequests_app.
  change (List.filter isBackendRequest [registryCall cfg serviceName w]) with (@nil Event).
  rewrite app_nil_l.
  destruct (axiosGet env (getCalls w)) as [instances|e].
  - destruct (loadBalancer_selectInstance env instances (tickGet w))
      as [[c1 w1] t1] eqn:Hsel.
    destruct c1 as [[service|]|e|].
    + right. apply selectInstance_member in Hsel as (l & -> & Hin).
      rewrite getServiceResponse_run.
      destruct (loop_same_call cfg env req (targetUrl service remaining)
                  (dateNow env (clockReads w1)) (retryFuel cfg) 0 (tickClock w1))
        as [n Hn]; [unfold retryFuel; lia|].
      exists l, service, n. split; [reflexivity|]. split; [exact Hin|exact Hn].
    + left. apply resOnly_backendRequests, handleErrResponse_resOnly.
    + left. apply resOnly_backendRequests, handleErrResponse_resOnly.
    + destruct (selectInstance_run env instances (tickGet w))
        as (c & w2 & Hrun & Hc & _). rewrite Hrun in Hsel.
      injection Hsel as -> _ _. done.
  - left. apply resOnly_backendRequests, handleErrResponse_resOnly.
Qed.

Lemma prefixed_world {A} t0 (r : Completion A * World * list Event) :
  (prefixed t0 r).1.2 = r.1.2.
Proof. by destruct r as [[c w] t]. Qed.

(** The loop leaves the gateway's own fields and the other counters alone. *)
Lemma loop_keeps_gateway cfg env req url startTime fuel : forall attempt w,
  let run := getServiceResponseLoop cfg env fuel req url startTime
               (filterRequestHeaders (req_headers req)) attempt w in
  gatewayFields run.1.2 = gatewayFields w
  /\ loadBalancer run.1.2 = loadBalancer w
  /\ postCalls run.1.2 = postCalls w
  /\ getCalls run.1.2 = getCalls w
  /\ timersSet run.1.2 = timersSet w
  /\ Forall (fun e => proxyEvent e = true) run.2.
Proof.
  induction fuel as [|fuel IH]; intros attempt w; cbv zeta.
  { simpl. repeat split. constructor. }
  rewrite loop_unfold, prefixed_trace, prefixed_world.
  assert (Herr : forall err,
             let run := handleErrResponse env err (tickRequest w) in
             gatewayFields run.1.2 = gatewayFields w
             /\ loadBalancer run.1.2 = loadBalancer w
             /\ postCalls run.1.2 = postCalls w
             /\ getCalls run.1.2 = getCalls w
             /\ timersSet run.1.2 = timersSet w
             /\ Forall (fun e => proxyEvent e = true)
                       ([backendCall cfg req url] ++ run.2)).
  { intros err run. subst run.
    pose proof (handleErrResponse_resOnly env err (tickRequest w)) as Hres.
    destruct (handleErrResponse_world env err (tickRequest w)) as [-> | ->];
      repeat split; (constructor; [reflexivity|apply resOnly_proxy, Hres]). }
  destruct (axiosRequest env (requestCalls w)) as [response|error].
  - destruct (getProp (resp_data response) "data") as [payload|].
    + rewrite handleSuccessResponse_run. simpl. repeat split. repeat constructor.
    + apply Herr.
  - destruct (shouldRetry (retryStrategy cfg) error attempt).
    + destruct (_ >=? _).
      * simpl. repeat split. repeat constructor.
      * rewrite prefixed_trace, prefixed_world.
        destruct (IH (attempt + 1) (tickRandom (tickClock (tickRequest w))))
          as (Hg & Hl & Hp & Hgc & Ht & Hall).
        cbv zeta in *. rewrite Hg, Hl, Hp, Hgc, Ht.
        repeat split. constructor; [reflexivity|]. constructor; [reflexivity|].
        exact Hall.
    + apply Herr.
Qed.

Lemma selectInstance_keeps env instances w :
  let run := loadBalancer_selectInstance env instances w in
  gatewayFields run.1.2 = gatewayFields w
  /\ postCalls run.1.2 = postCalls w
  /\ getCalls run.1.2 = getCalls w
  /\ timersSet run.1.2 = timersSet w.
Proof.
  unfold loadBalancer_selectInstance, bind, getWorld, Math_random, setWorld,
    ret, throw.
  destruct (loadBalancer w) as [m|].
  - destruct instances as [l|]; [|by repeat split].
    destruct (RoundRobinBalancer.selectInstance m l) as [[inst m']|e];
      by repeat split.
  - destruct instances as [l|]; by repeat split.
Qed.

(** X12: the request path only proxies.  Whatever the registry and the
    backend answer, [handleRequest] leaves [status], [port], the credential
    and the health-check timer as they were, never posts a registration,
    never schedules a timer, never emits a signal, and looks the service up
    in the registry at most once. *)
Theorem handleRequest_only_proxies (cfg : Config) (env : Env) (req : Request)
    (serviceName remaining : string) (w : World) :
  let run := handleRequest cfg env req serviceName remaining w in
  gatewayFields run.1.2 = gatewayFields w
  /\ postCalls run.1.2 = postCalls w
  /\ timersSet run.1.2 = timersSet w
  /\ (getCalls run.1.2 <= S (getCalls w))%nat
  /\ Forall (fun e => match e with
                      | EvHttp (Post _ _ _ _) | EvSetTimeout _ | EvEmit _ _ => False
                      | _ => True
                      end) run.2.
Proof.
  intros run.
  assert (Hgoal : gatewayFields run.1.2 = gatewayFields w
                  /\ postCalls run.1.2 = postCalls w
                  /\ timersSet run.1.2 = timersSet w
                  /\ (getCalls run.1.2 <= S (getCalls w))%nat
                  /\ Forall (fun e => proxyEvent e = true) run.2).
  { subst run.
    assert (Herr : forall err w0,
               gatewayFields w0 = gatewayFields w -> postCalls w0 = postCalls w ->
               timersSet w0 = timersSet w -> getCalls w0 = S (getCalls w) ->
               let r := prefixed [registryCall cfg serviceName w]
                          (handleErrResponse env err w0) in
               gatewayFields r.1.2 = gatewayFields w
               /\ postCalls r.1.2 = postCalls w
               /\ timersSet r.1.2 = timersSet w
               /\ (getCalls r.1.2 <= S (getCalls w))%nat
               /\ Forall (fun e => proxyEvent e = true) r.2).
    { intros err w0 Hg Hp Ht Hgc r. subst r.
      rewrite prefixed_world, prefixed_trace.
      pose proof (handleErrResponse_resOnly env err w0) as Hres.
      destruct (handleErrResponse_world env err w0) as [-> | ->];
        (split; [exact Hg|]); (split; [exact Hp|]); (split; [exact Ht|]);
        (split; [simpl; lia|]);
        (constructor; [reflexivity|apply resOnly_proxy, Hres]). }
    destruct (decide (status w = GATEWAY_ACTIVE)) as [Hs|Hs].
    2:{ rewrite handleRequest_inactive by exact Hs. simpl.
        repeat split; [lia|repeat constructor]. }
    rewrite handleRequest_active by exact Hs.
    destruct (axiosGet env (getCalls w)) as [instances|e].
    - pose proof (selectInstance_keeps env instances (tickGet w))
        as (Hg & Hp & Hgc & Ht). cbv zeta in Hg, Hp, Hgc, Ht.
      destruct (selectInstance_run env instances (tickGet w))
        as (c1 & w1 & Hsel & Hc1 & _).
      rewrite Hsel in *. simpl in Hg, Hp, Hgc, Ht.
      destruct c1 as [[service|]|e|]; [| | |done].
      + rewrite prefixed_world, prefixed_trace, getServiceResponse_run.
        destruct (loop_keeps_gateway cfg env req (targetUrl service remaining)
                    (dateNow env (clockReads w1)) (retryFuel cfg) 0 (tickClock w1))
          as (Hg' & _ & Hp' & Hgc' & Ht' & Hall).
        cbv zeta in Hg', Hp', Hgc', Ht', Hall.
        rewrite Hg', Hp', Hgc', Ht'. simpl.
        split; [exact Hg|]. split; [exact Hp|]. split; [exact Ht|].
        split; [lia|]. constructor; [reflexivity|exact Hall].
      + apply Herr; assumption.
      + apply Herr; assumption.
    - apply Herr; reflexivity. }
  destruct Hgoal as (Hg & Hp & Ht & Hgc & Hall).
  split; [exact Hg|]. split; [exact Hp|]. split; [exact Ht|]. split; [exact Hgc|].
  eapply Forall_impl; [exact Hall|].
  intros e He. destruct e as [[]| | | |]; try exact I; discriminate He.
Qed.

(** X13: a backend error that is not retried passes through.  When the
    first attempt is refused with an HTTP response whose status is not
    retryable and whose body is an object, [getServiceResponse] sends that
    one request and answers with the backend's headers as received, the
    backend's status, and an envelope carrying the body's [data], with
    [error.code] and [error.message] taken from the body's [error] object,
    [SERVICE_ERROR] and the text when [error] is a non-empty string, and
    [SERVICE_ERROR] with [Unknown error occured] when there is none. *)
Theorem backend_error_passes_through (cfg : Config) (env : Env) (req : Request)
    (url : string) (w : World) (a : AxiosError) (r : AxiosResponse)
    (fields : list (string * JsValue)) :
  axiosRequest env (requestCalls w) = RejectedWith (EAxios a) ->
  axe_code a <> Some "ECONNABORTED" ->
  axe_response a = Some r ->
  resp_status r ∉ retryableStatus (retryStrategy cfg) ->
  resp_data r = JObj fields ->
  let answer code message :=
    (Normal tt, tickClock (tickRequest (tickClock w)),
     [backendCall cfg req url]
     ++ match resp_headers r with
        | Some h => [EvRes (ResSet h)]
        | None => []
        end
     ++ [EvRes (ResStatus (resp_status r));
         EvRes (ResJson {| success := false;
                           timestamp := dateNow env (S (clockReads w));
                           data := assoc "data" fields;
                           error := Some {| err_code := code;
                                            err_message := message |} |})]) in
  (forall efields, assoc "error" fields = JObj efields ->
     getServiceResponse cfg env req url w
     = answer (assoc "code" efields) (assoc "message" efields))
  /\ (forall s, assoc "error" fields = JStr s -> s <> "" ->
        getServiceResponse cfg env req url w
        = answer (JStr "SERVICE_ERROR") (JStr s))
  /\ (truthy (assoc "error" fields) = false ->
      getServiceResponse cfg env req url w
      = answer (JStr "SERVICE_ERROR") (JStr "Unknown error occured")).
Proof.
  intros Hout Hcode Hresp Hstatus Hbody answer.
  assert (Hretry : shouldRetry (retryStrategy cfg) (EAxios a) 0 = false).
  { simpl. rewrite bool_decide_eq_false_2 by exact Hcode. rewrite Hresp.
    rewrite (bool_decide_eq_false_2 _ Hstatus). apply andb_false_r. }
  assert (Hrun : getServiceResponse cfg env req url w
                 = prefixed [backendCall cfg req url]
                     (handleErrResponse env (EAxios a) (tickRequest (tickClock w)))).
  { rewrite getServiceResponse_run. unfold retryFuel.
    rewrite loop_unfold. cbn [tickClock requestCalls]. rewrite Hout, Hretry.
    reflexivity. }
  rewrite Hrun, handleErrResponse_unfold. subst answer.
  unfold classifyError. rewrite Hresp, Hbody.
  unfold getPropM, bind, emit, ret, throw. cbn [getProp].
  repeat split.
  - intros efields ->. cbn. destruct (resp_headers r); reflexivity.
  - intros s -> Hs. cbn.
    destruct (String.eqb_spec s ""); [contradiction|]. cbn.
    destruct (resp_headers r); reflexivity.
  - intros Hfalsy. rewrite Hfalsy. cbn. destruct (resp_headers r); reflexivity.
Qed.

Lemma backend_error_passes_through_witness :
  let validation :=
    mkAxiosError (Some "ERR_BAD_REQUEST") "Request failed with status code 400"
      (Some "[object Object]")
      (Some (mkAxiosResponse 400 None
               (JObj [("error", JObj [("code", JStr "VALIDATION_ERROR");
                                      ("message", JStr "Invalid input")])]))) in
  let env := Sample.env (fun _ => 5) (fun _ => RejectedWith (EAxios validation)) in
  let w := Sample.world GATEWAY_ACTIVE in
  getServiceResponse Sample.config env Sample.request "https://localhost:3001/all" w
  = (Normal tt, tickClock (tickRequest (tickClock w)),
     [backendCall Sample.config Sample.request "https://localhost:3001/all";
      EvRes (ResStatus 400);
      EvRes (ResJson {| success := false; timestamp := 5; data := JUndefined;
                        error := Some {| err_code := JStr "VALIDATION_ERROR";
                                         err_message := JStr "Invalid input" |} |})]).
Proof.
  intros validation env w.
  destruct (backend_error_passes_through Sample.config env Sample.request
              "https://localhost:3001/all" w validation
              (mkAxiosResponse 400 None
                 (JObj [("error", JObj [("code", JStr "VALIDATION_ERROR");
                                        ("message", JStr "Invalid input")])]))
              [("error", JObj [("code", JStr "VALIDATION_ERROR");
                               ("message", JStr "Invalid input")])])
    as (Hobj & _).
  - reflexivity.
  - discriminate.
  - reflexivity.
  - vm_compute. intros H. discriminate H.
  - reflexivity.
  - apply (Hobj [("code", JStr "VALIDATION_ERROR"); ("message", JStr "Invalid input")]).
    reflexivity.
Defined.

(** X14: a service without instances.  When the registry answers the lookup
    with an empty list, or with an envelope without [data], no backend is
    contacted: the balancer's result cannot be used, the [TypeError] is
    caught, and the client is answered 500 with [UNKNOWN_ERROR], for either
    balancer. *)
Theorem no_instance_is_unknown_error (cfg : Config) (env : Env) (req : Request)
    (serviceName remaining : string) (w : World)
    (instances : option (list Instance)) :
  status w = GATEWAY_ACTIVE ->
  axiosGet env (getCalls w) = Resolved instances ->
  instances = None \/ instances = Some [] ->
  exists message w',
    handleRequest cfg env req serviceName remaining w
    = (Normal tt, w',
       [EvHttp (Get ("/services/" +:+ serviceName) (registryUrl cfg)
                    (registryHeaders w));
        EvRes (ResStatus 500);
        EvRes (ResJson {| success := false;
                          timestamp := dateNow env (clockReads w);
                          data := JUndefined;
                          error := Some {| err_code := JStr "UNKNOWN_ERROR";
                                           err_message := JStr message |} |})]).
Proof.
  intros Hs Hget Hempty.
  rewrite handleRequest_active by exact Hs. rewrite Hget.
  unfold loadBalancer_selectInstance, bind, getWorld, Math_random, setWorld,
    ret, throw.
  cbn [loadBalancer tickGet].
  assert (Hnone : forall random, RandomBalancer.selectInstance random [] = None).
  { intros random. unfold RandomBalancer.selectInstance, arrayGet.
    destruct (_ <? 0); [reflexivity|apply lookup_nil]. }
  destruct (loadBalancer w) as [m|];
    destruct Hempty as [-> | ->]; rewrite ?Hnone; eexists _, _; reflexivity.
Qed.

Lemma no_instance_is_unknown_error_witness :
  let env := mkEnv (Some "abc123") (fun path base => Some (base +:+ path))
               (fun _ => 9) (fun _ => 0%Q)
               (fun _ => RejectedWith (EError "Error" "down"))
               (fun _ => Resolved (Some []))
               (fun _ => Resolved Sample.backend200) in
  exists message w',
    handleRequest Sample.config env Sample.request "cart" "items"
                  (Sample.world GATEWAY_ACTIVE)
    = (Normal tt, w',
       [EvHttp (Get "/services/cart" "http://localhost:3002"
                    (Some (mkRegistryHeaders "gw" "secret")));
        EvRes (ResStatus 500);
        EvRes (ResJson {| success := false; timestamp := 9; data := JUndefined;
                          error := Some {| err_code := JStr "UNKNOWN_ERROR";
                                           err_message := JStr message |} |})]).
Proof.
  intros env.
  apply (no_instance_is_unknown_error Sample.config env Sample.request
           "cart" "items" (Sample.world GATEWAY_ACTIVE) (Some [])).
  - reflexivity.
  - reflexivity.
  - by right.
Defined.

(** X15: an unreachable registry.  When the lookup fails without an HTTP
    response, the registry is not asked again and no backend is contacted;
    the client is answered [GATEWAY_ERROR], with status 502 and the
    request's description when a request had been sent, with status 500 and
    the error's message otherwise. *)
Theorem registry_unreachable (cfg : Config) (env : Env) (req : Request)
    (serviceName remaining : string) (w : World) (a : AxiosError) :
  status w = GATEWAY_ACTIVE ->
  axiosGet env (getCalls w) = RejectedWith (EAxios a) ->
  axe_response a = None ->
  handleRequest cfg env req serviceName remaining w
  = (Normal tt, tickClock (tickGet w),
     [EvHttp (Get ("/services/" +:+ serviceName) (registryUrl cfg)
                  (registryHeaders w));
      EvRes (ResStatus (match axe_request a with Some _ => 502 | None => 500 end));
      EvRes (ResJson {| success := false;
                        timestamp := dateNow env (clockReads w);
                        data := JUndefined;
                        error := Some {| err_code := JStr "GATEWAY_ERROR";
                                         err_message :=
                                           JStr (match axe_request a with
                                                 | Some request => request
                                                 | None => axe_message a
                                                 end) |} |})]).
Proof.
  intros Hs Hget Hresp.
  rewrite handleRequest_active by exact Hs. rewrite Hget.
  rewrite handleErrResponse_unfold. unfold classifyError. rewrite Hresp.
  destruct (axe_request a); reflexivity.
Qed.

Lemma registry_unreachable_witness :
  let refused := mkAxiosError (Some "ECONNREFUSED") "connect ECONNREFUSED"
                   (Some "[object Object]") None in
  let env := mkEnv (Some "abc123") (fun path base => Some (base +:+ path))
               (fun _ => 9) (fun _ => 0%Q)
               (fun _ => RejectedWith (EError "Error" "down"))
               (fun _ => RejectedWith (EAxios refused))
               (fun _ => Resolved Sample.backend200) in
  let w := Sample.world GATEWAY_ACTIVE in
  (handleRequest Sample.config env Sample.request "cart" "items" w).2
  = [EvHttp (Get "/services/cart" "http://localhost:3002"
                 (Some (mkRegistryHeaders "gw" "secret")));
     EvRes (ResStatus 502);
     EvRes (ResJson {| success := false; timestamp := 9; data := JUndefined;
                       error := Some {| err_code := JStr "GATEWAY_ERROR";
                                        err_message := JStr "[object Object]" |} |})].
Proof.
  intros refused env w.
  rewrite (registry_unreachable Sample.config env Sample.request "cart" "items"
             w refused); reflexivity.
Defined.

(** ** Registration and liveness *)

Section LivenessFacts.

Variable cfg : Config.
Variable env : Env.
Variable health : nat -> Outcome JsValue.

Lemma probeVerdict_cases o :
  probeVerdict o = GATEWAY_ACTIVE
  \/ probeVerdict o = REGISTRY_HEALTH_CHECK_FAIL
  \/ probeVerdict o = ATTEMPTING_REREGISTRATION.
Proof.
  unfold probeVerdict, healthTry, healthCatch.
  destruct o as [data|[a|g|n m|v]]; auto.
  - destruct (healthStatusField data) as [st|]; auto.
    destruct (isUp st); auto.
  - destruct (axe_response a) as [r|]; auto.
    destruct (resp_status r =? 401); auto.
Qed.

Lemma health_unfold fuel url attempts w :
  checkRegistryHealthLoop cfg env health (S fuel) url attempts w
  = let w1 := withStatus (probeVerdict (health (getCalls w))) (tickGet w) in
    prefixedH [HvProbe url (registryHeaders w) (timeout cfg)]
      match probeVerdict (health (getCalls w)) with
      | GATEWAY_ACTIVE => rescheduleH cfg w1
      | REGISTRY_HEALTH_CHECK_FAIL =>
          if attempts <? 3 then
            prefixedH
              [HvBase (EvSleep (sleepDuration (retryStrategy cfg) attempts
                                  (mathRandom env (randomDraws w1))))]
              (checkRegistryHealthLoop cfg env health fuel url (attempts + 1)
                 (tickRandom w1))
          else
            match healthCheckFailStrategy cfg with
            | Shutdown =>
                (Normal tt, withStatus SHUTTING_DOWN w1,
                 [HvBase (EvEmit "SIGTERM" SHUTTING_DOWN)])
            | TryAgain =>
                rescheduleH cfg (withStatus REGISTRY_HEALTH_CHECK_FAIL w1)
            end
      | ATTEMPTING_REREGISTRATION => liftH (attemptReregister cfg env 4) w1
      | _ => (Throw (EError "Error" "unreachable"), w1, [])
      end.
Proof.
  cbn [checkRegistryHealthLoop]. cbv zeta.
  unfold bindH at 1. unfold probeRegistry. fold (probeVerdict (health (getCalls w))).
  unfold bindH at 1. cbn [withStatus status].
  destruct (probeVerdict_cases (health (getCalls w))) as [-> | [-> | ->]];
    cbn [bool_decide decide_rel ApiGatewayStatus_eq_dec andb].
  - rewrite bool_decide_eq_true_2 by reflexivity.
    destruct (rescheduleH cfg _) as [[c w2] t2]. reflexivity.
  - rewrite bool_decide_eq_false_2 by discriminate.
    rewrite bool_decide_eq_true_2 by reflexivity. cbn [andb].
    destruct (Z.ltb_spec attempts 3) as [Hlt|Hge].
    + unfold bindH, liftH, delay, bind, Math_random, emit, prefixedH.
      destruct (checkRegistryHealthLoop cfg env health fuel url _ _)
        as [[c w2] t2].
      reflexivity.
    + rewrite bool_decide_eq_false_2 by discriminate.
      replace (attempts >=? 3) with true by lia.
      destruct (healthCheckFailStrategy cfg).
      * unfold bindH, rescheduleH, liftH, scheduleHealthCheck, bind, emit,
          setWorld, ret.
        destruct (healthChecks cfg); reflexivity.
      * reflexivity.
  - rewrite bool_decide_eq_false_2 by discriminate.
    rewrite bool_decide_eq_false_2 by discriminate. cbn [andb].
    rewrite bool_decide_eq_true_2 by reflexivity.
    destruct (liftH _ _) as [[c w2] t2]. reflexivity.
Qed.


(** How [register] ends. *)
Lemma register_cases port w :
  (exists message,
     register cfg env port w = (Throw (EError "Error" message), w, [])
     /\ message <> "unreachable")
  \/ (exists url key,
        register cfg env port w
        = (Normal false, tickPost w, [registerCall url port key])
        /\ postFails (axiosPost env (postCalls w)))
  \/ (exists url key d,
        register cfg env port w
        = (Normal true, registered cfg port d w,
           registerCall url port key
           :: (if healthChecks cfg
               then [EvSetTimeout (healthCheckInterval cfg)] else []))
        /\ axiosPost env (postCalls w) = Resolved (Some d)).
Proof.
  destruct (keyIsSet (SERVICE_REGISTRATION_KEY env)) as [key|] eqn:Hkey.
  2:{ left. eexists. split; [apply register_no_key, Hkey|discriminate]. }
  destruct (newURL env "/service" (registryUrl cfg)) as [url|] eqn:Hurl.
  2:{ left. eexists. split.
      - unfold register. rewrite Hkey, Hurl. reflexivity.
      - discriminate. }
  right. rewrite (register_run cfg env port w key url Hkey Hurl).
  destruct (axiosPost env (postCalls w)) as [[d|]|e] eqn:Hpost.
  - right. exists url, key, d. split; [reflexivity|reflexivity].
  - left. exists url, key. split; [reflexivity|exact I].
  - left. exists url, key. split; [reflexivity|exact I].
Qed.

Lemma timersScheduled_app t1 t2 :
  timersScheduled (t1 ++ t2) = (timersScheduled t1 + timersScheduled t2)%nat.
Proof. unfold timersScheduled. by rewrite List.filter_app, length_app. Qed.

Lemma emitted_app t1 t2 : emitted (t1 ++ t2) = emitted t1 ++ emitted t2.
Proof. apply omap_app. Qed.

Lemma registerAttempts_app t1 t2 :
  registerAttempts (t1 ++ t2) = (registerAttempts t1 + registerAttempts t2)%nat.
Proof. unfold registerAttempts. by rewrite List.filter_app, length_app. Qed.

Ltac count := unfold timersScheduled, probeCount, registerAttempts; simpl; lia.

(** What every run of the re-register loop keeps. *)
Lemma reregister_invariants fuel : forall attempts w,
  let run := attemptReregisterLoop cfg env fuel attempts w in
  (timersScheduled run.2 <= 1)%nat
  /\ Forall (fun p => p = ("SIGTERM", SHUTTING_DOWN)) (emitted run.2)
  /\ run.1.1 <> Throw (EError "Error" "unreachable").
Proof.
  induction fuel as [|fuel IH]; intros attempts w; cbv zeta.
  { simpl. split; [count|]. split; [constructor|discriminate]. }
  rewrite reregister_unfold.
  destruct (register_cases (gw_port w) w)
    as [(msg & -> & Hmsg) | [(url & key & -> & _) | (url & key & d & -> & _)]].
  - simpl. split; [count|]. split; [constructor|]. congruence.
  - destruct (attempts >=? 3).
    + simpl. split; [count|].
      split; [repeat constructor|discriminate].
    + rewrite prefixed_trace, prefixed_completion.
      destruct (IH (attempts + 1) (tickRandom (tickPost w))) as (Ht & He & Hu).
      cbv zeta in Ht, He, Hu.
      rewrite !timersScheduled_app, !emitted_app. simpl.
      split; [exact Ht|]. split; [exact He|exact Hu].
  - simpl. split; [destruct (healthChecks cfg); unfold timersScheduled; simpl; lia|].
    split; [destruct (healthChecks cfg); constructor|discriminate].
Qed.

Lemma liftH_completion {A} (m : M A) w : (liftH m w).1.1 = (m w).1.1.
Proof. unfold liftH. by destruct (m w) as [[c w1] t]. Qed.

Lemma liftH_world {A} (m : M A) w : (liftH m w).1.2 = (m w).1.2.
Proof. unfold liftH. by destruct (m w) as [[c w1] t]. Qed.

Lemma baseEvents_lift (t : list Event) : baseEvents (HvBase <$> t) = t.
Proof.
  induction t as [|e t IH]; [reflexivity|].
  change (baseEvents (HvBase <$> (e :: t))) with (e :: baseEvents (HvBase <$> t)).
  by rewrite IH.
Qed.

Lemma liftH_trace {A} (m : M A) w : baseEvents (liftH m w).2 = (m w).2.
Proof. unfold liftH. destruct (m w) as [[c w1] t]. apply baseEvents_lift. Qed.

Lemma probeCount_lift (t : list Event) : probeCount (HvBase <$> t) = 0%nat.
Proof. induction t as [|e t IH]; [reflexivity|]. exact IH. Qed.

Lemma liftH_probes {A} (m : M A) w : probeCount (liftH m w).2 = 0%nat.
Proof. unfold liftH. destruct (m w) as [[c w1] t]. apply probeCount_lift. Qed.

Lemma prefixedH_completion {A} t0 (r : Completion A * World * list HealthEvent) :
  (prefixedH t0 r).1.1 = r.1.1.
Proof. by destruct r as [[c w] t]. Qed.

Lemma prefixedH_world {A} t0 (r : Completion A * World * list HealthEvent) :
  (prefixedH t0 r).1.2 = r.1.2.
Proof. by destruct r as [[c w] t]. Qed.

Lemma prefixedH_trace {A} t0 (r : Completion A * World * list HealthEvent) :
  (prefixedH t0 r).2 = t0 ++ r.2.
Proof. by destruct r as [[c w] t]. Qed.

Lemma baseEvents_app t1 t2 : baseEvents (t1 ++ t2) = baseEvents t1 ++ baseEvents t2.
Proof. apply omap_app. Qed.

Lemma probeCount_app t1 t2 :
  probeCount (t1 ++ t2) = (probeCount t1 + probeCount t2)%nat.
Proof. unfold probeCount. by rewrite List.filter_app, length_app. Qed.

Lemma rescheduleH_run w :
  rescheduleH cfg w
  = if healthChecks cfg
    then (Normal tt, withTimer w, [HvBase (EvSetTimeout (healthCheckInterval cfg))])
    else (Normal tt, w, []).
Proof.
  unfold rescheduleH, liftH, scheduleHealthCheck, bind, emit, setWorld, ret.
  destruct (healthChecks cfg); reflexivity.
Qed.

(** What every run of the health-check loop keeps. *)
Lemma health_invariants url fuel : forall attempts w,
  (Z.to_nat (3 - attempts) < fuel)%nat ->
  let run := checkRegistryHealthLoop cfg env health fuel url attempts w in
  run.1.1 <> OutOfFuel
  /\ run.1.1 <> Throw (EError "Error" "unreachable")
  /\ (probeCount run.2 <= S (Z.to_nat (3 - attempts)))%nat
  /\ (timersScheduled (baseEvents run.2) <= 1)%nat
  /\ Forall (fun p => p = ("SIGTERM", SHUTTING_DOWN)) (emitted (baseEvents run.2)).
Proof.
  induction fuel as [|fuel IH]; intros attempts w Hfuel; [lia|]. cbv zeta.
  rewrite health_unfold. cbv zeta.
  rewrite prefixedH_completion, prefixedH_trace, probeCount_app, baseEvents_app.
  change (probeCount [HvProbe url (registryHeaders w) (timeout cfg)]) with 1%nat.
  change (baseEvents [HvProbe url (registryHeaders w) (timeout cfg)]) with (@nil Event).
  rewrite app_nil_l.
  destruct (probeVerdict_cases (health (getCalls w))) as [-> | [-> | ->]].
  - rewrite rescheduleH_run. destruct (healthChecks cfg); simpl;
      repeat split; try discriminate; try count; constructor.
  - destruct (Z.ltb_spec attempts 3) as [Hlt|Hge].
    + rewrite prefixedH_completion, prefixedH_trace, probeCount_app, baseEvents_app.
      destruct (IH (attempts + 1)
                  (tickRandom (withStatus REGISTRY_HEALTH_CHECK_FAIL (tickGet w))))
        as (H1 & H2 & H3 & H4 & H5); [lia|].
      cbv zeta in H1, H2, H3, H4, H5. simpl.
      split; [exact H1|]. split; [exact H2|]. split; [lia|].
      split; [exact H4|exact H5].
    + destruct (healthCheckFailStrategy cfg).
      * rewrite rescheduleH_run. destruct (healthChecks cfg); simpl;
          repeat split; try discriminate; try count; constructor.
      * simpl. repeat split; try discriminate; try count; repeat constructor.
  - rewrite liftH_completion, liftH_probes, liftH_trace.
    destruct (reregister_invariants 4 0
                (withStatus ATTEMPTING_REREGISTRATION (tickGet w)))
      as (Ht & He & Hu).
    cbv zeta in Ht, He, Hu. unfold attemptReregister.
    split; [apply reregister_terminates; simpl; lia|].
    split; [exact Hu|]. split; [lia|]. split; [exact Ht|exact He].
Qed.

(** X16: a health check is bounded and orderly.  Given fuel for four
    iterations, [checkRegistryHealth] always ends; it probes the registry at
    most four times, never reaches its [unreachable] branch, schedules at
    most one new health-check timer, and every signal it emits is [SIGTERM]
    raised when the status already is [SHUTTING_DOWN]. *)
Theorem health_check_orderly (fuel : nat) (w : World) :
  (4 <= fuel)%nat ->
  let run := checkRegistryHealth cfg env health fuel w in
  run.1.1 <> OutOfFuel
  /\ run.1.1 <> Throw (EError "Error" "unreachable")
  /\ (probeCount run.2 <= 4)%nat
  /\ (timersScheduled (baseEvents run.2) <= 1)%nat
  /\ Forall (fun p => p = ("SIGTERM", SHUTTING_DOWN)) (emitted (baseEvents run.2)).
Proof.
  intros Hfuel run. subst run. unfold checkRegistryHealth.
  destruct (newURL env "/service" (registryUrl cfg)) as [url|].
  - destruct (health_invariants url fuel 0 w) as (H1 & H2 & H3 & H4 & H5);
      [simpl; lia|].
    cbv zeta in H1, H2, H3, H4, H5. simpl in H3.
    split; [exact H1|]. split; [exact H2|]. split; [exact H3|].
    split; [exact H4|exact H5].
  - simpl. repeat split; try discriminate; try count; constructor.
Qed.


Lemma backoffs_S first draw k :
  backoffs cfg env first draw (S k)
  = sleepDuration (retryStrategy cfg) first (mathRandom env draw)
    :: backoffs cfg env (first + 1) (S draw) k.
Proof.
  unfold backoffs. cbn [seq fmap list_fmap].
  rewrite Z.add_0_r, Nat.add_0_r. f_equal.
  rewrite <- fmap_S_seq, <- list_fmap_compose.
  apply list_fmap_ext. intros i x _. cbn.
  f_equal; [lia|f_equal; lia].
Qed.

Lemma probeDown_verdict o :
  probeDown o -> probeVerdict o = REGISTRY_HEALTH_CHECK_FAIL.
Proof. unfold probeDown, probeVerdict. by destruct (healthTry o). Qed.

Lemma probeUp_verdict o : probeUp o -> probeVerdict o = GATEWAY_ACTIVE.
Proof. unfold probeUp, probeVerdict. by intros ->. Qed.

Lemma prefixedH_app {A} t0 t1 (r : Completion A * World * list HealthEvent) :
  prefixedH t0 (prefixedH t1 r) = prefixedH (t0 ++ t1) r.
Proof. destruct r as [[c w] t]. cbn. by rewrite app_assoc. Qed.

Lemma prefixed_app {A} t0 t1 (r : Completion A * World * list Event) :
  prefixed t0 (prefixed t1 r) = prefixed (t0 ++ t1) r.
Proof. destruct r as [[c w] t]. cbn. by rewrite app_assoc. Qed.

Lemma sleeps_only (l : list Q) :
  sleeps (EvSleep <$> l) = l
  /\ timersScheduled (EvSleep <$> l) = 0%nat
  /\ emitted (EvSleep <$> l) = []
  /\ registerAttempts (EvSleep <$> l) = 0%nat.
Proof.
  induction l as [|q l (IH1 & IH2 & IH3 & IH4)]; [by repeat split|].
  repeat split.
  - change (sleeps (EvSleep <$> q :: l)) with (q :: sleeps (EvSleep <$> l)).
    by rewrite IH1.
  - exact IH2.
  - exact IH3.
  - exact IH4.
Qed.

(** [k] probes in a row that find the registry down. *)
Lemma health_downs url k : forall fuel attempts w,
  attempts + Z.of_nat k <= 3 ->
  (forall i, (i < k)%nat -> probeDown (health (getCalls w + i)%nat)) ->
  exists t0,
    checkRegistryHealthLoop cfg env health (k + fuel) url attempts w
    = prefixedH t0
        (checkRegistryHealthLoop cfg env health fuel url
           (attempts + Z.of_nat k) (Nat.iter k afterDown w))
    /\ probeCount t0 = k
    /\ baseEvents t0 = EvSleep <$> backoffs cfg env attempts (randomDraws w) k.
Proof.
  induction k as [|k IH]; intros fuel attempts w Hk Hdown.
  { exists []. change (Z.of_nat 0) with 0. rewrite Z.add_0_r.
    change (Nat.iter 0 afterDown w) with w. change (0 + fuel)%nat with fuel.
    split; [|repeat split].
    by destruct (checkRegistryHealthLoop cfg env health fuel url attempts w)
      as [[c w1] t1]. }
  cbn [Nat.add]. rewrite health_unfold. cbv zeta.
  rewrite (probeDown_verdict (health (getCalls w))).
  2:{ specialize (Hdown 0%nat ltac:(lia)). by rewrite Nat.add_0_r in Hdown. }
  destruct (Z.ltb_spec attempts 3) as [_|Hge]; [|lia].
  destruct (IH fuel (attempts + 1) (afterDown w)) as (t0 & Hrun & Hp & Hb).
  { lia. }
  { intros i Hi. specialize (Hdown (S i) ltac:(lia)).
    replace (getCalls (afterDown w) + i)%nat with (getCalls w + S i)%nat
      by (cbn; lia).
    exact Hdown. }
  fold (afterDown w). rewrite Hrun, !prefixedH_app.
  rewrite Nat.iter_succ_r.
  replace (attempts + 1 + Z.of_nat k) with (attempts + Z.of_nat (S k)) by lia.
  eexists. split; [reflexivity|].
  rewrite !probeCount_app, !baseEvents_app, Hp, Hb, backoffs_S.
  split; reflexivity.
Qed.

Ltac downs_facts Hb :=
  match type of Hb with
  | _ = EvSleep <$> ?l =>
      destruct (sleeps_only l) as (Hs & Ht & He & Hr);
      rewrite <- Hb in Hs, Ht, He, Hr
  end.

Lemma calls_afterDown k : forall v,
  getCalls (Nat.iter k afterDown v) = (getCalls v + k)%nat.
Proof.
  induction k as [|k IH]; intros v; [cbn; lia|].
  rewrite Nat.iter_succ_r, IH. cbn. lia.
Qed.

(** X17: the health check recovers.  When the registry is found down
    [m <= 3] times in a row and then answers [UP], the health check probes it
    [m + 1] times, backs off [delay(0)], [delay(1)], ... between the probes,
    leaves the gateway [GATEWAY_ACTIVE], emits no signal and schedules the
    next check exactly when the health checks are enabled. *)
Theorem health_check_recovers (fuel m : nat) (w : World) (url : string) :
  newURL env "/service" (registryUrl cfg) = Some url ->
  (m <= 3)%nat -> (m < fuel)%nat ->
  (forall i, (i < m)%nat -> probeDown (health (getCalls w + i)%nat)) ->
  probeUp (health (getCalls w + m)%nat) ->
  let run := checkRegistryHealth cfg env health fuel w in
  run.1.1 = Normal tt
  /\ status run.1.2 = GATEWAY_ACTIVE
  /\ probeCount run.2 = S m
  /\ sleeps (baseEvents run.2) = backoffs cfg env 0 (randomDraws w) m
  /\ emitted (baseEvents run.2) = []
  /\ timersScheduled (baseEvents run.2) = (if healthChecks cfg then 1 else 0)%nat.
Proof.
  intros Hurl Hm Hfuel Hdown Hup run. subst run.
  unfold checkRegistryHealth. rewrite Hurl.
  destruct fuel as [|fuel]; [lia|].
  replace (S fuel) with (m + S (fuel - m))%nat by lia.
  destruct (health_downs url m (S (fuel - m)) 0 w) as (t0 & -> & Hp & Hb);
    [lia|exact Hdown|].
  downs_facts Hb.
  rewrite health_unfold. cbv zeta.
  rewrite calls_afterDown, (probeUp_verdict _ Hup), rescheduleH_run.
  rewrite !prefixedH_completion, !prefixedH_world, !prefixedH_trace,
    !probeCount_app, !baseEvents_app, !sleeps_app, !emitted_app,
    !timersScheduled_app, Hp, Hs, Ht, He.
  destruct (healthChecks cfg); cbn; rewrite ?app_nil_r;
    repeat split; try reflexivity; count.
Qed.


(** X18: the health check gives up after four probes.  When the registry is
    found down four times in a row, the health check has probed it four times
    and backed off [delay(0)], [delay(1)], [delay(2)] in between; under the
    [shutdown] strategy it then sets [SHUTTING_DOWN], emits [SIGTERM] and
    schedules nothing; under [try-again] it leaves
    [REGISTRY_HEALTH_CHECK_FAIL], emits nothing and schedules the next check
    exactly when the health checks are enabled. *)
Theorem health_check_gives_up (fuel : nat) (w : World) (url : string) :
  newURL env "/service" (registryUrl cfg) = Some url ->
  (4 <= fuel)%nat ->
  (forall i, (i < 4)%nat -> probeDown (health (getCalls w + i)%nat)) ->
  let run := checkRegistryHealth cfg env health fuel w in
  run.1.1 = Normal tt
  /\ probeCount run.2 = 4%nat
  /\ sleeps (baseEvents run.2) = backoffs cfg env 0 (randomDraws w) 3
  /\ match healthCheckFailStrategy cfg with
     | Shutdown =>
         status run.1.2 = SHUTTING_DOWN
         /\ emitted (baseEvents run.2) = [("SIGTERM", SHUTTING_DOWN)]
         /\ timersScheduled (baseEvents run.2) = 0%nat
     | TryAgain =>
         status run.1.2 = REGISTRY_HEALTH_CHECK_FAIL
         /\ emitted (baseEvents run.2) = []
         /\ timersScheduled (baseEvents run.2)
            = (if healthChecks cfg then 1 else 0)%nat
     end.
Proof.
  intros Hurl Hfuel Hdown run. subst run.
  unfold checkRegistryHealth. rewrite Hurl.
  replace fuel with (3 + S (fuel - 4))%nat by lia.
  destruct (health_downs url 3 (S (fuel - 4)) 0 w) as (t0 & -> & Hp & Hb);
    [lia|intros i Hi; apply Hdown; lia|].
  downs_facts Hb.
  rewrite health_unfold. cbv zeta.
  rewrite calls_afterDown, (probeDown_verdict _ (Hdown 3%nat ltac:(lia))).
  change (0 + Z.of_nat 3 <? 3) with false. cbv iota.
  rewrite !prefixedH_completion, !prefixedH_world, !prefixedH_trace,
    !probeCount_app, !baseEvents_app, !sleeps_app, !emitted_app,
    !timersScheduled_app, Hp, Hs, Ht, He.
  destruct (healthCheckFailStrategy cfg).
  - rewrite rescheduleH_run.
    destruct (healthChecks cfg); cbn; rewrite ?app_nil_r;
      repeat split; try reflexivity; count.
  - cbn. rewrite ?app_nil_r. repeat split; try reflexivity; count.
Qed.

(** X19: a 401 hands the health check over to re-registration.  When a probe
    is answered 401, after [m <= 3] probes that found the registry down, the
    health check ends as [attemptReregister] does when started with the
    status [ATTEMPTING_REREGISTRATION]: same completion and same final state;
    it has probed [m + 1] times, and every registration call and every timer
    of the run is one of [attemptReregister]. *)
Theorem health_check_reregisters (fuel m : nat) (w : World) (url : string) :
  newURL env "/service" (registryUrl cfg) = Some url ->
  (m <= 3)%nat -> (m < fuel)%nat ->
  (forall i, (i < m)%nat -> probeDown (health (getCalls w + i)%nat)) ->
  probeUnauthorized (health (getCalls w + m)%nat) ->
  let run := checkRegistryHealth cfg env health fuel w in
  let rereg :=
    attemptReregister cfg env 4
      (withStatus ATTEMPTING_REREGISTRATION (tickGet (Nat.iter m afterDown w))) in
  run.1 = rereg.1
  /\ probeCount run.2 = S m
  /\ registerAttempts (baseEvents run.2) = registerAttempts rereg.2
  /\ timersScheduled (baseEvents run.2) = timersScheduled rereg.2
  /\ emitted (baseEvents run.2) = emitted rereg.2.
Proof.
  intros Hurl Hm Hfuel Hdown H401 run rereg. subst run rereg.
  unfold checkRegistryHealth. rewrite Hurl.
  destruct fuel as [|fuel]; [lia|].
  replace (S fuel) with (m + S (fuel - m))%nat by lia.
  destruct (health_downs url m (S (fuel - m)) 0 w) as (t0 & -> & Hp & Hb);
    [lia|exact Hdown|].
  downs_facts Hb.
  rewrite health_unfold. cbv zeta.
  rewrite calls_afterDown. unfold probeUnauthorized in H401. rewrite H401.
  set (w' := withStatus ATTEMPTING_REREGISTRATION (tickGet (Nat.iter m afterDown w))).
  split.
  - unfold liftH. by destruct (attemptReregister cfg env 4 w') as [[c w1] t1].
  - rewrite !prefixedH_trace, !probeCount_app, !baseEvents_app,
      !registerAttempts_app, !timersScheduled_app, !emitted_app,
      liftH_probes, liftH_trace, Hp, Ht, He, Hr.
    cbn. repeat split; lia.
Qed.


Lemma register_refused port w key url :
  keyIsSet (SERVICE_REGISTRATION_KEY env) = Some key ->
  newURL env "/service" (registryUrl cfg) = Some url ->
  postFails (axiosPost env (postCalls w)) ->
  register cfg env port w = (Normal false, tickPost w, [registerCall url port key]).
Proof.
  intros Hkey Hurl Hfail. rewrite (register_run cfg env port w key url Hkey Hurl).
  by destruct (axiosPost env (postCalls w)) as [[d|]|e].
Qed.

Lemma register_accepted port w key url d :
  keyIsSet (SERVICE_REGISTRATION_KEY env) = Some key ->
  newURL env "/service" (registryUrl cfg) = Some url ->
  axiosPost env (postCalls w) = Resolved (Some d) ->
  register cfg env port w
  = (Normal true, registered cfg port d w,
     registerCall url port key
     :: (if healthChecks cfg then [EvSetTimeout (healthCheckInterval cfg)] else [])).
Proof.
  intros Hkey Hurl Hpost. rewrite (register_run cfg env port w key url Hkey Hurl).
  by rewrite Hpost.
Qed.

Lemma posts_afterRefusal k : forall v,
  postCalls (Nat.iter k afterRefusal v) = (postCalls v + k)%nat
  /\ gw_port (Nat.iter k afterRefusal v) = gw_port v
  /\ randomDraws (Nat.iter k afterRefusal v) = (randomDraws v + k)%nat.
Proof.
  induction k as [|k IH]; intros v; [cbn; repeat split; lia|].
  rewrite Nat.iter_succ_r. destruct (IH (afterRefusal v)) as (-> & -> & ->).
  cbn. repeat split; lia.
Qed.

(** [k] registrations in a row that the registry refuses, each followed by a
    backoff. *)
Lemma reregister_refusals key url k : forall fuel attempts w,
  keyIsSet (SERVICE_REGISTRATION_KEY env) = Some key ->
  newURL env "/service" (registryUrl cfg) = Some url ->
  attempts + Z.of_nat k <= 3 ->
  (forall i, (i < k)%nat -> postFails (axiosPost env (postCalls w + i)%nat)) ->
  exists t0,
    attemptReregisterLoop cfg env (k + fuel) attempts w
    = prefixed t0
        (attemptReregisterLoop cfg env fuel (attempts + Z.of_nat k)
           (Nat.iter k afterRefusal w))
    /\ registerAttempts t0 = k
    /\ sleeps t0 = backoffs cfg env (attempts + 1) (randomDraws w) k
    /\ timersScheduled t0 = 0%nat
    /\ emitted t0 = [].
Proof.
  induction k as [|k IH]; intros fuel attempts w Hkey Hurl Hk Hfail.
  { exists []. change (Z.of_nat 0) with 0. rewrite Z.add_0_r.
    change (Nat.iter 0 afterRefusal w) with w. change (0 + fuel)%nat with fuel.
    split; [|repeat split].
    by destruct (attemptReregisterLoop cfg env fuel attempts w) as [[c w1] t1]. }
  cbn [Nat.add]. rewrite reregister_unfold.
  rewrite (register_refused (gw_port w) w key url Hkey Hurl).
  2:{ specialize (Hfail 0%nat ltac:(lia)). by rewrite Nat.add_0_r in Hfail. }
  destruct (Z.geb_spec attempts 3) as [Hge|_]; [lia|].
  fold (afterRefusal w).
  destruct (IH fuel (attempts + 1) (afterRefusal w) Hkey Hurl)
    as (t0 & Hrun & Hp & Hs & Ht & He).
  { lia. }
  { intros i Hi. specialize (Hfail (S i) ltac:(lia)).
    replace (postCalls (afterRefusal w) + i)%nat with (postCalls w + S i)%nat
      by (cbn; lia).
    exact Hfail. }
  rewrite Hrun, prefixed_app, Nat.iter_succ_r.
  replace (attempts + 1 + Z.of_nat k) with (attempts + Z.of_nat (S k)) by lia.
  eexists. split; [reflexivity|].
  rewrite !registerAttempts_app, !sleeps_app, !timersScheduled_app, !emitted_app,
    Hp, Hs, Ht, He, backoffs_S.
  repeat split.
Qed.

(** X20: re-registration recovers.  When the registry refuses [k <= 3]
    registrations in a row and accepts the next one, [attemptReregister]
    calls [register] [k + 1] times with the port it registered before, backs
    off [delay(1)], [delay(2)], ... between the calls, installs the new
    credential, leaves the gateway [GATEWAY_ACTIVE], emits no signal and
    starts the health-check timer exactly when the health checks are
    enabled. *)
Theorem reregister_recovers (fuel k : nat) (w : World) (key url : string)
    (d : RegistrationResponse) :
  keyIsSet (SERVICE_REGISTRATION_KEY env) = Some key ->
  newURL env "/service" (registryUrl cfg) = Some url ->
  (k <= 3)%nat -> (k < fuel)%nat ->
  (forall i, (i < k)%nat -> postFails (axiosPost env (postCalls w + i)%nat)) ->
  axiosPost env (postCalls w + k)%nat = Resolved (Some d) ->
  let run := attemptReregister cfg env fuel w in
  run.1.1 = Normal tt
  /\ status run.1.2 = GATEWAY_ACTIVE
  /\ gw_port run.1.2 = gw_port w
  /\ registryHeaders run.1.2 = Some (mkRegistryHeaders (serviceId d) (token d))
  /\ registerAttempts run.2 = S k
  /\ sleeps run.2 = backoffs cfg env 1 (randomDraws w) k
  /\ emitted run.2 = []
  /\ timersScheduled run.2 = (if healthChecks cfg then 1 else 0)%nat.
Proof.
  intros Hkey Hurl Hk Hfuel Hfail Hok run. subst run. unfold attemptReregister.
  destruct fuel as [|fuel]; [lia|].
  replace (S fuel) with (k + S (fuel - k))%nat by lia.
  destruct (reregister_refusals key url k (S (fuel - k)) 0 w Hkey Hurl)
    as (t0 & -> & Hp & Hs & Ht & He); [lia|exact Hfail|].
  rewrite reregister_unfold.
  destruct (posts_afterRefusal k w) as (Hposts & Hport & _).
  rewrite (register_accepted _ _ key url d Hkey Hurl) by (by rewrite Hposts).
  rewrite Hport.
  rewrite !prefixed_completion, !prefixed_world, !prefixed_trace,
    !registerAttempts_app, !sleeps_app, !emitted_app, !timersScheduled_app,
    Hp, Hs, Ht, He.
  unfold registered.
  destruct (healthChecks cfg); cbn; rewrite ?app_nil_r;
    repeat split; try reflexivity; count.
Qed.

(** *** Start-up *)

Lemma startup_unfold fuel port attempts w :
  startupLoop cfg env (S fuel) port attempts w
  = match register cfg env (Some port) w with
    | (Normal true, w1, t1) => (Normal Listening, w1, t1)
    | (Normal false, w1, t1) =>
        if attempts + 1 >=? 3 then (Normal ShutdownCalled, w1, t1)
        else prefixed t1 (startupLoop cfg env fuel port (attempts + 1) w1)
    | (Throw e, w1, t1) => (Normal ShutdownCalled, w1, t1)
    | (OutOfFuel, w1, t1) => (OutOfFuel, w1, t1)
    end.
Proof.
  cbn [startupLoop]. unfold tryCatch, bind.
  destruct (register cfg env (Some port) w) as [[[[]|e|] w1] t1]; cbn;
    rewrite ?app_nil_r; try reflexivity.
  destruct (attempts + 1 >=? 3); cbn; rewrite ?app_nil_r; [reflexivity|].
  by destruct (startupLoop cfg env fuel port (attempts + 1) w1) as [[c w2] t2].
Qed.


Lemma posts_refused k : forall v,
  postCalls (Nat.iter k tickPost v) = (postCalls v + k)%nat
  /\ gatewayFields (Nat.iter k tickPost v) = gatewayFields v.
Proof.
  induction k as [|k IH]; intros v; [cbn; split; [lia|reflexivity]|].
  rewrite Nat.iter_succ_r. destruct (IH (tickPost v)) as (-> & ->).
  cbn. split; [lia|reflexivity].
Qed.

Lemma registerAttempts_calls url port key k :
  registerAttempts (replicate k (registerCall url port key)) = k
  /\ sleeps (replicate k (registerCall url port key)) = []
  /\ timersScheduled (replicate k (registerCall url port key)) = 0%nat.
Proof.
  induction k as [|k (IH1 & IH2 & IH3)]; [by repeat split|].
  repeat split.
  - unfold registerAttempts in *. cbn. by rewrite IH1.
  - exact IH2.
  - exact IH3.
Qed.

(** [k] registrations in a row that the registry refuses at start-up. *)
Lemma startup_refusals key url port k : forall fuel attempts w,
  keyIsSet (SERVICE_REGISTRATION_KEY env) = Some key ->
  newURL env "/service" (registryUrl cfg) = Some url ->
  attempts + Z.of_nat k < 3 ->
  (forall i, (i < k)%nat -> postFails (axiosPost env (postCalls w + i)%nat)) ->
  startupLoop cfg env (k + fuel) port attempts w
  = prefixed (replicate k (registerCall url (Some port) key))
      (startupLoop cfg env fuel port (attempts + Z.of_nat k)
         (Nat.iter k tickPost w)).
Proof.
  induction k as [|k IH]; intros fuel attempts w Hkey Hurl Hk Hfail.
  { change (Z.of_nat 0) with 0. rewrite Z.add_0_r.
    change (Nat.iter 0 tickPost w) with w. change (0 + fuel)%nat with fuel.
    by destruct (startupLoop cfg env fuel port attempts w) as [[c w1] t1]. }
  cbn [Nat.add]. rewrite startup_unfold.
  rewrite (register_refused (Some port) w key url Hkey Hurl).
  2:{ specialize (Hfail 0%nat ltac:(lia)). by rewrite Nat.add_0_r in Hfail. }
  destruct (Z.geb_spec (attempts + 1) 3) as [Hge|_]; [lia|].
  rewrite (IH fuel (attempts + 1) (tickPost w) Hkey Hurl).
  - rewrite prefixed_app, Nat.iter_succ_r.
    replace (attempts + 1 + Z.of_nat k) with (attempts + Z.of_nat (S k)) by lia.
    reflexivity.
  - lia.
  - intros i Hi. specialize (Hfail (S i) ltac:(lia)).
    replace (postCalls (tickPost w) + i)%nat with (postCalls w + S i)%nat
      by (cbn; lia).
    exact Hfail.
Qed.

(** What every run of the start-up loop keeps. *)
Lemma startup_invariants port fuel : forall attempts w,
  (Z.to_nat (3 - attempts) <= fuel)%nat -> attempts < 3 ->
  let run := startupLoop cfg env fuel port attempts w in
  run.1.1 <> OutOfFuel
  /\ (forall e, run.1.1 <> Throw e)
  /\ (registerAttempts run.2 <= Z.to_nat (3 - attempts))%nat
  /\ sleeps run.2 = []
  /\ (run.1.1 = Normal Listening ->
      status run.1.2 = GATEWAY_ACTIVE /\ gw_port run.1.2 = Some port)
  /\ (run.1.1 = Normal ShutdownCalled -> gatewayFields run.1.2 = gatewayFields w).
Proof.
  induction fuel as [|fuel IH]; intros attempts w Hfuel Hlt; [lia|]. cbv zeta.
  rewrite startup_unfold.
  destruct (register_cases (Some port) w)
    as [(msg & -> & Hmsg) | [(url & key & -> & _) | (url & key & d & -> & _)]].
  - cbn. repeat split; try discriminate; try count; done.
  - destruct (Z.geb_spec (attempts + 1) 3) as [Hge|Hlt'].
    + cbn. repeat split; try discriminate; try count; done.
    + rewrite prefixed_completion, prefixed_world, prefixed_trace,
        registerAttempts_app, sleeps_app.
      destruct (IH (attempts + 1) (tickPost w)) as (H1 & H2 & H3 & H4 & H5 & H6);
        [lia|lia|].
      cbv zeta in H1, H2, H3, H4, H5, H6.
      split; [exact H1|]. split; [exact H2|].
      split; [change (registerAttempts [registerCall url (Some port) key]) with 1%nat; lia|].
      split; [by rewrite H4|]. split; [exact H5|].
      intros Hs. by rewrite (H6 Hs).
  - unfold registered.
    destruct (healthChecks cfg); cbn;
      repeat split; try discriminate; try count; done.
Qed.

(** X21: start-up is bounded and orderly.  Given fuel for three iterations
    the start-up of [index.ts] always ends, and it ends by listening or by
    calling [shutdown()], never by an exception; it calls [register] at most
    three times and never sleeps between the calls.  When it ends listening
    the gateway is [GATEWAY_ACTIVE] with the port installed; when it shuts
    down, the status, the port, the credential and the timer of the gateway
    are as they were; and a missing registration key or an invalid registry
    URL shuts down before any call is made. *)
Theorem startup_orderly (fuel : nat) (port : Z) (w : World) :
  (3 <= fuel)%nat ->
  let run := startup cfg env fuel port w in
  run.1.1 <> OutOfFuel
  /\ (forall e, run.1.1 <> Throw e)
  /\ (registerAttempts run.2 <= 3)%nat
  /\ sleeps run.2 = []
  /\ (run.1.1 = Normal Listening ->
      status run.1.2 = GATEWAY_ACTIVE /\ gw_port run.1.2 = Some port)
  /\ (run.1.1 = Normal ShutdownCalled -> gatewayFields run.1.2 = gatewayFields w)
  /\ (keyIsSet (SERVICE_REGISTRATION_KEY env) = None
      \/ newURL env "/service" (registryUrl cfg) = None ->
      run = (Normal ShutdownCalled, w, [])).
Proof.
  intros Hfuel run. subst run. unfold startup.
  destruct (startup_invariants port fuel 0 w) as (H1 & H2 & H3 & H4 & H5 & H6);
    [simpl; lia|lia|].
  cbv zeta in H1, H2, H3, H4, H5, H6.
  split; [exact H1|]. split; [exact H2|]. split; [exact H3|].
  split; [exact H4|]. split; [exact H5|]. split; [exact H6|].
  intros Hconf. destruct fuel as [|fuel]; [lia|]. rewrite startup_unfold.
  destruct (keyIsSet (SERVICE_REGISTRATION_KEY env)) as [key|] eqn:Hkey.
  - destruct Hconf as [Hconf|Hconf]; [discriminate|].
    destruct (register_bad_url cfg env (Some port) w key Hkey Hconf) as [e ->].
    reflexivity.
  - by rewrite register_no_key.
Qed.

(** X22: start-up registers within three attempts.  When the registry refuses
    [k <= 2] registrations in a row and accepts the next one, the start-up
    ends listening after [k + 1] calls of [register], made back to back, with
    the gateway [GATEWAY_ACTIVE], the port and the credential of the response
    installed. *)
Theorem startup_listens (fuel k : nat) (port : Z) (w : World) (key url : string)
    (d : RegistrationResponse) :
  keyIsSet (SERVICE_REGISTRATION_KEY env) = Some key ->
  newURL env "/service" (registryUrl cfg) = Some url ->
  (k <= 2)%nat -> (k < fuel)%nat ->
  (forall i, (i < k)%nat -> postFails (axiosPost env (postCalls w + i)%nat)) ->
  axiosPost env (postCalls w + k)%nat = Resolved (Some d) ->
  let run := startup cfg env fuel port w in
  run.1.1 = Normal Listening
  /\ status run.1.2 = GATEWAY_ACTIVE
  /\ gw_port run.1.2 = Some port
  /\ registryHeaders run.1.2 = Some (mkRegistryHeaders (serviceId d) (token d))
  /\ registerAttempts run.2 = S k
  /\ sleeps run.2 = []
  /\ timersScheduled run.2 = (if healthChecks cfg then 1 else 0)%nat.
Proof.
  intros Hkey Hurl Hk Hfuel Hfail Hok run. subst run. unfold startup.
  destruct fuel as [|fuel]; [lia|].
  replace (S fuel) with (k + S (fuel - k))%nat by lia.
  rewrite (startup_refusals key url port k _ 0 w Hkey Hurl) by (lia || exact Hfail).
  rewrite startup_unfold.
  destruct (posts_refused k w) as (Hposts & _).
  rewrite (register_accepted _ _ key url d Hkey Hurl) by (by rewrite Hposts).
  destruct (registerAttempts_calls url (Some port) key k) as (Hr & Hs & Ht).
  rewrite !prefixed_completion, !prefixed_world, !prefixed_trace,
    !registerAttempts_app, !sleeps_app, !timersScheduled_app, Hr, Hs, Ht.
  unfold registered.
  destruct (healthChecks cfg); cbn;
    repeat split; try reflexivity; count.
Qed.

(** X23: start-up gives up after three refusals.  When the registry refuses
    three registrations in a row, the start-up calls [shutdown()] after
    exactly three calls of [register], made back to back: a fourth call is
    never made, whatever the registry would have answered, and the gateway is
    left as it was. *)
Theorem startup_gives_up (fuel : nat) (port : Z) (w : World) (key url : string) :
  keyIsSet (SERVICE_REGISTRATION_KEY env) = Some key ->
  newURL env "/service" (registryUrl cfg) = Some url ->
  (3 <= fuel)%nat ->
  (forall i, (i < 3)%nat -> postFails (axiosPost env (postCalls w + i)%nat)) ->
  let run := startup cfg env fuel port w in
  run.1.1 = Normal ShutdownCalled
  /\ run.2 = replicate 3 (registerCall url (Some port) key)
  /\ postCalls run.1.2 = (postCalls w + 3)%nat
  /\ gatewayFields run.1.2 = gatewayFields w.
Proof.
  intros Hkey Hurl Hfuel Hfail run. subst run. unfold startup.
  replace fuel with (2 + S (fuel - 3))%nat by lia.
  rewrite (startup_refusals key url port 2 _ 0 w Hkey Hurl)
    by (lia || (intros i Hi; apply Hfail; lia)).
  rewrite startup_unfold.
  destruct (posts_refused 2 w) as (Hposts & Hfields).
  rewrite (register_refused _ _ key url Hkey Hurl)
    by (rewrite Hposts; apply Hfail; lia).
  change (0 + Z.of_nat 2 + 1 >=? 3) with true. cbv iota.
  cbn. repeat split. lia.
Qed.

End LivenessFacts.

Lemma health_check_orderly_witness :
  let run := checkRegistryHealth Sample.config (Registry.env (fun _ => Registry.refused))
               (fun _ => Registry.unauthorized) 4 (Sample.world GATEWAY_ACTIVE) in
  run.1.1 <> OutOfFuel
  /\ run.1.1 <> Throw (EError "Error" "unreachable")
  /\ (probeCount run.2 <= 4)%nat
  /\ (timersScheduled (baseEvents run.2) <= 1)%nat
  /\ Forall (fun p => p = ("SIGTERM", SHUTTING_DOWN)) (emitted (baseEvents run.2)).
Proof.
  apply (health_check_orderly Sample.config (Registry.env (fun _ => Registry.refused))
           (fun _ => Registry.unauthorized) 4 (Sample.world GATEWAY_ACTIVE)).
  lia.
Defined.

Lemma health_check_recovers_witness :
  let run := checkRegistryHealth Sample.config (Registry.env (fun _ => Registry.refused))
               (Registry.after 2 Registry.down Registry.up) 4
               (Sample.world GATEWAY_ACTIVE) in
  status run.1.2 = GATEWAY_ACTIVE
  /\ probeCount run.2 = 3%nat
  /\ timersScheduled (baseEvents run.2) = 1%nat.
Proof.
  destruct (health_check_recovers Sample.config
              (Registry.env (fun _ => Registry.refused))
              (Registry.after 2 Registry.down Registry.up) 4 2
              (Sample.world GATEWAY_ACTIVE) "http://localhost:3002/service")
    as (_ & Hs & Hp & _ & _ & Ht).
  - reflexivity.
  - lia.
  - lia.
  - intros [|[|i]] Hi; [reflexivity|reflexivity|lia].
  - reflexivity.
  - split; [exact Hs|]. split; [exact Hp|exact Ht].
Defined.

Lemma health_check_gives_up_witness :
  let run := checkRegistryHealth Registry.shutdownConfig
               (Registry.env (fun _ => Registry.refused))
               (fun _ => Registry.timedOut) 4 (Sample.world GATEWAY_ACTIVE) in
  probeCount run.2 = 4%nat
  /\ status run.1.2 = SHUTTING_DOWN
  /\ emitted (baseEvents run.2) = [("SIGTERM", SHUTTING_DOWN)].
Proof.
  destruct (health_check_gives_up Registry.shutdownConfig
              (Registry.env (fun _ => Registry.refused))
              (fun _ => Registry.timedOut) 4
              (Sample.world GATEWAY_ACTIVE) "http://localhost:3002/service")
    as (_ & Hp & _ & Hs & He & _).
  - reflexivity.
  - lia.
  - intros i _. reflexivity.
  - split; [exact Hp|]. split; [exact Hs|exact He].
Defined.

Lemma health_check_reregisters_witness :
  let run := checkRegistryHealth Sample.config
               (Registry.env (fun _ => Registry.accepted))
               (Registry.after 1 Registry.down Registry.unauthorized) 4
               (Sample.world GATEWAY_ACTIVE) in
  let rereg := attemptReregister Sample.config
                 (Registry.env (fun _ => Registry.accepted)) 4
                 (withStatus ATTEMPTING_REREGISTRATION
                    (tickGet (afterDown (Sample.world GATEWAY_ACTIVE)))) in
  run.1 = rereg.1 /\ probeCount run.2 = 2%nat.
Proof.
  destruct (health_check_reregisters Sample.config
              (Registry.env (fun _ => Registry.accepted))
              (Registry.after 1 Registry.down Registry.unauthorized) 4 1
              (Sample.world GATEWAY_ACTIVE) "http://localhost:3002/service")
    as (Hrun & Hp & _).
  - reflexivity.
  - lia.
  - lia.
  - intros [|i] Hi; [reflexivity|lia].
  - reflexivity.
  - split; [exact Hrun|exact Hp].
Defined.

Lemma reregister_recovers_witness :
  let run := attemptReregister Sample.config
               (Registry.env (Registry.after 2 Registry.refused Registry.accepted))
               4 (Sample.world ATTEMPTING_REREGISTRATION) in
  status run.1.2 = GATEWAY_ACTIVE
  /\ registryHeaders run.1.2 = Some (mkRegistryHeaders "gw-2" "fresh")
  /\ registerAttempts run.2 = 3%nat.
Proof.
  destruct (reregister_recovers Sample.config
              (Registry.env (Registry.after 2 Registry.refused Registry.accepted))
              4 2 (Sample.world ATTEMPTING_REREGISTRATION) "abc123"
              "http://localhost:3002/service"
              (mkRegistrationResponse "gw-2" "fresh"))
    as (_ & Hs & _ & Hh & Hr & _).
  - reflexivity.
  - reflexivity.
  - lia.
  - lia.
  - intros [|[|i]] Hi; [exact I|exact I|lia].
  - reflexivity.
  - split; [exact Hs|]. split; [exact Hh|exact Hr].
Defined.

Lemma startup_orderly_witness :
  let run := startup Sample.config
               (Registry.env (Registry.after 1 Registry.refused Registry.accepted))
               3 3001 (Sample.world GATEWAY_STARTING) in
  run.1.1 <> OutOfFuel
  /\ (registerAttempts run.2 <= 3)%nat
  /\ sleeps run.2 = [].
Proof.
  destruct (startup_orderly Sample.config
              (Registry.env (Registry.after 1 Registry.refused Registry.accepted))
              3 3001 (Sample.world GATEWAY_STARTING))
    as (H1 & _ & H3 & H4 & _).
  - lia.
  - split; [exact H1|]. split; [exact H3|exact H4].
Defined.

Lemma startup_listens_witness :
  let run := startup Sample.config
               (Registry.env (Registry.after 1 Registry.refused Registry.accepted))
               3 3001 (Sample.world GATEWAY_STARTING) in
  run.1.1 = Normal Listening
  /\ status run.1.2 = GATEWAY_ACTIVE
  /\ registerAttempts run.2 = 2%nat.
Proof.
  destruct (startup_listens Sample.config
              (Registry.env (Registry.after 1 Registry.refused Registry.accepted))
              3 1 3001 (Sample.world GATEWAY_STARTING) "abc123"
              "http://localhost:3002/service"
              (mkRegistrationResponse "gw-2" "fresh"))
    as (Hc & Hs & _ & _ & Hr & _).
  - reflexivity.
  - reflexivity.
  - lia.
  - lia.
  - intros [|i] Hi; [exact I|lia].
  - reflexivity.
  - split; [exact Hc|]. split; [exact Hs|exact Hr].
Defined.

Lemma startup_gives_up_witness :
  let run := startup Sample.config
               (Registry.env (Registry.after 3 Registry.refused Registry.accepted))
               5 3001 (Sample.world GATEWAY_STARTING) in
  run.1.1 = Normal ShutdownCalled
  /\ postCalls run.1.2 = 3%nat.
Proof.
  destruct (startup_gives_up Sample.config
              (Registry.env (Registry.after 3 Registry.refused Registry.accepted))
              5 3001 (Sample.world GATEWAY_STARTING) "abc123"
              "http://localhost:3002/service")
    as (Hc & _ & Hp & _).
  - reflexivity.
  - reflexivity.
  - lia.
  - intros [|[|[|i]]] Hi; [exact I|exact I|exact I|lia].
  - split; [exact Hc|exact Hp].
Defined.
